(** * Ingestion scripts of the polymarket repository, embedded in Rocq

    The three scripts modelled here are
    - [scripts/websocket_collector.py] (module [Collector]),
    - [scripts/orderbook_poller.py]    (module [Poller]),
    - [scripts/extract_trades.py]      (module [Extractor]).

    Python values are the decoded JSON values the scripts handle; Python
    floats are IEEE binary64 numbers, embedded as Rocq's primitive floats.
    A raised exception is [None] in the option monad.  The PostgreSQL
    connection is a record with the committed tables, the tables as the open
    transaction sees them, the serial counters, the log of the calls made on
    the connection, and the server behind it: which rows the driver and the
    server take is theirs to decide, and the scripts are verified for any
    such server. *)

From Stdlib Require Import ZArith QArith List String Ascii Bool Lia Floats Sorted DecimalString.
Import ListNotations.
Set Warnings "-inexact-float,-register-all".

Local Open Scope string_scope.
Local Open Scope list_scope.
Local Open Scope Z_scope.

Notation "'do' x <- e ; k" :=
  (match e with Some x => k | None => None end)
  (at level 10, x pattern, e at level 100, k at level 200).

(** ** Python values and built-ins *)
Module Py.

Inductive value : Type :=
| PNone
| PBool (b : bool)
| PInt (z : Z)
| PFloat (f : float)
| PStr (s : string)
| PList (l : list value)
| PDict (kv : list (string * value)).

(** [bool(v)]: the truth value Python gives [v]. *)
Definition truthy (v : value) : bool :=
  match v with
  | PNone => false
  | PBool b => b
  | PInt z => negb (z =? 0)
  | PFloat f => negb (f =? 0)%float
  | PStr s => negb (s =? "")%string
  | PList l => match l with [] => false | _ => true end
  | PDict kv => match kv with [] => false | _ => true end
  end.

(** [a or b]. *)
Definition or_ (a b : value) : value := if truthy a then a else b.

Fixpoint lookup (k : string) (kv : list (string * value)) : option value :=
  match kv with
  | [] => None
  | (k', v) :: kv' => if (k =? k')%string then Some v else lookup k kv'
  end.

(** [d.get(k, default)]; AttributeError when [d] is not a dict.  A dict
    is the list of its items, every key once. *)
Definition get (d : value) (k : string) (default : value) : option value :=
  match d with
  | PDict kv => Some (match lookup k kv with Some v => v | None => default end)
  | _ => None
  end.

(** [d[k]] for a string key: KeyError or TypeError give [None]. *)
Definition getitem (d : value) (k : string) : option value :=
  match d with
  | PDict kv => lookup k kv
  | _ => None
  end.

(** A text is held as its UTF-8 bytes.  The characters of a Python [str]
    are code points: a character starts at every byte that is not a
    continuation byte (10xxxxxx) and runs up to the next such byte. *)
Definition continuation (c : ascii) : bool :=
  match c with
  | Ascii _ _ _ _ _ _ b6 b7 => b7 && negb b6
  end.

(** [len(s)] for a text. *)
Fixpoint str_len (s : string) : nat :=
  match s with
  | EmptyString => O
  | String c s' => if continuation c then str_len s' else S (str_len s')
  end.

(** [s[:n]] for a text: its first [n] characters. *)
Fixpoint str_prefix (n : nat) (s : string) : string :=
  match s with
  | EmptyString => EmptyString
  | String c s' =>
      if continuation c then String c (str_prefix n s')
      else match n with
           | O => EmptyString
           | S n' => String c (str_prefix n' s')
           end
  end.

(** [list(s)] for a text: its characters, each a text of its own. *)
Fixpoint str_chars (s : string) : list string :=
  match s with
  | EmptyString => []
  | String c s' =>
      let chars := str_chars s' in
      match s', chars with
      | String c' _, ch :: rest =>
          if continuation c' then String c ch :: rest
          else String c EmptyString :: chars
      | _, _ => String c EmptyString :: chars
      end
  end.

(** [v[0]]. *)
Definition first (v : value) : option value :=
  match v with
  | PList (x :: _) => Some x
  | PStr s => match str_chars s with
              | ch :: _ => Some (PStr ch)
              | [] => None
              end
  | _ => None
  end.

(** The items [for x in v] goes through; TypeError when [v] is not iterable. *)
Definition iter (v : value) : option (list value) :=
  match v with
  | PList l => Some l
  | PStr s => Some (map PStr (str_chars s))
  | PDict kv => Some (map (fun p => PStr (fst p)) kv)
  | _ => None
  end.

(** [v[:n]]. *)
Definition slice_to (n : nat) (v : value) : option value :=
  match v with
  | PStr s => Some (PStr (str_prefix n s))
  | PList l => Some (PList (firstn n l))
  | _ => None
  end.

(** [v == s] for a string literal [s]. *)
Definition eq_str (v : value) (s : string) : bool :=
  match v with
  | PStr s' => (s' =? s)%string
  | _ => false
  end.

(** The conversions of the Python runtime that read text: [float(str)],
    [int(str)] and [json.loads(str)].  They belong to the interpreter, not to
    the repository; the scripts are verified for any behaviour of them. *)
Record Runtime : Type := {
  float_of_str : string -> option float;
  int_of_str : string -> option Z;
  json_loads : string -> option value
}.

(** [float(z)] for an int: nearest binary64, OverflowError beyond the range. *)
Definition float_of_Z (z : Z) : option float :=
  let f := SF2Prim (binary_normalize prec emax z 0 false) in
  if PrimFloat.is_infinity f then None else Some f.

(** [int(f)] for a float: truncation, an error on nan and the infinities. *)
Definition Z_of_float (f : float) : option Z :=
  match Prim2SF f with
  | S754_zero _ => Some 0
  | S754_finite s m e =>
      let a := if 0 <=? e then Z.pos m * 2 ^ e else Z.pos m / 2 ^ (- e) in
      Some (if s then - a else a)
  | _ => None
  end.

Section Conversions.
Variable rt : Runtime.

(** [float(v)]. *)
Definition py_float (v : value) : option float :=
  match v with
  | PFloat f => Some f
  | PInt z => float_of_Z z
  | PBool b => Some (if b then 1 else 0)%float
  | PStr s => float_of_str rt s
  | _ => None
  end.

(** [int(v)]. *)
Definition py_int (v : value) : option Z :=
  match v with
  | PInt z => Some z
  | PBool b => Some (if b then 1 else 0)
  | PFloat f => Z_of_float f
  | PStr s => int_of_str rt s
  | _ => None
  end.

(** [json.loads(v)]: TypeError unless [v] is text. *)
Definition loads (v : value) : option value :=
  match v with
  | PStr s => json_loads rt s
  | _ => None
  end.

End Conversions.

(** Truth value of an optional float, [None] being Python's [None]. *)
Definition truthy_opt (o : option float) : bool :=
  match o with
  | Some f => negb (f =? 0)%float
  | None => false
  end.

End Py.
Import Py.

(** ** The PostgreSQL connection of the collector and of the poller

    The tables are the ones [WebSocketCollector.setup_db] creates: an [id
    SERIAL PRIMARY KEY] and a plain (non-unique) index on
    [(token_id, timestamp)] each, and in [orderbook_snapshots] a column
    [captured_at TIMESTAMP DEFAULT NOW()].

    A stored row is the parameters of its INSERT with the columns the server
    fills in: the serial id and, for a snapshot, [captured_at].  NOW() is
    the start time of the transaction that inserts the row; the model keeps
    which transaction that is, as the number of commits and rollbacks made
    on the connection before it.

    Serial values are drawn by the rows a statement inserts and are not
    given back by a rollback.  A statement that is refused inserts no row
    and draws no value: the driver refuses while it builds the statement,
    the server while it parses and plans it. *)
Module Storage.

Record snapshot_row : Type := {
  ob_token_id : value;
  ob_timestamp : Z;
  ob_bids : value;
  ob_asks : value;
  ob_best_bid : option float;
  ob_best_ask : option float;
  ob_spread : option float;
  ob_bid_depth : float;
  ob_ask_depth : float
}.

Record trade_row : Type := {
  rt_token_id : value;
  rt_timestamp : Z;
  rt_price : float;
  rt_size : float;
  rt_side : value;
  rt_fee_rate_bps : value
}.

Record change_row : Type := {
  pc_token_id : value;
  pc_timestamp : Z;
  pc_price : float;
  pc_size : float;
  pc_side : value;
  pc_best_bid : option float;
  pc_best_ask : option float
}.

(** A snapshot is stored as [(id, captured_at, parameters)], a trade and a
    price change as [(id, parameters)]. *)
Record tables : Type := {
  orderbook_snapshots : list (Z * Z * snapshot_row);
  realtime_trades : list (Z * trade_row);
  price_changes : list (Z * change_row)
}.

(** The calls a script makes on its connection, in the order made. *)
Inductive call : Type :=
| Execute (table : string)
| ExecuteValues (table : string) (rows : nat)
| Commit
| Rollback.

(** What psycopg2 and the server do with the parameters of an INSERT
    belongs to them, not to the repository: a text with a NUL character, a
    number the column cannot hold, a list the server cannot type are refused,
    and which ones depends on their versions.  The scripts are verified for
    any such behaviour, taken as a function of the parameters of a row. *)
Record Server : Type := {
  takes_snapshot : snapshot_row -> bool;
  takes_trade : trade_row -> bool;
  takes_change : change_row -> bool
}.

Record connection : Type := {
  server : Server;
  committed : tables;
  working : tables;
  ob_seq : Z;
  rt_seq : Z;
  pc_seq : Z;
  txn : Z;
  calls : list call
}.

(** Two refusals hold for every driver and server.  psycopg2 has adapters
    for None, bool, int, float and str, adapts a list item by item, and has
    none for a dict ([can't adapt type 'dict']); and a [timestamp] outside
    BIGINT is out of range. *)
Fixpoint adaptable (v : value) : bool :=
  match v with
  | PDict _ => false
  | PList l => forallb adaptable l
  | _ => true
  end.

Definition fits_bigint (z : Z) : bool :=
  (- 2 ^ 63 <=? z) && (z <? 2 ^ 63).

Definition snapshot_accepted (c : connection) (r : snapshot_row) : bool :=
  adaptable (ob_token_id r) && fits_bigint (ob_timestamp r)
  && takes_snapshot (server c) r.

Definition trade_accepted (c : connection) (r : trade_row) : bool :=
  adaptable (rt_token_id r) && adaptable (rt_side r)
  && adaptable (rt_fee_rate_bps r) && fits_bigint (rt_timestamp r)
  && takes_trade (server c) r.

Definition change_accepted (c : connection) (r : change_row) : bool :=
  adaptable (pc_token_id r) && adaptable (pc_side r)
  && fits_bigint (pc_timestamp r) && takes_change (server c) r.

Definition commit (c : connection) : connection :=
  {| server := server c; committed := working c; working := working c;
     ob_seq := ob_seq c; rt_seq := rt_seq c; pc_seq := pc_seq c;
     txn := txn c + 1; calls := calls c ++ [Commit] |}.

Definition rollback (c : connection) : connection :=
  {| server := server c; committed := committed c; working := committed c;
     ob_seq := ob_seq c; rt_seq := rt_seq c; pc_seq := pc_seq c;
     txn := txn c + 1; calls := calls c ++ [Rollback] |}.

Definition logged (c : connection) (k : call) : connection :=
  {| server := server c; committed := committed c; working := working c;
     ob_seq := ob_seq c; rt_seq := rt_seq c; pc_seq := pc_seq c;
     txn := txn c; calls := calls c ++ [k] |}.

(** [INSERT INTO orderbook_snapshots (...) VALUES (...)]: no conflict clause. *)
Definition insert_snapshot (c : connection) (r : snapshot_row) : connection * bool :=
  if snapshot_accepted c r then
    ({| server := server c; committed := committed c;
        working := {| orderbook_snapshots :=
                        orderbook_snapshots (working c) ++ [(ob_seq c + 1, txn c, r)];
                      realtime_trades := realtime_trades (working c);
                      price_changes := price_changes (working c) |};
        ob_seq := ob_seq c + 1; rt_seq := rt_seq c; pc_seq := pc_seq c;
        txn := txn c;
        calls := calls c ++ [Execute "orderbook_snapshots"] |}, true)
  else (logged c (Execute "orderbook_snapshots"), false).

(** [INSERT INTO realtime_trades (...) VALUES (...)]. *)
Definition insert_trade (c : connection) (r : trade_row) : connection * bool :=
  if trade_accepted c r then
    ({| server := server c; committed := committed c;
        working := {| orderbook_snapshots := orderbook_snapshots (working c);
                      realtime_trades :=
                        realtime_trades (working c) ++ [(rt_seq c + 1, r)];
                      price_changes := price_changes (working c) |};
        ob_seq := ob_seq c; rt_seq := rt_seq c + 1; pc_seq := pc_seq c;
        txn := txn c;
        calls := calls c ++ [Execute "realtime_trades"] |}, true)
  else (logged c (Execute "realtime_trades"), false).

(** The serial ids [s+1, s+2, ...] paired with the rows of one statement. *)
Fixpoint number {A : Type} (s : Z) (rows : list A) : list (Z * A) :=
  match rows with
  | [] => []
  | r :: rows' => (s + 1, r) :: number (s + 1) rows'
  end.

(** [execute_values] is called without [page_size], which is then 100. *)
Definition PAGE_SIZE : nat := 100.

(** [_paginate(seq, page_size)] of psycopg2.extras: [page] is the page being
    filled, [room] the number of rows it still takes. *)
Fixpoint paginate {A : Type} (page : list A) (room : nat) (seq : list A)
  : list (list A) :=
  match seq with
  | [] => match page with
          | [] => []
          | _ => [page]
          end
  | x :: seq' =>
      match room with
      | O => page :: paginate [x] (PAGE_SIZE - 1) seq'
      | S room' => paginate (page ++ [x]) room' seq'
      end
  end.

(** The INSERT of one page: a single statement, with all its rows or none. *)
Definition insert_page (c : connection) (page : list change_row) : connection * bool :=
  if forallb (change_accepted c) page then
    ({| server := server c; committed := committed c;
        working := {| orderbook_snapshots := orderbook_snapshots (working c);
                      realtime_trades := realtime_trades (working c);
                      price_changes :=
                        price_changes (working c) ++ number (pc_seq c) page |};
        ob_seq := ob_seq c; rt_seq := rt_seq c;
        pc_seq := pc_seq c + Z.of_nat (List.length page);
        txn := txn c; calls := calls c |}, true)
  else (c, false).

(** The loop of [execute_values] over the pages: a page that is refused
    raises, with the pages before it executed. *)
Fixpoint insert_pages (c : connection) (pages : list (list change_row))
  : connection * bool :=
  match pages with
  | [] => (c, true)
  | page :: pages' =>
      let (c1, ok) := insert_page c page in
      if ok then insert_pages c1 pages' else (c1, false)
  end.

(** [execute_values(cur, "INSERT INTO price_changes (...) VALUES %s", values)]. *)
Definition insert_changes (c : connection) (rows : list change_row) : connection * bool :=
  insert_pages (logged c (ExecuteValues "price_changes" (List.length rows)))
               (paginate [] PAGE_SIZE rows).

(** Lines 137-143 of the collector and 105-110 of the poller are the same
    code: the depth of a side and its best price. *)
Section Book.
Variable rt : Runtime.

(** [sum(float(b.get('size', 0)) * float(b.get('price', 0)) for b in side)];
    the sum of no level is Python's int 0, stored as the number 0. *)
Definition depth (side : value) : option float :=
  do levels <- iter side;
  fold_left
    (fun acc b =>
       do a <- acc;
       do sz <- get b "size" (PInt 0);
       do s <- py_float rt sz;
       do pr <- get b "price" (PInt 0);
       do p <- py_float rt pr;
       Some (a + s * p)%float)
    levels (Some 0%float).

(** [float(side[0]['price']) if side else None]. *)
Definition best (side : value) : option (option float) :=
  if truthy side then
    do b <- first side;
    do pr <- getitem b "price";
    do p <- py_float rt pr;
    Some (Some p)
  else Some None.

(** [best_ask - best_bid if (best_bid and best_ask) else None]. *)
Definition spread_of (best_bid best_ask : option float) : option float :=
  match best_bid, best_ask with
  | Some b, Some a =>
      if truthy_opt best_bid && truthy_opt best_ask then Some (a - b)%float else None
  | _, _ => None
  end.

(** The parameters of the snapshot INSERT, from the two sides. *)
Definition snapshot_params (token_id : value) (timestamp : Z) (bids asks : value)
  : option snapshot_row :=
  do bid_depth <- depth bids;
  do ask_depth <- depth asks;
  do best_bid <- best bids;
  do best_ask <- best asks;
  Some {| ob_token_id := token_id; ob_timestamp := timestamp;
          ob_bids := bids; ob_asks := asks;
          ob_best_bid := best_bid; ob_best_ask := best_ask;
          ob_spread := spread_of best_bid best_ask;
          ob_bid_depth := bid_depth; ob_ask_depth := ask_depth |}.

End Book.

Definition empty_tables : tables :=
  {| orderbook_snapshots := []; realtime_trades := []; price_changes := [] |}.

(** A server that takes every row the driver can send with a timestamp in
    range. *)
Definition lenient : Server :=
  {| takes_snapshot := fun _ => true;
     takes_trade := fun _ => true;
     takes_change := fun _ => true |}.

(** A fresh connection to an empty database on the server [s]. *)
Definition connect_to (s : Server) : connection :=
  {| server := s; committed := empty_tables; working := empty_tables;
     ob_seq := 0; rt_seq := 0; pc_seq := 0; txn := 0; calls := [] |}.

Definition connect : connection := connect_to lenient.

End Storage.

(** ** scripts/websocket_collector.py *)
Module Collector.
Import Storage.

(** [self.stats] without the start time. *)
Record stats : Type := {
  books : Z;
  changes : Z;   (* stats['price_changes'] *)
  trades : Z
}.

Record WebSocketCollector : Type := {
  conn : connection;
  counters : stats
}.

Definition with_conn (self : WebSocketCollector) (c : connection) : WebSocketCollector :=
  {| conn := c; counters := counters self |}.

Section Handlers.
Variable rt : Runtime.

(** Lines 132-143: the parameters of the INSERT of [store_book_snapshot]. *)
Definition book_row (data : value) : option snapshot_row :=
  do token_id <- get data "asset_id" PNone;
  do ts <- get data "timestamp" (PInt 0);
  do timestamp <- py_int rt ts;
  do bids <- get data "bids" (PList []);
  do asks <- get data "asks" (PList []);
  snapshot_params rt token_id timestamp bids asks.

Definition store_book_snapshot (self : WebSocketCollector) (data : value)
  : WebSocketCollector :=
  match book_row data with
  | Some row =>
      let (c, ok) := insert_snapshot (conn self) row in
      if ok then
        {| conn := commit c;
           counters := {| books := books (counters self) + 1;
                          changes := changes (counters self);
                          trades := trades (counters self) |} |}
      else with_conn self (rollback c)
  | None => with_conn self (rollback (conn self))
  end.

(** Lines 171-176: the parameters of the INSERT of [store_trade]. *)
Definition trade_row_of (data : value) : option trade_row :=
  do token_id <- get data "asset_id" PNone;
  do ts <- get data "timestamp" (PInt 0);
  do timestamp <- py_int rt ts;
  do pr <- get data "price" (PInt 0);
  do price <- py_float rt pr;
  do sz <- get data "size" (PInt 0);
  do size <- py_float rt sz;
  do side <- get data "side" PNone;
  do fee <- get data "fee_rate_bps" PNone;
  Some {| rt_token_id := token_id; rt_timestamp := timestamp;
          rt_price := price; rt_size := size;
          rt_side := side; rt_fee_rate_bps := fee |}.

Definition store_trade (self : WebSocketCollector) (data : value)
  : WebSocketCollector :=
  match trade_row_of data with
  | Some row =>
      let (c, ok) := insert_trade (conn self) row in
      if ok then
        {| conn := commit c;
           counters := {| books := books (counters self);
                          changes := changes (counters self);
                          trades := trades (counters self) + 1 |} |}
      else with_conn self (rollback c)
  | None => with_conn self (rollback (conn self))
  end.

(** [float(c.get(k, 0)) if c.get(k) else None]. *)
Definition optional_float (c : value) (k : string) : option (option float) :=
  do probe <- get c k PNone;
  if truthy probe then
    do v <- get c k (PInt 0);
    do f <- py_float rt v;
    Some (Some f)
  else Some None.

(** Lines 192-200: the tuple appended to [values] for one delta [c]. *)
Definition change_row_of (timestamp : Z) (c : value) : option change_row :=
  do token_id <- get c "asset_id" PNone;
  do pr <- get c "price" (PInt 0);
  do price <- py_float rt pr;
  do sz <- get c "size" (PInt 0);
  do size <- py_float rt sz;
  do side <- get c "side" PNone;
  do best_bid <- optional_float c "best_bid";
  do best_ask <- optional_float c "best_ask";
  Some {| pc_token_id := token_id; pc_timestamp := timestamp;
          pc_price := price; pc_size := size; pc_side := side;
          pc_best_bid := best_bid; pc_best_ask := best_ask |}.

(** The loop of lines 190-200: [values], or [None] when an item raises. *)
Fixpoint change_rows (timestamp : Z) (changes : list value) : option (list change_row) :=
  match changes with
  | [] => Some []
  | c :: changes' =>
      do r <- change_row_of timestamp c;
      do rs <- change_rows timestamp changes';
      Some (r :: rs)
  end.

Definition change_values (data : value) : option (list change_row) :=
  do changes <- get data "price_changes" (PList []);
  do ts <- get data "timestamp" (PInt 0);
  do timestamp <- py_int rt ts;
  do items <- iter changes;
  change_rows timestamp items.

Definition store_price_change (self : WebSocketCollector) (data : value)
  : WebSocketCollector :=
  match change_values data with
  | Some [] => self
  | Some values =>
      let (c, ok) := insert_changes (conn self) values in
      if ok then
        {| conn := commit c;
           counters := {| books := books (counters self);
                          changes := changes (counters self)
                                     + Z.of_nat (List.length values);
                          trades := trades (counters self) |} |}
      else with_conn self (rollback c)
  | None => with_conn self (rollback (conn self))
  end.

Definition _process_event (self : WebSocketCollector) (data : value)
  : WebSocketCollector :=
  match data with
  | PDict kv =>
      let event_type := match lookup "event_type" kv with
                        | Some v => v
                        | None => PNone
                        end in
      if eq_str event_type "book" then store_book_snapshot self data
      else if eq_str event_type "last_trade_price" then store_trade self data
      else if eq_str event_type "price_change" then store_price_change self data
      else self
  | _ => self
  end.

(** [handle_message]: a text that does not decode is passed over. *)
Definition handle_message (self : WebSocketCollector) (message : string)
  : WebSocketCollector :=
  match json_loads rt message with
  | Some (PList items) => fold_left _process_event items self
  | Some data => _process_event self data
  | None => self
  end.

(** One turn of the outer loop of [run]: the connection attempt fails, or it
    succeeds, the messages received are handled and the session ends with an
    exception. *)
Inductive attempt : Type :=
| ConnectFails
| Session (messages : list string).

(** The outer [while self.running] loop of [run], lines 293-330, over the
    attempts made until the collector is stopped; [sleeps] collects the
    arguments of [asyncio.sleep], in seconds. *)
Fixpoint run_loop (self : WebSocketCollector) (reconnect_delay : Z)
    (attempts : list attempt) (sleeps : list Z) : WebSocketCollector * list Z :=
  match attempts with
  | [] => (self, sleeps)
  | a :: attempts' =>
      let '(self1, delay1) :=
        match a with
        | ConnectFails => (self, reconnect_delay)
        | Session messages => (fold_left handle_message messages self, 1)
        end in
      run_loop self1 (Z.min (delay1 * 2) 60) attempts' (sleeps ++ [delay1])
  end.

(** [run] from line 292 on. *)
Definition run (self : WebSocketCollector) (attempts : list attempt)
  : WebSocketCollector * list Z :=
  run_loop self 1 attempts [].

End Handlers.

(** [WebSocketCollector()] after [setup_db] on an empty database. *)
Definition fresh : WebSocketCollector :=
  {| conn := connect; counters := {| books := 0; changes := 0; trades := 0 |} |}.

End Collector.

(** ** scripts/orderbook_poller.py *)
Module Poller.
Import Storage.

Definition POLL_INTERVAL : Z := 60.
Definition BATCH_SIZE : nat := 20.
Definition BATCH_DELAY : Z := 2.

Record OrderbookPoller : Type := {
  conn : connection;
  snapshots : Z;   (* stats['snapshots'] *)
  errors : Z       (* stats['errors'] *)
}.

(** An entry of the list [get_top_markets] returns. *)
Record target : Type := {
  token : value;
  slug : value;
  question : value
}.

(** What the venue does with one [fetch_orderbook] request: no answer
    (a transport error), or an answer complete after [elapsed] seconds with
    an HTTP status and a body that decodes as JSON or does not. *)
Inductive reply : Type :=
| Unreachable
| Answered (elapsed : Q) (status : Z) (body : option value).

(** The environment of one target of a batch: the venue's reply to its
    request, and [int(time.time() * 1000)] when its snapshot is stored. *)
Record exchange : Type := {
  answer : reply;
  clock_ms : Z
}.

(** [aiohttp.ClientTimeout(total=10)]. *)
Definition FETCH_TIMEOUT : Q := 10.

Section Poll.
Variable rt : Runtime.

(** Lines 58-60; [None] when a conversion raises. *)
Definition mid_price (m : value) : option float :=
  do bb <- get m "bestBid" (PInt 0);
  do best_bid <- py_float rt (or_ bb (PInt 0));
  do ba <- get m "bestAsk" (PInt 1);
  do best_ask <- py_float rt (or_ ba (PInt 1));
  Some ((best_bid + best_ask) / 2)%float.

(** Line 63: [mid_price < 0.10 or mid_price > 0.90]. *)
Definition extreme (mid : float) : bool :=
  ((mid <? 0.10) || (0.90 <? mid))%float.

(** The try block of lines 57-66: [true] when it ends in [continue]. *)
Definition skipped (m : value) : bool :=
  match mid_price m with
  | Some mid => extreme mid
  | None => false
  end.

(** The try block of lines 70-79: the appended entry, if one is appended. *)
Definition entry (m token_ids : value) : option target :=
  do ids <- loads rt token_ids;
  if truthy ids then
    do tok <- first ids;
    do sl <- get m "slug" (PStr "unknown");
    do q <- get m "question" (PStr "");
    do q50 <- slice_to 50 q;
    Some {| token := tok; slug := sl; question := q50 |}
  else None.

(** The loop of lines 52-79; [None] when an exception leaves it. *)
Fixpoint select (limit : nat) (markets : list value) (tokens : list target)
  : option (list target) :=
  match markets with
  | [] => Some tokens
  | m :: markets' =>
      if (limit <=? List.length tokens)%nat then Some tokens
      else if skipped m then select limit markets' tokens
      else
        do token_ids <- get m "clobTokenIds" PNone;
        select limit markets'
          (match (if truthy token_ids then entry m token_ids else None) with
           | Some t => tokens ++ [t]
           | None => tokens
           end)
  end.

(** [get_top_markets], given what [resp.json()] returned ([None] when the
    request raised). *)
Definition get_top_markets (resp : option value) (limit : nat) : list target :=
  match resp with
  | Some markets =>
      match iter markets with
      | Some ms =>
          match select limit ms [] with
          | Some tokens => tokens
          | None => []
          end
      | None => []
      end
  | None => []
  end.

(** [fetch_orderbook]: the decoded body, or Python's None. *)
Definition fetch_orderbook (r : reply) : value :=
  match r with
  | Unreachable => PNone
  | Answered elapsed status body =>
      if Qle_bool FETCH_TIMEOUT elapsed then PNone
      else if status =? 200 then
        match body with
        | Some data => data
        | None => PNone
        end
      else PNone
  end.

(** Lines 102-112: the parameters of the INSERT of [store_snapshot]. *)
Definition snapshot_row_of (now_ms : Z) (token_id data : value) : option snapshot_row :=
  do bids <- get data "bids" (PList []);
  do asks <- get data "asks" (PList []);
  snapshot_params rt token_id now_ms bids asks.

Definition store_snapshot (self : OrderbookPoller) (now_ms : Z) (token_id data : value)
  : OrderbookPoller * bool :=
  let failed c :=
    ({| conn := rollback c; snapshots := snapshots self;
        errors := errors self + 1 |}, false) in
  match snapshot_row_of now_ms token_id data with
  | Some row =>
      let (c, ok) := insert_snapshot (conn self) row in
      if ok then
        ({| conn := commit c; snapshots := snapshots self + 1;
            errors := errors self |}, true)
      else failed c
  | None => failed (conn self)
  end.

(** Lines 165-167: what is done with one target and its gathered result. *)
Definition settle (self : OrderbookPoller) (tr : target * exchange * value)
  : OrderbookPoller :=
  let '(t, e, result) := tr in
  if truthy result then fst (store_snapshot self (clock_ms e) (token t) result)
  else self.

(** Lines 161-167 of [run]: the fetches of a batch are gathered, each target
    with its own reply, then [zip(batch, results)] is gone through in order. *)
Definition run_batch (self : OrderbookPoller) (batch : list (target * exchange))
  : OrderbookPoller :=
  let results := map (fun te => fetch_orderbook (answer (snd te))) batch in
  fold_left settle (combine batch results) self.

End Poll.

Definition fresh : OrderbookPoller :=
  {| conn := connect; snapshots := 0; errors := 0 |}.

End Poller.

(** ** scripts/extract_trades.py *)
Module Extractor.

Definition BATCH_SIZE : nat := 1000.

(** An [orderFilledEvents] record as the subgraph returns it: every selected
    field is present and is text (ids, hashes and big integers alike). *)
Record fill : Type := {
  f_id : string;
  f_transactionHash : string;
  f_timestamp : string;
  f_maker : string;
  f_taker : string;
  f_makerAssetId : string;
  f_takerAssetId : string;
  f_makerAmountFilled : string;
  f_takerAmountFilled : string;
  f_fee : string
}.

(** A row of the [trades] table, whose [id] column the conflict clause of
    [insert_trades] needs to be unique. *)
Record trade : Type := {
  id : string;
  tx_hash : string;
  timestamp : Z;
  maker : string;
  taker : string;
  maker_asset_id : string;
  taker_asset_id : string;
  maker_amount : Z;
  taker_amount : Z;
  fee : Z
}.

Inductive call : Type :=
| ExecuteValues (rows : nat)
| Commit.

Record connection : Type := {
  committed : list trade;
  working : list trade;
  calls : list call
}.

(** The two queries the script sends. *)
Inductive query : Type :=
| TotalQuery
| PageQuery (first_ : nat) (id_gt : option string).

(** The ["data"] member of an answer. *)
Inductive data : Type :=
| Total (tradesQuantity : Z)
| Page (orderFilledEvents : list fill).

(** How one HTTP POST goes: it raises (transport error, error status,
    undecodable body), its body carries ["errors"], or it answers. *)
Inductive post_result : Type :=
| Raises
| WithErrors
| Answers.

(** The subgraph as a paginated source: the events in the order it serves
    them, how the coming POSTs go (all answer once the list is used up), the
    queries posted so far and the [time.sleep] arguments so far, in seconds. *)
Record subgraph : Type := {
  events : list fill;
  coming : list post_result;
  posted : list query;
  slept : list Q
}.

Definition after (cursor : option string) (e : fill) : bool :=
  match cursor with
  | Some c => (c <? f_id e)%string
  | None => true
  end.

(** What the source answers: the event count, or the first [n] events with
    an id above the cursor. *)
Definition serve (evs : list fill) (q : query) : data :=
  match q with
  | TotalQuery => Total (Z.of_nat (List.length evs))
  | PageQuery n cursor => Page (firstn n (filter (after cursor) evs))
  end.

Definition post (w : subgraph) (q : query) : subgraph * post_result :=
  match coming w with
  | [] =>
      ({| events := events w; coming := []; posted := posted w ++ [q];
          slept := slept w |}, Answers)
  | r :: rest =>
      ({| events := events w; coming := rest; posted := posted w ++ [q];
          slept := slept w |}, r)
  end.

Definition sleep (w : subgraph) (seconds : Q) : subgraph :=
  {| events := events w; coming := coming w; posted := posted w;
     slept := slept w ++ [seconds] |}.

(** The [for attempt in ...] loop of [query_subgraph]. *)
Fixpoint attempts (w : subgraph) (q : query) (range : list nat)
  : subgraph * option data :=
  match range with
  | [] => (w, None)
  | attempt :: range' =>
      let (w1, r) := post w q in
      match r with
      | Answers => (w1, Some (serve (events w1) q))
      | WithErrors => (w1, None)
      | Raises => attempts (sleep w1 (inject_Z (2 ^ Z.of_nat attempt))) q range'
      end
  end.

Definition query_subgraph (w : subgraph) (q : query) : subgraph * option data :=
  attempts w q (seq 0 3).

Definition get_total_trades (w : subgraph) : subgraph * Z :=
  let (w1, d) := query_subgraph w TotalQuery in
  match d with
  | Some (Total n) => (w1, n)
  | _ => (w1, 0)
  end.

Definition extract_trades_batch (w : subgraph) (last_id : string)
  : subgraph * list fill :=
  let where_clause := if (last_id =? "")%string then None else Some last_id in
  let (w1, d) := query_subgraph w (PageQuery BATCH_SIZE where_clause) in
  match d with
  | Some (Page l) => (w1, l)
  | _ => (w1, [])
  end.

(** [INSERT ... ON CONFLICT (id) DO NOTHING] of one row. *)
Definition insert_ignore (tbl : list trade) (r : trade) : list trade :=
  if existsb (fun x => (id x =? id r)%string) tbl then tbl else tbl ++ [r].

Definition execute_values (c : connection) (values : list trade) : connection :=
  {| committed := committed c;
     working := fold_left insert_ignore values (working c);
     calls := calls c ++ [ExecuteValues (List.length values)] |}.

Definition commit (c : connection) : connection :=
  {| committed := working c; working := working c;
     calls := calls c ++ [Commit] |}.

Section Script.
Variable rt : Runtime.

(** The tuple built for one record, lines 94-105. *)
Definition value_of (t : fill) : option trade :=
  do ts <- int_of_str rt (f_timestamp t);
  do ma <- int_of_str rt (f_makerAmountFilled t);
  do ta <- int_of_str rt (f_takerAmountFilled t);
  do fe <- int_of_str rt (f_fee t);
  Some {| id := f_id t; tx_hash := f_transactionHash t; timestamp := ts;
          maker := f_maker t; taker := f_taker t;
          maker_asset_id := f_makerAssetId t;
          taker_asset_id := f_takerAssetId t;
          maker_amount := ma; taker_amount := ta; fee := fe |}.

Fixpoint values_of (trades : list fill) : option (list trade) :=
  match trades with
  | [] => Some []
  | t :: trades' =>
      do v <- value_of t;
      do vs <- values_of trades';
      Some (v :: vs)
  end.

(** [insert_trades]; [None] when a conversion raises, before any call on
    the connection. *)
Definition insert_trades (c : connection) (trades : list fill)
  : option (connection * nat) :=
  match trades with
  | [] => Some (c, 0%nat)
  | _ =>
      do values <- values_of trades;
      Some (commit (execute_values c values), List.length values)
  end.

(** [SELECT MAX(id) FROM trades], ids compared as text. *)
Definition max_id (tbl : list trade) : option string :=
  fold_left
    (fun acc r =>
       match acc with
       | Some m => if (m <? id r)%string then Some (id r) else Some m
       | None => Some (id r)
       end)
    tbl None.

Definition get_last_trade_id (c : connection) : string :=
  match max_id (working c) with
  | Some result => result
  | None => ""
  end.

Definition get_trade_count (c : connection) : nat := List.length (working c).

(** How [main] ends: up to date, the final report, or an exception that
    nothing catches. *)
Inductive outcome : Type :=
| UpToDate
| ExtractionComplete (final_count : nat) (total_inserted : nat)
| Uncaught.

(** [trades[-1]['id']] of a non-empty page. *)
Definition last_id_of (trades : list fill) (previous : string) : string :=
  match rev trades with
  | t :: _ => f_id t
  | [] => previous
  end.

(** The [while True] loop of [main], lines 172-199; [None] when [fuel]
    iterations do not reach its end. *)
Fixpoint extract_loop (fuel : nat) (w : subgraph) (c : connection)
    (last_id : string) (total_inserted : nat)
  : option (subgraph * connection * outcome) :=
  match fuel with
  | O => None
  | S fuel' =>
      let (w1, trades) := extract_trades_batch w last_id in
      match trades with
      | [] => Some (w1, c, ExtractionComplete (get_trade_count c) total_inserted)
      | _ =>
          match insert_trades c trades with
          | Some (c1, inserted) =>
              extract_loop fuel' (sleep w1 (1 # 10)) c1
                (last_id_of trades last_id) (total_inserted + inserted)
          | None => Some (w1, c, Uncaught)
          end
      end
  end.

Definition main (fuel : nat) (w : subgraph) (c : connection)
  : option (subgraph * connection * outcome) :=
  let db_count := get_trade_count c in
  let (w1, total_trades) := get_total_trades w in
  if total_trades <=? Z.of_nat db_count then Some (w1, c, UpToDate)
  else extract_loop fuel w1 c (get_last_trade_id c) 0%nat.

End Script.

(** A source holding [evs] whose POSTs go as [script] says. *)
Definition source (evs : list fill) (script : list post_result) : subgraph :=
  {| events := evs; coming := script; posted := []; slept := [] |}.

(** A connection to a database holding [rows], all committed. *)
Definition holding (rows : list trade) : connection :=
  {| committed := rows; working := rows; calls := [] |}.

End Extractor.

(** ** A runtime to run the scripts on concrete data

    Plain decimal numerals and JSON texts without escapes or exponents.  On
    these the conversions below agree with CPython: a decimal with at most 15
    digits is the quotient of two integers that binary64 represents exactly,
    and that quotient rounded once is the nearest binary64 to the decimal. *)
Module Reference.

Definition dquote : ascii := "034"%char.

Definition digit (c : ascii) : option Z :=
  let n := Z.of_N (N_of_ascii c) in
  if (48 <=? n) && (n <=? 57) then Some (n - 48) else None.

Fixpoint digits (s : string) (acc : Z) : option Z :=
  match s with
  | EmptyString => Some acc
  | String c s' => do d <- digit c; digits s' (acc * 10 + d)
  end.

Definition natural (s : string) : option Z :=
  match s with
  | EmptyString => None
  | _ => digits s 0
  end.

Definition int_of_str (s : string) : option Z :=
  match s with
  | String "-" s' => do n <- natural s'; Some (- n)
  | _ => natural s
  end.

(** The text before the first point, and the text after it if there is one. *)
Fixpoint split_point (s : string) : string * option string :=
  match s with
  | EmptyString => (EmptyString, None)
  | String "." s' => (EmptyString, Some s')
  | String c s' => let (a, b) := split_point s' in (String c a, b)
  end.

Definition unsigned_float (s : string) : option float :=
  let (whole, frac) := split_point s in
  let frac := match frac with Some f => f | None => EmptyString end in
  do m <- natural (whole ++ frac);
  let k := Z.of_nat (String.length frac) in
  if (String.length (whole ++ frac) <=? 15)%nat then
    do a <- float_of_Z m;
    do b <- float_of_Z (10 ^ k);
    Some (a / b)%float
  else None.

Definition float_of_str (s : string) : option float :=
  match s with
  | String "-" s' => do f <- unsigned_float s'; Some (- f)%float
  | _ => unsigned_float s
  end.

Definition is_ws (c : ascii) : bool :=
  let n := N_of_ascii c in
  ((n =? 32) || (n =? 9) || (n =? 10) || (n =? 13))%N.

Fixpoint skip_ws (s : string) : string :=
  match s with
  | String c s' => if is_ws c then skip_ws s' else s
  | EmptyString => s
  end.

(** After an opening quote: the text up to the closing quote, and the rest. *)
Fixpoint take_string (s : string) : option (string * string) :=
  match s with
  | EmptyString => None
  | String c s' =>
      if (c =? dquote)%char then Some (EmptyString, s')
      else if (c =? "\")%char then None
      else do (a, r) <- take_string s'; Some (String c a, r)
  end.

Definition is_numeric (c : ascii) : bool :=
  match digit c with
  | Some _ => true
  | None => (c =? "-")%char || (c =? ".")%char
  end.

Fixpoint take_number (s : string) : string * string :=
  match s with
  | String c s' =>
      if is_numeric c then let (a, r) := take_number s' in (String c a, r)
      else (EmptyString, s)
  | EmptyString => (EmptyString, EmptyString)
  end.

(** A JSON number has no leading zero and a digit before its point. *)
Definition well_formed_number (tok : string) : bool :=
  let unsigned := match tok with String "-" t => t | _ => tok end in
  match unsigned with
  | String "0" (String c _) => (c =? ".")%char
  | String c _ => match digit c with Some _ => true | None => false end
  | EmptyString => false
  end.

Definition number (tok : string) : option value :=
  if well_formed_number tok then
    match split_point tok with
    | (_, None) => do z <- int_of_str tok; Some (PInt z)
    | (_, Some _) => do f <- float_of_str tok; Some (PFloat f)
    end
  else None.

(** [d[k] = v] on the items of a dict. *)
Fixpoint set_item (kv : list (string * value)) (k : string) (v : value)
  : list (string * value) :=
  match kv with
  | [] => [(k, v)]
  | (k', v') :: kv' =>
      if (k =? k')%string then (k, v) :: kv' else (k', v') :: set_item kv' k v
  end.

Definition literal (word : string) (v : value) (s : string) : option (value * string) :=
  if prefix word s
  then Some (v, substring (String.length word) (String.length s - String.length word) s)
  else None.

Inductive mode : Type :=
| Value
| Elements (acc : list value)
| Members (acc : list (string * value)).

Fixpoint parse (fuel : nat) (m : mode) (s : string) : option (value * string) :=
  match fuel with
  | O => None
  | S fuel' =>
      match m, skip_ws s with
      | Value, String "[" s' =>
          match skip_ws s' with
          | String "]" r => Some (PList [], r)
          | _ => parse fuel' (Elements []) s'
          end
      | Value, String "{" s' =>
          match skip_ws s' with
          | String "}" r => Some (PDict [], r)
          | _ => parse fuel' (Members []) s'
          end
      | Value, String "t" _ => literal "true" (PBool true) (skip_ws s)
      | Value, String "f" _ => literal "false" (PBool false) (skip_ws s)
      | Value, String "n" _ => literal "null" PNone (skip_ws s)
      | Value, String c s' =>
          if (c =? dquote)%char then
            do (a, r) <- take_string s'; Some (PStr a, r)
          else
            let (tok, r) := take_number (skip_ws s) in
            do v <- number tok; Some (v, r)
      | Elements acc, s0 =>
          do (v, r) <- parse fuel' Value s0;
          match skip_ws r with
          | String "," r' => parse fuel' (Elements (acc ++ [v])) r'
          | String "]" r' => Some (PList (acc ++ [v]), r')
          | _ => None
          end
      | Members acc, String c s' =>
          if (c =? dquote)%char then
            do (k, r) <- take_string s';
            match skip_ws r with
            | String ":" r' =>
                do (v, r'') <- parse fuel' Value r';
                match skip_ws r'' with
                | String "," r3 => parse fuel' (Members (set_item acc k v)) r3
                | String "}" r3 => Some (PDict (set_item acc k v), r3)
                | _ => None
                end
            | _ => None
            end
          else None
      | _, EmptyString => None
      end
  end.

Definition json_loads (s : string) : option value :=
  do (v, r) <- parse (2 * String.length s + 2) Value s;
  match skip_ws r with
  | EmptyString => Some v
  | _ => None
  end.

Definition runtime : Runtime :=
  {| Py.float_of_str := float_of_str;
     Py.int_of_str := int_of_str;
     Py.json_loads := json_loads |}.

Definition quoted (s : string) : string :=
  (String dquote s ++ String dquote EmptyString)%string.

(** The JSON text of a value that holds no float. *)
Fixpoint text_of (v : value) : string :=
  match v with
  | PNone => "null"
  | PBool b => if b then "true" else "false"
  | PInt z => DecimalString.NilZero.string_of_int (Z.to_int z)
  | PFloat _ => "null"
  | PStr s => quoted s
  | PList l =>
      ("[" ++ (fix items (l : list value) : string :=
                match l with
                | [] => ""
                | x :: l' =>
                    (text_of x ++ match l' with [] => "" | _ => "," ++ items l' end)%string
                end) l ++ "]")%string
  | PDict kv =>
      ("{" ++ (fix members (kv : list (string * value)) : string :=
                match kv with
                | [] => ""
                | (k, x) :: kv' =>
                    (quoted k ++ ":" ++ text_of x
                     ++ match kv' with [] => "" | _ => "," ++ members kv' end)%string
                end) kv ++ "}")%string
  end.

End Reference.

(** * Properties of the scripts *)

(** ** Binary64 comparisons *)
Module FloatFacts.

Lemma is_nan_spec (x : float) :
  PrimFloat.is_nan x = match SFcompare (Prim2SF x) (Prim2SF x) with
                       | Some _ => false
                       | None => true
                       end.
Proof.
  unfold PrimFloat.is_nan. rewrite eqb_spec. unfold SFeqb.
  destruct (Prim2SF x) as [s | s | | s m e]; simpl; try reflexivity.
  - destruct s; reflexivity.
  - rewrite Z.compare_refl, Pos.compare_cont_refl. destruct s; reflexivity.
Qed.

(** Away from nan, [x < y] failing means [y <= x]. *)
Lemma ltb_false_leb (x y : float) :
  PrimFloat.is_nan x = false -> PrimFloat.is_nan y = false ->
  (x <? y)%float = false -> (y <=? x)%float = true.
Proof.
  rewrite !is_nan_spec, ltb_spec, leb_spec. unfold SFltb, SFleb.
  destruct (Prim2SF x) as [sx | sx | | sx mx ex];
    destruct (Prim2SF y) as [sy | sy | | sy my ey]; simpl;
    try discriminate; try reflexivity;
    try (destruct sx; simpl; congruence);
    try (destruct sy; simpl; congruence);
    try (destruct sx, sy; simpl; congruence).
  intros _ _.
  assert (A : PosDef.Pos.compare_cont Eq my mx
               = CompOpp (PosDef.Pos.compare_cont Eq mx my))
    by (symmetry; apply (Pos.compare_cont_antisym mx my Eq)).
  rewrite (Z.compare_antisym ex ey), A.
  destruct sx, sy; simpl; try congruence;
    destruct (ex ?= ey); simpl; try congruence;
    destruct (Pos.compare_cont Eq mx my); simpl; congruence.
Qed.

End FloatFacts.

(** ** The derived fields of a stored book snapshot *)
Module BookSpec.
Import Storage.

(** What ties the derived fields of a snapshot row to its two sides. *)
Definition derived (rt : Runtime) (row : snapshot_row) : Prop :=
  (ob_best_bid row = None <-> truthy (ob_bids row) = false) /\
  (ob_best_ask row = None <-> truthy (ob_asks row) = false) /\
  (forall b, ob_best_bid row = Some b ->
     exists level pr, first (ob_bids row) = Some level /\
       getitem level "price" = Some pr /\ py_float rt pr = Some b) /\
  (forall a, ob_best_ask row = Some a ->
     exists level pr, first (ob_asks row) = Some level /\
       getitem level "price" = Some pr /\ py_float rt pr = Some a) /\
  (forall b a, ob_best_bid row = Some b -> ob_best_ask row = Some a ->
     ob_spread row =
       if ((b =? 0) || (a =? 0))%float then None else Some (a - b)%float) /\
  (ob_best_bid row = None \/ ob_best_ask row = None -> ob_spread row = None).

Lemma best_inv (rt : Runtime) (side : value) (o : option float) :
  best rt side = Some o ->
  (o = None <-> truthy side = false) /\
  (forall p, o = Some p ->
     exists level pr, first side = Some level /\
       getitem level "price" = Some pr /\ py_float rt pr = Some p).
Proof.
  unfold best. destruct (truthy side) eqn:T.
  - destruct (first side) as [level |] eqn:F; [| discriminate].
    destruct (getitem level "price") as [pr |] eqn:G; [| discriminate].
    destruct (py_float rt pr) as [p |] eqn:P; [| discriminate].
    intros [= <-]. split.
    + split; discriminate.
    + intros p' [= <-]. exists level, pr. auto.
  - intros [= <-]. split.
    + split; reflexivity.
    + discriminate.
Qed.

Lemma snapshot_params_inv (rt : Runtime) (tok : value) (ts : Z)
    (bids asks : value) (row : snapshot_row) :
  snapshot_params rt tok ts bids asks = Some row ->
  derived rt row /\ ob_token_id row = tok /\ ob_timestamp row = ts /\
  ob_bids row = bids /\ ob_asks row = asks.
Proof.
  unfold snapshot_params.
  destruct (depth rt bids) as [bd |]; [| discriminate].
  destruct (depth rt asks) as [ad |]; [| discriminate].
  destruct (best rt bids) as [bb |] eqn:Bb; [| discriminate].
  destruct (best rt asks) as [ba |] eqn:Ba; [| discriminate].
  intros [= <-]. simpl.
  destruct (best_inv _ _ _ Bb) as [Hb1 Hb2].
  destruct (best_inv _ _ _ Ba) as [Ha1 Ha2].
  split; [| auto]. unfold derived; simpl.
  split; [exact Hb1 |]. split; [exact Ha1 |].
  split; [exact Hb2 |]. split; [exact Ha2 |]. split.
  - intros b a Eb Ea. subst bb ba. unfold spread_of, truthy_opt.
    destruct (b =? 0)%float, (a =? 0)%float; reflexivity.
  - intros [E | E]; subst; [reflexivity |]. destruct bb; reflexivity.
Qed.

Lemma app_one_self {A : Type} (l : list A) (x : A) : l <> l ++ [x].
Proof.
  intros E. apply (f_equal (@List.length A)) in E.
  rewrite length_app in E. simpl in E. lia.
Qed.

(** The row a call of [store_book_snapshot] adds to the committed table is
    the one [book_row] builds. *)
Lemma collector_added_row (rt : Runtime) (self : Collector.WebSocketCollector)
    (data : value) (r : Z * Z * snapshot_row) :
  orderbook_snapshots (committed (Collector.conn (Collector.store_book_snapshot rt self data)))
  = orderbook_snapshots (committed (Collector.conn self)) ++ [r] ->
  Collector.book_row rt data = Some (snd r).
Proof.
  unfold Collector.store_book_snapshot.
  destruct (Collector.book_row rt data) as [row |]; simpl.
  - unfold insert_snapshot. destruct (snapshot_accepted (Collector.conn self) row); simpl.
    + intros E. apply app_inj_tail in E. destruct E as [_ <-]. reflexivity.
    + intros E. now apply app_one_self in E.
  - intros E. now apply app_one_self in E.
Qed.

(** The same for [store_snapshot] of the poller. *)
Lemma poller_added_row (rt : Runtime) (self : Poller.OrderbookPoller)
    (now_ms : Z) (token_id data : value) (r : Z * Z * snapshot_row) :
  orderbook_snapshots
    (committed (Poller.conn (fst (Poller.store_snapshot rt self now_ms token_id data))))
  = orderbook_snapshots (committed (Poller.conn self)) ++ [r] ->
  Poller.snapshot_row_of rt now_ms token_id data = Some (snd r).
Proof.
  unfold Poller.store_snapshot.
  destruct (Poller.snapshot_row_of rt now_ms token_id data) as [row |]; simpl.
  - unfold insert_snapshot. destruct (snapshot_accepted (Poller.conn self) row); simpl.
    + intros E. apply app_inj_tail in E. destruct E as [_ <-]. reflexivity.
    + intros E. now apply app_one_self in E.
  - intros E. now apply app_one_self in E.
Qed.

Lemma book_row_derived (rt : Runtime) (data : value) (row : snapshot_row) :
  Collector.book_row rt data = Some row -> derived rt row.
Proof.
  unfold Collector.book_row.
  destruct (get data "asset_id" PNone); [| discriminate].
  destruct (get data "timestamp" (PInt 0)) as [ts |]; [| discriminate].
  destruct (py_int rt ts); [| discriminate].
  destruct (get data "bids" (PList [])); [| discriminate].
  destruct (get data "asks" (PList [])); [| discriminate].
  intros H. now apply snapshot_params_inv in H.
Qed.

Lemma snapshot_row_of_derived (rt : Runtime) (now_ms : Z) (token_id data : value)
    (row : snapshot_row) :
  Poller.snapshot_row_of rt now_ms token_id data = Some row -> derived rt row.
Proof.
  unfold Poller.snapshot_row_of.
  destruct (get data "bids" (PList [])); [| discriminate].
  destruct (get data "asks" (PList [])); [| discriminate].
  intros H. now apply snapshot_params_inv in H.
Qed.

(** [float(level['price'])]. *)
Definition level_price (rt : Runtime) (level : value) : option float :=
  do pr <- getitem level "price"; py_float rt pr.

(** [row] is a row that [store_book_snapshot] of the collector or
    [store_snapshot] of the poller adds to the stored table, from a payload
    whose sides are [bids] and [asks]. *)
Definition stored_from (rt : Runtime) (bids asks : value) (row : snapshot_row) : Prop :=
  (exists self data id at_,
      get data "bids" (PList []) = Some bids /\
      get data "asks" (PList []) = Some asks /\
      orderbook_snapshots
        (committed (Collector.conn (Collector.store_book_snapshot rt self data)))
      = orderbook_snapshots (committed (Collector.conn self)) ++ [(id, at_, row)]) \/
  (exists self now_ms token_id data id at_,
      get data "bids" (PList []) = Some bids /\
      get data "asks" (PList []) = Some asks /\
      orderbook_snapshots
        (committed (Poller.conn
                      (fst (Poller.store_snapshot rt self now_ms token_id data))))
      = orderbook_snapshots (committed (Poller.conn self)) ++ [(id, at_, row)]).

Lemma stored_from_params (rt : Runtime) (bids asks : value) (row : snapshot_row) :
  stored_from rt bids asks row ->
  exists tok ts, snapshot_params rt tok ts bids asks = Some row.
Proof.
  intros [(self & data & id & at_ & Hb & Ha & E)
         | (self & now & tok & data & id & at_ & Hb & Ha & E)].
  - apply collector_added_row in E. simpl in E.
    unfold Collector.book_row in E. rewrite Hb, Ha in E.
    destruct (get data "asset_id" PNone) as [tok |]; [| discriminate].
    destruct (get data "timestamp" (PInt 0)) as [t |]; [| discriminate].
    destruct (py_int rt t) as [ts |]; [| discriminate].
    now exists tok, ts.
  - apply poller_added_row in E. simpl in E.
    unfold Poller.snapshot_row_of in E. rewrite Hb, Ha in E.
    now exists tok, now.
Qed.

(** The best price [o] of a side, as its payload gives it: none for an
    empty side, the converted price of the first level otherwise. *)
Definition best_of (rt : Runtime) (side : value) (o : option float) : Prop :=
  (truthy side = false /\ o = None) \/
  (exists level p, first side = Some level /\ level_price rt level = Some p /\
                   o = Some p).

(** The spread the scripts store beside two best prices. *)
Definition spread_between (best_bid best_ask : option float) : option float :=
  match best_bid, best_ask with
  | Some b, Some a => if ((b =? 0) || (a =? 0))%float then None else Some (a - b)%float
  | _, _ => None
  end.

Lemma str_chars_text (s ch : string) (rest : list string) :
  str_chars s = ch :: rest -> s <> "".
Proof. now destruct s. Qed.

Lemma first_truthy (side level : value) : first side = Some level -> truthy side = true.
Proof.
  destruct side as [| | | | s | [| x l] | kv]; try discriminate; try reflexivity.
  simpl. destruct (str_chars s) as [| ch rest] eqn:C; [discriminate |].
  intros _. apply str_chars_text in C. destruct s; [congruence | reflexivity].
Qed.

Lemma best_of_best (rt : Runtime) (side : value) (o : option float) :
  best_of rt side o -> best rt side = Some o.
Proof.
  unfold best. intros [[T ->] | (level & p & F & L & ->)].
  - now rewrite T.
  - rewrite (first_truthy _ _ F), F. unfold level_price in L.
    destruct (getitem level "price") as [pr |]; [| discriminate].
    now rewrite L.
Qed.

Lemma spread_of_between (bb ba : option float) :
  spread_of bb ba = spread_between bb ba.
Proof.
  destruct bb as [b |], ba as [a |]; try reflexivity.
  unfold spread_of, spread_between, truthy_opt.
  destruct (b =? 0)%float, (a =? 0)%float; reflexivity.
Qed.

Lemma params_of_payload (rt : Runtime) (tok : value) (ts : Z) (bids asks : value)
    (bb ba : option float) (bd ad : float) :
  best_of rt bids bb -> best_of rt asks ba ->
  depth rt bids = Some bd -> depth rt asks = Some ad ->
  snapshot_params rt tok ts bids asks
  = Some {| ob_token_id := tok; ob_timestamp := ts; ob_bids := bids; ob_asks := asks;
            ob_best_bid := bb; ob_best_ask := ba;
            ob_spread := spread_between bb ba;
            ob_bid_depth := bd; ob_ask_depth := ad |}.
Proof.
  intros Bb Ba Db Da. unfold snapshot_params.
  rewrite Db, Da, (best_of_best _ _ _ Bb), (best_of_best _ _ _ Ba), spread_of_between.
  reflexivity.
Qed.

(** A book that converts and that the database takes is stored by the
    collector: one INSERT, one commit. *)
Lemma collector_stores (rt : Runtime) (self : Collector.WebSocketCollector)
    (data : value) (row : snapshot_row) :
  Collector.book_row rt data = Some row ->
  snapshot_accepted (Collector.conn self) row = true ->
  let self' := Collector.store_book_snapshot rt self data in
  orderbook_snapshots (committed (Collector.conn self'))
  = orderbook_snapshots (working (Collector.conn self))
    ++ [(ob_seq (Collector.conn self) + 1, txn (Collector.conn self), row)] /\
  working (Collector.conn self') = committed (Collector.conn self') /\
  realtime_trades (committed (Collector.conn self'))
  = realtime_trades (working (Collector.conn self)) /\
  price_changes (committed (Collector.conn self'))
  = price_changes (working (Collector.conn self)) /\
  server (Collector.conn self') = server (Collector.conn self) /\
  ob_seq (Collector.conn self') = ob_seq (Collector.conn self) + 1 /\
  rt_seq (Collector.conn self') = rt_seq (Collector.conn self) /\
  pc_seq (Collector.conn self') = pc_seq (Collector.conn self) /\
  txn (Collector.conn self') = txn (Collector.conn self) + 1 /\
  calls (Collector.conn self')
  = calls (Collector.conn self) ++ [Execute "orderbook_snapshots"; Commit] /\
  Collector.counters self'
  = {| Collector.books := Collector.books (Collector.counters self) + 1;
       Collector.changes := Collector.changes (Collector.counters self);
       Collector.trades := Collector.trades (Collector.counters self) |}.
Proof.
  intros R F. unfold Collector.store_book_snapshot, insert_snapshot. rewrite R, F. simpl.
  rewrite <- app_assoc. repeat split.
Qed.

(** The same for the poller. *)
Lemma poller_stores (rt : Runtime) (self : Poller.OrderbookPoller) (now_ms : Z)
    (token_id data : value) (row : snapshot_row) :
  Poller.snapshot_row_of rt now_ms token_id data = Some row ->
  snapshot_accepted (Poller.conn self) row = true ->
  let r := Poller.store_snapshot rt self now_ms token_id data in
  snd r = true /\
  orderbook_snapshots (committed (Poller.conn (fst r)))
  = orderbook_snapshots (working (Poller.conn self))
    ++ [(ob_seq (Poller.conn self) + 1, txn (Poller.conn self), row)] /\
  calls (Poller.conn (fst r))
  = calls (Poller.conn self) ++ [Execute "orderbook_snapshots"; Commit] /\
  Poller.snapshots (fst r) = Poller.snapshots self + 1 /\
  Poller.errors (fst r) = Poller.errors self.
Proof.
  intros R F. unfold Poller.store_snapshot, insert_snapshot. rewrite R, F. simpl.
  rewrite <- app_assoc. repeat split.
Qed.

(** C9. Either script stores a payload whose levels convert and whose row
    the database takes: as one row that keeps the two sides, whose best bid
    (best ask) is None for an empty side and the converted price of the
    first level otherwise, and whose spread is None as soon as a best price
    is missing or zero, and best ask minus best bid otherwise.  And whatever
    row either script stores from a payload has these fields: its best bid
    (best ask) is None exactly when the bid (ask) side is empty, and with
    two first levels whose prices convert the stored spread is None as soon
    as one of the two is zero. *)
Theorem zero_best_price_stores_no_spread (rt : Runtime) (bids asks : value) :
  (forall bb ba bd ad,
      best_of rt bids bb -> best_of rt asks ba ->
      depth rt bids = Some bd -> depth rt asks = Some ad ->
      let row tok ts :=
        {| ob_token_id := tok; ob_timestamp := ts; ob_bids := bids; ob_asks := asks;
           ob_best_bid := bb; ob_best_ask := ba;
           ob_spread := spread_between bb ba;
           ob_bid_depth := bd; ob_ask_depth := ad |} in
      (forall self data tok t ts,
          get data "bids" (PList []) = Some bids ->
          get data "asks" (PList []) = Some asks ->
          get data "asset_id" PNone = Some tok ->
          get data "timestamp" (PInt 0) = Some t -> py_int rt t = Some ts ->
          snapshot_accepted (Collector.conn self) (row tok ts) = true ->
          let self' := Collector.store_book_snapshot rt self data in
          orderbook_snapshots (committed (Collector.conn self'))
          = orderbook_snapshots (working (Collector.conn self))
            ++ [(ob_seq (Collector.conn self) + 1, txn (Collector.conn self),
                 row tok ts)] /\
          calls (Collector.conn self')
          = calls (Collector.conn self) ++ [Execute "orderbook_snapshots"; Commit] /\
          Collector.books (Collector.counters self')
          = Collector.books (Collector.counters self) + 1) /\
      (forall self now_ms tok data,
          get data "bids" (PList []) = Some bids ->
          get data "asks" (PList []) = Some asks ->
          snapshot_accepted (Poller.conn self) (row tok now_ms) = true ->
          let r := Poller.store_snapshot rt self now_ms tok data in
          snd r = true /\
          orderbook_snapshots (committed (Poller.conn (fst r)))
          = orderbook_snapshots (working (Poller.conn self))
            ++ [(ob_seq (Poller.conn self) + 1, txn (Poller.conn self),
                 row tok now_ms)] /\
          calls (Poller.conn (fst r))
          = calls (Poller.conn self) ++ [Execute "orderbook_snapshots"; Commit] /\
          Poller.snapshots (fst r) = Poller.snapshots self + 1)) /\
  (forall row,
      stored_from rt bids asks row ->
      ob_bids row = bids /\ ob_asks row = asks /\
      (ob_best_bid row = None <-> truthy bids = false) /\
      (ob_best_ask row = None <-> truthy asks = false) /\
      (forall lb la pb pa,
          first bids = Some lb -> first asks = Some la ->
          level_price rt lb = Some pb -> level_price rt la = Some pa ->
          ob_best_bid row = Some pb /\ ob_best_ask row = Some pa /\
          ((pb =? 0)%float = true \/ (pa =? 0)%float = true -> ob_spread row = None) /\
          ((pb =? 0)%float = false -> (pa =? 0)%float = false ->
           ob_spread row = Some (pa - pb)%float))).
Proof.
  split.
  - intros bb ba bd ad Bb Ba Db Da row. split.
    + intros self data tok t ts Hb Ha Ht Hs Hi F self'.
      assert (R : Collector.book_row rt data = Some (row tok ts)).
      { unfold Collector.book_row. rewrite Ht, Hs, Hi, Hb, Ha.
        now apply params_of_payload. }
      destruct (collector_stores rt self data _ R F)
        as (E & _ & _ & _ & _ & _ & _ & _ & _ & C & K).
      subst self'. split; [exact E |]. split; [exact C |]. now rewrite K.
    + intros self now_ms tok data Hb Ha F r.
      assert (R : Poller.snapshot_row_of rt now_ms tok data = Some (row tok now_ms)).
      { unfold Poller.snapshot_row_of. rewrite Hb, Ha. now apply params_of_payload. }
      destruct (poller_stores rt self now_ms tok data _ R F) as (O & E & C & N & _).
      auto.
  - intros row H. destruct (stored_from_params _ _ _ _ H) as (tok & ts & P).
    destruct (snapshot_params_inv _ _ _ _ _ _ P)
      as ((Hb & Ha & Fb & Fa & Sp & _) & _ & _ & Eb & Ea).
    rewrite Eb in Hb, Fb. rewrite Ea in Ha, Fa.
    split; [exact Eb |]. split; [exact Ea |].
    split; [exact Hb |]. split; [exact Ha |].
    intros lb la pb pa Lb La Pb Pa.
    assert (Bb : ob_best_bid row = Some pb).
    { destruct (ob_best_bid row) as [b |] eqn:B.
      - destruct (Fb b eq_refl) as (l & pr & F1 & G1 & P1).
        unfold level_price in Pb. rewrite Lb in F1. injection F1 as <-.
        rewrite G1 in Pb. congruence.
      - destruct Hb as [Hb _]. specialize (Hb eq_refl).
        rewrite (first_truthy _ _ Lb) in Hb. discriminate. }
    assert (Ba : ob_best_ask row = Some pa).
    { destruct (ob_best_ask row) as [a |] eqn:A.
      - destruct (Fa a eq_refl) as (l & pr & F1 & G1 & P1).
        unfold level_price in Pa. rewrite La in F1. injection F1 as <-.
        rewrite G1 in Pa. congruence.
      - destruct Ha as [Ha _]. specialize (Ha eq_refl).
        rewrite (first_truthy _ _ La) in Ha. discriminate. }
    split; [exact Bb |]. split; [exact Ba |]. split.
    + intros Z. rewrite (Sp pb pa Bb Ba).
      destruct Z as [-> | ->]; [reflexivity | now rewrite orb_true_r].
    + intros Zb Za. rewrite (Sp pb pa Bb Ba), Zb, Za. reflexivity.
Qed.

(** A book whose best bid is quoted at 0.0, as the push feed carries it. *)
Definition zero_bid_book : value :=
  PDict [("event_type", PStr "book"); ("asset_id", PStr "tokA");
         ("timestamp", PStr "1700000000000");
         ("bids", PList [PDict [("price", PStr "0.0"); ("size", PStr "10")]]);
         ("asks", PList [PDict [("price", PStr "0.55"); ("size", PStr "5")]])].

Definition zero_bid_row : snapshot_row :=
  {| ob_token_id := PStr "tokA"; ob_timestamp := 1700000000000;
     ob_bids := PList [PDict [("price", PStr "0.0"); ("size", PStr "10")]];
     ob_asks := PList [PDict [("price", PStr "0.55"); ("size", PStr "5")]];
     ob_best_bid := Some 0%float; ob_best_ask := Some 0.55%float;
     ob_spread := None;
     ob_bid_depth := 0%float; ob_ask_depth := 2.75%float |}.

(** The collector stores the book with its best bid 0.0 and no spread. *)
Lemma zero_best_price_stores_no_spread_witness :
  best_of Reference.runtime (ob_bids zero_bid_row) (Some 0%float) /\
  best_of Reference.runtime (ob_asks zero_bid_row) (Some 0.55%float) /\
  snapshot_accepted (Collector.conn Collector.fresh) zero_bid_row = true /\
  orderbook_snapshots
    (committed (Collector.conn
                  (Collector.store_book_snapshot Reference.runtime Collector.fresh
                     zero_bid_book)))
  = [] ++ [(0 + 1, 0, zero_bid_row)].
Proof.
  assert (Bb : best_of Reference.runtime (ob_bids zero_bid_row) (Some 0%float)).
  { right. exists (PDict [("price", PStr "0.0"); ("size", PStr "10")]), 0%float.
    repeat split; reflexivity. }
  assert (Ba : best_of Reference.runtime (ob_asks zero_bid_row) (Some 0.55%float)).
  { right. exists (PDict [("price", PStr "0.55"); ("size", PStr "5")]), 0.55%float.
    repeat split; vm_compute; reflexivity. }
  split; [exact Bb |]. split; [exact Ba |]. split; [reflexivity |].
  refine (proj1 (proj1 (proj1 (zero_best_price_stores_no_spread Reference.runtime
                           (ob_bids zero_bid_row) (ob_asks zero_bid_row))
                    (Some 0%float) (Some 0.55%float) 0%float 2.75%float Bb Ba _ _)
            Collector.fresh zero_bid_book (PStr "tokA") (PStr "1700000000000")
            1700000000000 eq_refl eq_refl eq_refl eq_refl _ eq_refl)).
  - vm_compute. reflexivity.
  - vm_compute. reflexivity.
  - vm_compute. reflexivity.
Defined.

(** The row stored for that book is a row stored from its two sides. *)
Example zero_bid_row_stored :
  stored_from Reference.runtime (ob_bids zero_bid_row) (ob_asks zero_bid_row)
    zero_bid_row.
Proof.
  left. exists Collector.fresh, zero_bid_book, 1, 0.
  repeat split; vm_compute; reflexivity.
Qed.

End BookSpec.

(** ** The stream collector *)
Module CollectorSpec.
Import Storage Collector.

(** *** What a store that succeeds leaves *)

(** Which rows a connection takes depends on its server only. *)
Lemma trade_accepted_server (c c' : connection) (r : trade_row) :
  server c' = server c -> trade_accepted c' r = trade_accepted c r.
Proof. intros E. unfold trade_accepted. now rewrite E. Qed.

Lemma change_accepted_server (c c' : connection) (r : change_row) :
  server c' = server c -> change_accepted c' r = change_accepted c r.
Proof. intros E. unfold change_accepted. now rewrite E. Qed.

Lemma snapshot_accepted_server (c c' : connection) (r : snapshot_row) :
  server c' = server c -> snapshot_accepted c' r = snapshot_accepted c r.
Proof. intros E. unfold snapshot_accepted. now rewrite E. Qed.

Lemma store_trade_ok (rt : Runtime) (self : WebSocketCollector)
    (data : value) (row : trade_row) :
  trade_row_of rt data = Some row -> trade_accepted (conn self) row = true ->
  let self' := store_trade rt self data in
  realtime_trades (committed (conn self'))
  = realtime_trades (working (conn self)) ++ [(rt_seq (conn self) + 1, row)] /\
  working (conn self') = committed (conn self') /\
  orderbook_snapshots (committed (conn self'))
  = orderbook_snapshots (working (conn self)) /\
  price_changes (committed (conn self')) = price_changes (working (conn self)) /\
  server (conn self') = server (conn self) /\
  ob_seq (conn self') = ob_seq (conn self) /\
  rt_seq (conn self') = rt_seq (conn self) + 1 /\
  pc_seq (conn self') = pc_seq (conn self) /\
  txn (conn self') = txn (conn self) + 1 /\
  calls (conn self') = calls (conn self) ++ [Execute "realtime_trades"; Commit] /\
  counters self'
  = {| books := books (counters self); changes := changes (counters self);
       trades := trades (counters self) + 1 |}.
Proof.
  intros R F. unfold store_trade, insert_trade. rewrite R, F. simpl.
  rewrite <- app_assoc. repeat split.
Qed.

(** *** The pages of [execute_values] *)

Lemma number_app {A : Type} (a b : list A) :
  forall s, number s (a ++ b) = number s a ++ number (s + Z.of_nat (List.length a)) b.
Proof.
  induction a as [| x a IH]; intros s; simpl.
  - now rewrite Z.add_0_r.
  - rewrite IH. do 3 f_equal. lia.
Qed.

Lemma number_length {A : Type} (rows : list A) :
  forall s, List.length (number s rows) = List.length rows.
Proof. induction rows; simpl; intros s; [| rewrite IHrows]; reflexivity. Qed.

(** The pages, put end to end, are the rows. *)
Lemma paginate_concat {A : Type} (rows : list A) :
  forall page room, List.concat (paginate page room rows) = page ++ rows.
Proof.
  induction rows as [| x rows IH]; intros page room; simpl.
  - destruct page; simpl; now rewrite ?app_nil_r.
  - destruct room as [| room]; simpl; rewrite IH; [reflexivity |].
    now rewrite <- app_assoc.
Qed.

(** No page is empty, and none has more than 100 rows. *)
Lemma paginate_sizes {A : Type} (rows : list A) :
  forall page room,
    (List.length page + room = PAGE_SIZE)%nat ->
    Forall (fun p => (1 <= List.length p <= PAGE_SIZE)%nat) (paginate page room rows).
Proof.
  induction rows as [| x rows IH]; intros page room E; simpl.
  - destruct page as [| y page]; constructor; [| constructor].
    simpl in *. lia.
  - destruct room as [| room].
    + constructor.
      * rewrite Nat.add_0_r in E. rewrite E. unfold PAGE_SIZE. lia.
      * apply IH. reflexivity.
    + apply IH. rewrite length_app. simpl. lia.
Qed.

(** At most 100 rows make one page. *)
Lemma paginate_one_page {A : Type} (rows : list A) :
  forall page room,
    (List.length rows <= room)%nat -> page ++ rows <> [] ->
    paginate page room rows = [page ++ rows].
Proof.
  induction rows as [| x rows IH]; intros page room L N; simpl.
  - rewrite app_nil_r in *. destruct page; [congruence | reflexivity].
  - destruct room as [| room]; [simpl in L; lia |].
    rewrite IH; [now rewrite <- app_assoc | simpl in L; lia |].
    rewrite <- app_assoc. simpl. now destruct page.
Qed.

(** The connection after the statements of [rows] were executed. *)
Definition with_changes (c : connection) (rows : list change_row) : connection :=
  {| server := server c; committed := committed c;
     working := {| orderbook_snapshots := orderbook_snapshots (working c);
                   realtime_trades := realtime_trades (working c);
                   price_changes :=
                     price_changes (working c) ++ number (pc_seq c) rows |};
     ob_seq := ob_seq c; rt_seq := rt_seq c;
     pc_seq := pc_seq c + Z.of_nat (List.length rows);
     txn := txn c; calls := calls c |}.

Lemma with_changes_nil (c : connection) : with_changes c [] = c.
Proof.
  destruct c as [sv cm [ob rt pc] s1 s2 s3 tx cs]. unfold with_changes. simpl.
  now rewrite app_nil_r, Z.add_0_r.
Qed.

Lemma with_changes_app (c : connection) (a b : list change_row) :
  with_changes (with_changes c a) b = with_changes c (a ++ b).
Proof.
  unfold with_changes. simpl.
  now rewrite number_app, length_app, Nat2Z.inj_add, <- app_assoc, Z.add_assoc.
Qed.

Lemma forallb_same {A : Type} (f g : A -> bool) (l : list A) :
  (forall x, f x = g x) -> forallb f l = forallb g l.
Proof. intros E. induction l as [| x l IH]; simpl; [| rewrite E, IH]; reflexivity. Qed.

(** The pages before the first one that is refused are executed; [done] is
    what they hold. *)
Lemma insert_pages_result (pages : list (list change_row)) :
  forall c,
    exists done,
      fst (insert_pages c pages) = with_changes c done /\
      (exists before rest, pages = before ++ rest /\ done = List.concat before /\
         (snd (insert_pages c pages) = true -> rest = [])) /\
      (Forall (fun p => forallb (change_accepted c) p = true) pages ->
       done = List.concat pages /\ snd (insert_pages c pages) = true) /\
      (Exists (fun p => forallb (change_accepted c) p = false) pages ->
       snd (insert_pages c pages) = false).
Proof.
  induction pages as [| page pages IH]; intros c.
  - exists []. simpl. rewrite with_changes_nil. split; [reflexivity |].
    split; [exists [], []; auto |]. split; [auto |]. intros E. inversion E.
  - cbn [insert_pages]. unfold insert_page.
    destruct (forallb (change_accepted c) page) eqn:F.
    + fold (with_changes c page).
      destruct (IH (with_changes c page)) as (done & E & (before & rest & P & D & R) & A & X).
      exists (page ++ done). rewrite E, with_changes_app. split; [reflexivity |].
      split; [| split].
      * exists (page :: before), rest. simpl.
        split; [now rewrite P |]. split; [now rewrite D | exact R].
      * intros H. apply Forall_cons_iff in H. destruct H as [_ H'].
        assert (H2 : Forall (fun p => forallb (change_accepted (with_changes c page)) p
                                      = true) pages).
        { eapply Forall_impl; [| exact H']. intros p Hp. rewrite <- Hp.
          apply forallb_same. intros r. now apply change_accepted_server. }
        destruct (A H2) as [-> O]. auto.
      * intros H. apply X. apply Exists_cons in H. destruct H as [H' | H']; [congruence |].
        eapply Exists_impl; [| exact H']. intros p Hp. rewrite <- Hp.
        apply forallb_same. intros r. now apply change_accepted_server.
    + exists []. simpl. rewrite with_changes_nil. split; [reflexivity |].
      split; [exists [], (page :: pages); repeat split; discriminate |].
      split; [| reflexivity]. intros H. apply Forall_cons_iff in H. destruct H. congruence.
Qed.

Lemma insert_pages_calls (pages : list (list change_row)) :
  forall c, calls (fst (insert_pages c pages)) = calls c /\
            server (fst (insert_pages c pages)) = server c /\
            committed (fst (insert_pages c pages)) = committed c /\
            txn (fst (insert_pages c pages)) = txn c.
Proof.
  intros c. destruct (insert_pages_result pages c) as (done & -> & _). auto.
Qed.

(** When every row is taken, [execute_values] inserts them all, numbered
    on from the serial of the table. *)
Lemma insert_changes_all (c : connection) (rows : list change_row) :
  forallb (change_accepted c) rows = true ->
  insert_changes c rows
  = (with_changes (logged c (ExecuteValues "price_changes" (List.length rows))) rows,
     true).
Proof.
  intros F. unfold insert_changes.
  set (c0 := logged c (ExecuteValues "price_changes" (List.length rows))).
  destruct (insert_pages_result (paginate [] PAGE_SIZE rows) c0)
    as (done & E & _ & A & _).
  assert (P : Forall (fun p => forallb (change_accepted c0) p = true)
                (paginate [] PAGE_SIZE rows)).
  { rewrite Forall_forall. intros p I. apply forallb_forall. intros r Ir.
    assert (J : In r (List.concat (paginate [] PAGE_SIZE rows)))
      by (apply in_concat; eauto).
    rewrite paginate_concat in J. simpl in J.
    rewrite forallb_forall in F. now apply F. }
  destruct (A P) as [D O].
  rewrite paginate_concat in D. simpl in D. subst done.
  destruct (insert_pages c0 (paginate [] PAGE_SIZE rows)) as [c1 ok].
  simpl in *. now subst.
Qed.

(** When a row is refused, [execute_values] raises. *)
Lemma insert_changes_refused (c : connection) (rows : list change_row) :
  forallb (change_accepted c) rows = false ->
  snd (insert_changes c rows) = false.
Proof.
  intros F. unfold insert_changes.
  set (c0 := logged c (ExecuteValues "price_changes" (List.length rows))).
  destruct (insert_pages_result (paginate [] PAGE_SIZE rows) c0)
    as (done & _ & _ & _ & X).
  apply X. apply Exists_exists.
  assert (R : exists r, In r rows /\ change_accepted c r = false).
  { clear - F. induction rows as [| r rows IH]; [discriminate |].
    simpl in F. destruct (change_accepted c r) eqn:A.
    - destruct (IH F) as (r' & I & H). exists r'. split; [now right | exact H].
    - exists r. split; [now left | exact A]. }
  destruct R as (r & I & H).
  assert (J : In r (List.concat (paginate [] PAGE_SIZE rows)))
    by (rewrite paginate_concat; exact I).
  apply in_concat in J. destruct J as (p & Ip & Ir).
  exists p. split; [exact Ip |].
  destruct (forallb (change_accepted c0) p) eqn:Fp; [| reflexivity].
  rewrite forallb_forall in Fp. specialize (Fp r Ir).
  unfold c0 in Fp. rewrite (change_accepted_server c) in Fp by reflexivity. congruence.
Qed.

Lemma store_price_change_ok (rt : Runtime) (self : WebSocketCollector)
    (data : value) (rows : list change_row) :
  change_values rt data = Some rows -> rows <> [] ->
  forallb (change_accepted (conn self)) rows = true ->
  let self' := store_price_change rt self data in
  price_changes (committed (conn self'))
  = price_changes (working (conn self)) ++ number (pc_seq (conn self)) rows /\
  working (conn self') = committed (conn self') /\
  orderbook_snapshots (committed (conn self'))
  = orderbook_snapshots (working (conn self)) /\
  realtime_trades (committed (conn self')) = realtime_trades (working (conn self)) /\
  server (conn self') = server (conn self) /\
  pc_seq (conn self') = pc_seq (conn self) + Z.of_nat (List.length rows) /\
  calls (conn self')
  = calls (conn self) ++ [ExecuteValues "price_changes" (List.length rows); Commit] /\
  counters self'
  = {| books := books (counters self);
       changes := changes (counters self) + Z.of_nat (List.length rows);
       trades := trades (counters self) |}.
Proof.
  intros V N F. unfold store_price_change. rewrite V.
  destruct rows as [| r rows']; [congruence |].
  rewrite (insert_changes_all _ _ F). cbn [fst snd]. simpl.
  rewrite <- app_assoc. repeat split.
Qed.

(** A price change of which a row is refused: the call of [execute_values]
    is followed by a rollback, and nothing of the event stays. *)
Lemma store_price_change_refused (rt : Runtime) (self : WebSocketCollector)
    (data : value) (rows : list change_row) :
  change_values rt data = Some rows -> rows <> [] ->
  forallb (change_accepted (conn self)) rows = false ->
  let self' := store_price_change rt self data in
  committed (conn self') = committed (conn self) /\
  working (conn self') = committed (conn self') /\
  counters self' = counters self /\
  calls (conn self')
  = calls (conn self) ++ [ExecuteValues "price_changes" (List.length rows); Rollback].
Proof.
  intros V N F. unfold store_price_change. rewrite V.
  destruct rows as [| r rows']; [congruence |].
  pose proof (insert_changes_refused _ _ F) as R.
  destruct (insert_changes (conn self) (r :: rows')) as [c ok] eqn:I.
  simpl in R. subst ok.
  assert (C : c = fst (insert_changes (conn self) (r :: rows'))) by now rewrite I.
  unfold insert_changes in C.
  destruct (insert_pages_calls (paginate [] PAGE_SIZE (r :: rows'))
              (logged (conn self)
                 (ExecuteValues "price_changes" (List.length (r :: rows')))))
    as (Cc & _ & Cm & _).
  rewrite <- C in Cc, Cm. simpl. rewrite Cc, Cm. simpl.
  rewrite <- app_assoc. repeat split.
Qed.

(** *** Storing the same event twice *)

(** C1, as the code has it.  The tables of the collector carry a serial
    primary key and a plain index on (token_id, timestamp), and the INSERTs
    carry no conflict clause: a snapshot or a trade that converts and that
    the database takes is stored again when it comes again.  The two stored
    rows agree in every column the INSERT gives; they differ in their serial
    ids, which follow each other, and the two snapshot rows in [captured_at]
    too, which the server sets for each in the transaction of its own
    INSERT. *)
Theorem same_event_twice_is_stored_twice (rt : Runtime) (self : WebSocketCollector)
    (data : value) :
  (forall row, book_row rt data = Some row ->
     snapshot_accepted (conn self) row = true ->
     orderbook_snapshots
       (committed (conn (store_book_snapshot rt (store_book_snapshot rt self data) data)))
     = orderbook_snapshots (working (conn self))
       ++ [(ob_seq (conn self) + 1, txn (conn self), row);
           (ob_seq (conn self) + 2, txn (conn self) + 1, row)]) /\
  (forall row, trade_row_of rt data = Some row ->
     trade_accepted (conn self) row = true ->
     realtime_trades
       (committed (conn (store_trade rt (store_trade rt self data) data)))
     = realtime_trades (working (conn self))
       ++ [(rt_seq (conn self) + 1, row); (rt_seq (conn self) + 2, row)]).
Proof.
  split; intros row R F.
  - destruct (BookSpec.collector_stores rt self data row R F)
      as (E1 & W1 & _ & _ & V1 & S1 & _ & _ & T1 & _).
    destruct (BookSpec.collector_stores rt (store_book_snapshot rt self data) data row R)
      as (E2 & _); [now rewrite (snapshot_accepted_server _ _ _ V1) |].
    rewrite E2, W1, E1, S1, T1, <- app_assoc, <- Z.add_assoc. reflexivity.
  - destruct (store_trade_ok rt self data row R F)
      as (E1 & W1 & _ & _ & V1 & _ & S1 & _).
    destruct (store_trade_ok rt (store_trade rt self data) data row R)
      as (E2 & _); [now rewrite (trade_accepted_server _ _ _ V1) |].
    rewrite E2, W1, E1, S1, <- app_assoc, <- Z.add_assoc. reflexivity.
Qed.

(** A last-trade event as the push feed carries it. *)
Definition sample_trade : value :=
  PDict [("event_type", PStr "last_trade_price"); ("asset_id", PStr "tokA");
         ("timestamp", PStr "1700000000000"); ("price", PStr "0.45");
         ("size", PStr "100"); ("side", PStr "BUY"); ("fee_rate_bps", PStr "0")].

Definition sample_trade_row : trade_row :=
  {| rt_token_id := PStr "tokA"; rt_timestamp := 1700000000000;
     rt_price := 0.45%float; rt_size := 100%float;
     rt_side := PStr "BUY"; rt_fee_rate_bps := PStr "0" |}.

(** A book event as the push feed carries it. *)
Definition sample_book : value :=
  PDict [("event_type", PStr "book"); ("asset_id", PStr "tokA");
         ("timestamp", PStr "1700000000000");
         ("bids", PList [PDict [("price", PStr "0.45"); ("size", PStr "100")]]);
         ("asks", PList [PDict [("price", PStr "0.55"); ("size", PStr "50")]])].

Definition sample_book_row : snapshot_row :=
  {| ob_token_id := PStr "tokA"; ob_timestamp := 1700000000000;
     ob_bids := PList [PDict [("price", PStr "0.45"); ("size", PStr "100")]];
     ob_asks := PList [PDict [("price", PStr "0.55"); ("size", PStr "50")]];
     ob_best_bid := Some 0.45%float; ob_best_ask := Some 0.55%float;
     ob_spread := Some (0.55 - 0.45)%float;
     ob_bid_depth := 45%float; ob_ask_depth := 27.500000000000004%float |}.

Lemma same_event_twice_is_stored_twice_witness :
  book_row Reference.runtime sample_book = Some sample_book_row /\
  snapshot_accepted (conn fresh) sample_book_row = true /\
  orderbook_snapshots
    (committed (conn (store_book_snapshot Reference.runtime
                        (store_book_snapshot Reference.runtime fresh sample_book)
                        sample_book)))
  = [] ++ [(0 + 1, 0, sample_book_row); (0 + 2, 0 + 1, sample_book_row)].
Proof.
  assert (R : book_row Reference.runtime sample_book = Some sample_book_row)
    by (vm_compute; reflexivity).
  assert (F : snapshot_accepted (conn fresh) sample_book_row = true) by reflexivity.
  split; [exact R |]. split; [exact F |].
  exact (proj1 (same_event_twice_is_stored_twice Reference.runtime fresh sample_book)
               sample_book_row R F).
Defined.

(** The same (token, timestamp) snapshot, and the same trade, stored twice:
    two rows each, not one. *)
Lemma duplicate_rows_are_kept :
  let twice_book :=
    store_book_snapshot Reference.runtime
      (store_book_snapshot Reference.runtime fresh sample_book) sample_book in
  let twice_trade :=
    store_trade Reference.runtime
      (store_trade Reference.runtime fresh sample_trade) sample_trade in
  List.length (orderbook_snapshots (committed (conn twice_book))) = 2%nat /\
  List.length (realtime_trades (committed (conn twice_trade))) = 2%nat /\
  map (fun r => (ob_token_id (snd r), ob_timestamp (snd r)))
      (orderbook_snapshots (committed (conn twice_book)))
  = [(PStr "tokA", 1700000000000); (PStr "tokA", 1700000000000)] /\
  map (fun r => (rt_token_id (snd r), rt_timestamp (snd r)))
      (realtime_trades (committed (conn twice_trade)))
  = [(PStr "tokA", 1700000000000); (PStr "tokA", 1700000000000)] /\
  ~ List.length (orderbook_snapshots (committed (conn twice_book))) = 1%nat /\
  ~ List.length (realtime_trades (committed (conn twice_trade))) = 1%nat.
Proof.
  vm_compute. repeat split; try reflexivity; discriminate.
Qed.

(** *** The reconnect delay *)

(** The sleeps of [run_loop], which do not depend on the messages. *)
Fixpoint delays (reconnect_delay : Z) (attempts : list attempt) : list Z :=
  match attempts with
  | [] => []
  | a :: attempts' =>
      let d := match a with ConnectFails => reconnect_delay | Session _ => 1 end in
      d :: delays (Z.min (d * 2) 60) attempts'
  end.

Lemma run_loop_sleeps (rt : Runtime) (attempts : list attempt) :
  forall self d acc,
    snd (run_loop rt self d attempts acc) = acc ++ delays d attempts.
Proof.
  induction attempts as [| a attempts IH]; intros self d acc; simpl.
  - now rewrite app_nil_r.
  - destruct a; rewrite IH, <- app_assoc; reflexivity.
Qed.

Lemma delays_app (pre rest : list attempt) :
  forall d, exists d',
    delays d (pre ++ rest) = delays d pre ++ delays d' rest /\
    List.length (delays d pre) = List.length pre.
Proof.
  induction pre as [| a pre IH]; intros d; simpl.
  - now exists d.
  - destruct (IH (Z.min ((match a with ConnectFails => d | Session _ => 1 end) * 2) 60))
      as (d' & E & L).
    exists d'. rewrite E, L. auto.
Qed.

(** After [k] failures in a row starting with delay [d], the next sleep. *)
Lemma delays_failures (k : nat) :
  forall d rest, 1 <= d <= 60 ->
    nth_error (delays d (repeat ConnectFails (S k) ++ rest)) k
    = Some (Z.min (d * 2 ^ Z.of_nat k) 60).
Proof.
  induction k as [| k IH]; intros d rest Hd.
  - simpl. f_equal. lia.
  - change (repeat ConnectFails (S (S k)) ++ rest)
      with (ConnectFails :: (repeat ConnectFails (S k) ++ rest)).
    cbn [delays nth_error]. rewrite IH by lia. f_equal.
    rewrite Nat2Z.inj_succ, Z.pow_succ_r by lia.
    assert (P : 1 <= 2 ^ Z.of_nat k) by (apply Z.pow_le_mono_r with (b := 0); lia).
    destruct (Z.le_gt_cases (d * 2) 60).
    + rewrite (Z.min_l (d * 2) 60) by lia. f_equal. lia.
    + rewrite (Z.min_r (d * 2) 60) by lia.
      rewrite !Z.min_r; nia.
Qed.

(** C3, as the code has it.  The delay starts at 1s, is slept and then
    doubled up to 60s after every attempt that ends, and a successful connect
    sets it back to 1s before it is slept.  So after N >= 1 connect failures
    from the start the wait before attempt N+1 is min(2^(N-1), 60) seconds;
    the wait after a session that connected is 1s, and after N failures that
    follow such a session it is min(2^N, 60) seconds. *)
Theorem reconnect_delay_law (rt : Runtime) (self : WebSocketCollector) (N : nat)
    (pre rest : list attempt) (messages : list string) :
  (1 <= N)%nat ->
  nth_error (snd (run rt self (repeat ConnectFails N ++ rest))) (N - 1)
  = Some (Z.min (1 * 2 ^ (Z.of_nat N - 1)) 60) /\
  nth_error (snd (run rt self (pre ++ [Session messages] ++ rest))) (List.length pre)
  = Some 1 /\
  nth_error (snd (run rt self (pre ++ [Session messages]
                                 ++ repeat ConnectFails N ++ rest)))
            (List.length pre + N)
  = Some (Z.min (1 * 2 ^ Z.of_nat N) 60).
Proof.
  intros HN. unfold run. rewrite !run_loop_sleeps. cbn [app].
  split; [| split].
  - destruct N as [| k]; [lia |].
    replace (S k - 1)%nat with k by lia.
    rewrite delays_failures by lia.
    replace (Z.of_nat (S k) - 1) with (Z.of_nat k) by lia. reflexivity.
  - destruct (delays_app pre (Session messages :: rest) 1) as (d' & E & L).
    rewrite E, nth_error_app2 by lia. rewrite L, Nat.sub_diag. reflexivity.
  - destruct (delays_app pre (Session messages :: repeat ConnectFails N ++ rest) 1)
      as (d' & E & L).
    rewrite E, nth_error_app2 by lia. rewrite L.
    replace (List.length pre + N - List.length pre)%nat with N by lia.
    destruct N as [| k]; [lia |].
    cbn [app delays nth_error]. rewrite delays_failures by lia.
    f_equal. rewrite Nat2Z.inj_succ, Z.pow_succ_r by lia.
    change (Z.min (1 * 2) 60) with 2. f_equal. lia.
Qed.

Lemma reconnect_delay_law_witness :
  (1 <= 3)%nat /\
  nth_error (snd (run Reference.runtime fresh (repeat ConnectFails 3 ++ []))) (3 - 1)
  = Some (Z.min (1 * 2 ^ (Z.of_nat 3 - 1)) 60).
Proof.
  split; [lia |].
  exact (proj1 (reconnect_delay_law Reference.runtime fresh 3 [] [] []
                  (le_S _ _ (le_S _ _ (le_n 1))))).
Defined.

(** One failed connect at the start: the wait before the second attempt is
    1s, where min(1s * 2^1, 60s) is 2s. *)
Lemma first_retry_waits_one_second :
  snd (run Reference.runtime fresh [ConnectFails; ConnectFails; ConnectFails])
  = [1; 2; 4] /\
  nth_error (snd (run Reference.runtime fresh (repeat ConnectFails 1))) 0
  <> Some (Z.min (1 * 2 ^ 1) 60).
Proof.
  split; [reflexivity | vm_compute; discriminate].
Qed.

(** *** Dispatch of a push message *)

(** The event is a dict whose [event_type] is the text [s]. *)
Definition event_type_is (data : value) (s : string) : Prop :=
  exists kv, data = PDict kv /\ lookup "event_type" kv = Some (PStr s).

(** The event is a dict whose [event_type] is one of the three handled. *)
Definition recognized (data : value) : bool :=
  match data with
  | PDict kv =>
      match lookup "event_type" kv with
      | Some (PStr s) =>
          (s =? "book")%string || (s =? "last_trade_price")%string
          || (s =? "price_change")%string
      | _ => false
      end
  | _ => false
  end.

Lemma unrecognized_dropped (rt : Runtime) (self : WebSocketCollector) (data : value) :
  recognized data = false -> _process_event rt self data = self.
Proof.
  destruct data as [| | | | | | kv]; try reflexivity. simpl.
  destruct (lookup "event_type" kv) as [[| | | | s | |] |]; try reflexivity.
  simpl. intros H. apply orb_false_elim in H. destruct H as [H H3].
  apply orb_false_elim in H. destruct H as [H1 H2].
  now rewrite H1, H2, H3.
Qed.

Lemma process_book (rt : Runtime) (self : WebSocketCollector) (data : value) :
  event_type_is data "book" ->
  _process_event rt self data = store_book_snapshot rt self data.
Proof. intros (kv & -> & E). simpl. now rewrite E. Qed.

Lemma process_trade (rt : Runtime) (self : WebSocketCollector) (data : value) :
  event_type_is data "last_trade_price" ->
  _process_event rt self data = store_trade rt self data.
Proof. intros (kv & -> & E). simpl. now rewrite E. Qed.

Lemma process_change (rt : Runtime) (self : WebSocketCollector) (data : value) :
  event_type_is data "price_change" ->
  _process_event rt self data = store_price_change rt self data.
Proof. intros (kv & -> & E). simpl. now rewrite E. Qed.

Lemma fold_skips_unrecognized (rt : Runtime) (items : list value) :
  forall self,
    fold_left (_process_event rt) items self
    = fold_left (_process_event rt) (filter recognized items) self.
Proof.
  induction items as [| x items IH]; intros self; [reflexivity |].
  simpl. destruct (recognized x) eqn:R; simpl.
  - apply IH.
  - rewrite unrecognized_dropped by exact R. apply IH.
Qed.

(** The calls each handler can make on the connection: at most one
    statement, on the table of its kind, then a commit, or a rollback. *)
Definition book_calls : list (list call) :=
  [[Rollback]; [Execute "orderbook_snapshots"; Commit];
   [Execute "orderbook_snapshots"; Rollback]].

Definition trade_calls : list (list call) :=
  [[Rollback]; [Execute "realtime_trades"; Commit];
   [Execute "realtime_trades"; Rollback]].

Definition change_calls (n : nat) : list (list call) :=
  [[]; [Rollback]; [ExecuteValues "price_changes" n; Commit];
   [ExecuteValues "price_changes" n; Rollback]].

Lemma store_book_snapshot_calls (rt : Runtime) (s : WebSocketCollector) (data : value) :
  exists cs, calls (conn (store_book_snapshot rt s data)) = calls (conn s) ++ cs /\
             In cs book_calls.
Proof.
  unfold store_book_snapshot, book_calls.
  destruct (book_row rt data) as [row |].
  - unfold insert_snapshot. destruct (snapshot_accepted (conn s) row); simpl.
    + exists [Execute "orderbook_snapshots"; Commit].
      rewrite <- app_assoc. simpl. auto.
    + exists [Execute "orderbook_snapshots"; Rollback].
      rewrite <- app_assoc. simpl. auto.
  - exists [Rollback]. simpl. auto.
Qed.

Lemma store_trade_calls (rt : Runtime) (s : WebSocketCollector) (data : value) :
  exists cs, calls (conn (store_trade rt s data)) = calls (conn s) ++ cs /\
             In cs trade_calls.
Proof.
  unfold store_trade, trade_calls.
  destruct (trade_row_of rt data) as [row |].
  - unfold insert_trade. destruct (trade_accepted (conn s) row); simpl.
    + exists [Execute "realtime_trades"; Commit].
      rewrite <- app_assoc. simpl. auto.
    + exists [Execute "realtime_trades"; Rollback].
      rewrite <- app_assoc. simpl. auto.
  - exists [Rollback]. simpl. auto.
Qed.

Lemma store_price_change_calls (rt : Runtime) (s : WebSocketCollector) (data : value) :
  exists cs n, calls (conn (store_price_change rt s data)) = calls (conn s) ++ cs /\
               In cs (change_calls n).
Proof.
  unfold store_price_change, change_calls.
  destruct (change_values rt data) as [[| r rows] |].
  - exists [], O. rewrite app_nil_r. simpl. auto.
  - exists (if snd (insert_changes (conn s) (r :: rows))
            then [ExecuteValues "price_changes" (List.length (r :: rows)); Commit]
            else [ExecuteValues "price_changes" (List.length (r :: rows)); Rollback]),
           (List.length (r :: rows)).
    destruct (insert_pages_calls (paginate [] PAGE_SIZE (r :: rows))
                (logged (conn s) (ExecuteValues "price_changes" (List.length (r :: rows)))))
      as (C & _).
    fold (insert_changes (conn s) (r :: rows)) in C.
    destruct (insert_changes (conn s) (r :: rows)) as [c ok]. cbn [fst snd] in *.
    destruct ok; cbn [conn with_conn commit rollback calls]; rewrite C; simpl;
      rewrite <- app_assoc; simpl; auto 10.
  - exists [Rollback], O. simpl. auto.
Qed.

(** C6. A message that decodes to an array is handled item by item, in
    array order; the array [book, last_trade_price, price_change] is handled
    by [store_book_snapshot], then [store_trade], then [store_price_change],
    each on its own event.  When the three events convert and the database
    takes their rows, the message makes exactly three INSERT calls on the
    connection, on [orderbook_snapshots], [realtime_trades] and
    [price_changes] in this order, each followed by its commit; each table
    gets the rows of its event and each counter grows accordingly.  Whatever
    the three events hold, each handler makes at most one INSERT call, on
    the table of its kind.  An event of any other kind leaves the collector,
    its connection and the log of its calls as they were, wherever it stands
    in the array. *)
Theorem array_message_is_dispatched_in_order (rt : Runtime)
    (self : WebSocketCollector) (message : string) (items : list value) :
  json_loads rt message = Some (PList items) ->
  handle_message rt self message = fold_left (_process_event rt) items self /\
  (forall b t p,
      items = [b; t; p] -> event_type_is b "book" ->
      event_type_is t "last_trade_price" -> event_type_is p "price_change" ->
      handle_message rt self message
      = store_price_change rt (store_trade rt (store_book_snapshot rt self b) t) p /\
      (forall book trade deltas,
          book_row rt b = Some book -> trade_row_of rt t = Some trade ->
          change_values rt p = Some deltas -> deltas <> [] ->
          snapshot_accepted (conn self) book = true ->
          trade_accepted (conn self) trade = true ->
          forallb (change_accepted (conn self)) deltas = true ->
          let self' := handle_message rt self message in
          calls (conn self')
          = calls (conn self)
            ++ [Execute "orderbook_snapshots"; Commit;
                Execute "realtime_trades"; Commit;
                ExecuteValues "price_changes" (List.length deltas); Commit] /\
          orderbook_snapshots (committed (conn self'))
          = orderbook_snapshots (working (conn self))
            ++ [(ob_seq (conn self) + 1, txn (conn self), book)] /\
          realtime_trades (committed (conn self'))
          = realtime_trades (working (conn self))
            ++ [(rt_seq (conn self) + 1, trade)] /\
          price_changes (committed (conn self'))
          = price_changes (working (conn self))
            ++ number (pc_seq (conn self)) deltas /\
          counters self'
          = {| books := books (counters self) + 1;
               changes := changes (counters self) + Z.of_nat (List.length deltas);
               trades := trades (counters self) + 1 |}) /\
      (exists cb ct cp n,
          calls (conn (handle_message rt self message))
          = calls (conn self) ++ cb ++ ct ++ cp /\
          In cb book_calls /\ In ct trade_calls /\ In cp (change_calls n))) /\
  (forall s data, recognized data = false -> _process_event rt s data = s) /\
  handle_message rt self message
  = fold_left (_process_event rt) (filter recognized items) self.
Proof.
  intros L.
  assert (H : handle_message rt self message = fold_left (_process_event rt) items self)
    by (unfold handle_message; now rewrite L).
  split; [exact H |]. split; [| split].
  - intros b t p -> Hb Ht Hp.
    assert (C : handle_message rt self message
                = store_price_change rt (store_trade rt (store_book_snapshot rt self b) t) p).
    { rewrite H. simpl.
      now rewrite (process_book rt self b Hb), (process_trade rt _ t Ht),
        (process_change rt _ p Hp). }
    split; [exact C |]. split.
    + intros book trade deltas Rb Rt Rp N Fb Ft Fp self'. subst self'. rewrite C.
      destruct (BookSpec.collector_stores rt self b book Rb Fb)
        as (B1 & B2 & B3 & B4 & B5 & B6 & B7 & B8 & B9 & B10 & B11).
      set (s1 := store_book_snapshot rt self b) in *.
      assert (Ft1 : trade_accepted (conn s1) trade = true)
        by now rewrite (trade_accepted_server _ _ _ B5).
      destruct (store_trade_ok rt s1 t trade Rt Ft1)
        as (T1 & T2 & T3 & T4 & T5 & T6 & T7 & T8 & T9 & T10 & T11).
      set (s2 := store_trade rt s1 t) in *.
      assert (Fp2 : forallb (change_accepted (conn s2)) deltas = true).
      { rewrite <- Fp. apply forallb_same. intros r.
        apply change_accepted_server. now rewrite T5. }
      destruct (store_price_change_ok rt s2 p deltas Rp N Fp2)
        as (P1 & P2 & P3 & P4 & P5 & P6 & P7 & P8).
      set (s3 := store_price_change rt s2 p) in *.
      split; [rewrite P7, T10, B10, <- !app_assoc; reflexivity |].
      split; [rewrite P3, T2, T3, B2, B1; reflexivity |].
      split; [rewrite P4, T2, T1, B2, B3, B7; reflexivity |].
      split; [rewrite P1, T2, T4, B2, B4, T8, B8; reflexivity |].
      rewrite P8, T11, B11. reflexivity.
    + rewrite C.
      destruct (store_book_snapshot_calls rt self b) as (cb & Eb & Ib).
      destruct (store_trade_calls rt (store_book_snapshot rt self b) t) as (ct & Et & It).
      destruct (store_price_change_calls rt
                  (store_trade rt (store_book_snapshot rt self b) t) p)
        as (cp & n & Ep & Ip).
      exists cb, ct, cp, n. rewrite Ep, Et, Eb, <- !app_assoc. auto.
  - intros s data. apply unrecognized_dropped.
  - rewrite H. apply fold_skips_unrecognized.
Qed.

(** A price-change event with one delta, as the push feed carries it. *)
Definition sample_change : value :=
  PDict [("event_type", PStr "price_change"); ("timestamp", PStr "1700000000001");
         ("price_changes",
          PList [PDict [("asset_id", PStr "tokA"); ("price", PStr "0.46");
                        ("size", PStr "25"); ("side", PStr "BUY");
                        ("best_bid", PStr "0.46"); ("best_ask", PStr "0.55")]])].

Definition sample_change_row : change_row :=
  {| pc_token_id := PStr "tokA"; pc_timestamp := 1700000000001;
     pc_price := 0.46%float; pc_size := 25%float; pc_side := PStr "BUY";
     pc_best_bid := Some 0.46%float; pc_best_ask := Some 0.55%float |}.

(** The text of one message carrying the three kinds of event. *)
Definition three_events : string :=
  Reference.text_of (PList [sample_book; sample_trade; sample_change]).

Lemma three_events_decode :
  json_loads Reference.runtime three_events
  = Some (PList [sample_book; sample_trade; sample_change]).
Proof. vm_compute. reflexivity. Qed.

Lemma array_message_is_dispatched_in_order_witness :
  json_loads Reference.runtime three_events
  = Some (PList [sample_book; sample_trade; sample_change]) /\
  calls (conn (handle_message Reference.runtime fresh three_events))
  = calls (conn fresh)
    ++ [Execute "orderbook_snapshots"; Commit; Execute "realtime_trades"; Commit;
        ExecuteValues "price_changes" (List.length [sample_change_row]); Commit] /\
  orderbook_snapshots
    (committed (conn (handle_message Reference.runtime fresh three_events)))
  = orderbook_snapshots (working (conn fresh))
    ++ [(ob_seq (conn fresh) + 1, txn (conn fresh), sample_book_row)] /\
  realtime_trades
    (committed (conn (handle_message Reference.runtime fresh three_events)))
  = realtime_trades (working (conn fresh))
    ++ [(rt_seq (conn fresh) + 1, sample_trade_row)] /\
  price_changes
    (committed (conn (handle_message Reference.runtime fresh three_events)))
  = price_changes (working (conn fresh))
    ++ number (pc_seq (conn fresh)) [sample_change_row] /\
  counters (handle_message Reference.runtime fresh three_events)
  = {| books := books (counters fresh) + 1;
       changes := changes (counters fresh) + Z.of_nat (List.length [sample_change_row]);
       trades := trades (counters fresh) + 1 |}.
Proof.
  split; [exact three_events_decode |].
  refine (proj1 (proj2 (proj1 (proj2 (array_message_is_dispatched_in_order
                                        Reference.runtime fresh three_events _
                                        three_events_decode))
                          sample_book sample_trade sample_change eq_refl _ _ _))
            sample_book_row sample_trade_row [sample_change_row] _ _ _ _
            eq_refl eq_refl eq_refl).
  - eexists; split; reflexivity.
  - eexists; split; reflexivity.
  - eexists; split; reflexivity.
  - vm_compute. reflexivity.
  - vm_compute. reflexivity.
  - vm_compute. reflexivity.
  - discriminate.
Defined.

(** The calls the three-event message makes on the connection, and the
    counters after it; an event of an unknown kind in the array adds none. *)
Example three_events_calls :
  let self' := handle_message Reference.runtime fresh three_events in
  calls (conn self')
  = [Execute "orderbook_snapshots"; Commit; Execute "realtime_trades"; Commit;
     ExecuteValues "price_changes" 1; Commit] /\
  counters self' = {| books := 1; changes := 1; trades := 1 |} /\
  handle_message Reference.runtime fresh
    (Reference.text_of
       (PList [sample_book; PDict [("event_type", PStr "tick_size_change")];
               sample_trade; PInt 7; sample_change]))
  = self'.
Proof. vm_compute. repeat split; reflexivity. Qed.

(** *** Price changes *)

(** [float(c.get(k, 0))]. *)
Definition delta_float (rt : Runtime) (c : value) (k : string) : option float :=
  do v <- get c k (PInt 0); py_float rt v.

(** The row [r] carries the event's timestamp and the delta's own fields. *)
Definition carries (rt : Runtime) (timestamp : Z) (c : value) (r : change_row) : Prop :=
  pc_timestamp r = timestamp /\
  get c "asset_id" PNone = Some (pc_token_id r) /\
  delta_float rt c "price" = Some (pc_price r) /\
  delta_float rt c "size" = Some (pc_size r) /\
  get c "side" PNone = Some (pc_side r).

Lemma change_row_of_carries (rt : Runtime) (timestamp : Z) (c : value) (r : change_row) :
  change_row_of rt timestamp c = Some r -> carries rt timestamp c r.
Proof.
  unfold change_row_of, carries, delta_float.
  destruct (get c "asset_id" PNone) as [tok |]; [| discriminate].
  destruct (get c "price" (PInt 0)) as [pr |]; [| discriminate].
  destruct (py_float rt pr) as [price |]; [| discriminate].
  destruct (get c "size" (PInt 0)) as [sz |]; [| discriminate].
  destruct (py_float rt sz) as [size |]; [| discriminate].
  destruct (get c "side" PNone) as [side |]; [| discriminate].
  destruct (optional_float rt c "best_bid"); [| discriminate].
  destruct (optional_float rt c "best_ask"); [| discriminate].
  intros [= <-]. simpl. auto.
Qed.

Lemma change_rows_carry (rt : Runtime) (timestamp : Z) (deltas : list value) :
  forall rows, change_rows rt timestamp deltas = Some rows ->
    Forall2 (carries rt timestamp) deltas rows.
Proof.
  induction deltas as [| c deltas IH]; simpl; intros rows.
  - intros [= <-]. constructor.
  - destruct (change_row_of rt timestamp c) as [r |] eqn:R; [| discriminate].
    destruct (change_rows rt timestamp deltas) as [rs |]; [| discriminate].
    intros [= <-]. constructor; [now apply change_row_of_carries | now apply IH].
Qed.

(** One delta that does not convert leaves no list of rows. *)
Lemma change_rows_bad (rt : Runtime) (timestamp : Z) (c : value) (rest : list value) :
  change_row_of rt timestamp c = None ->
  forall before, change_rows rt timestamp (before ++ c :: rest) = None.
Proof.
  intros B. induction before as [| x before IH]; simpl.
  - now rewrite B.
  - destruct (change_row_of rt timestamp x); [| reflexivity]. now rewrite IH.
Qed.

(** The event raised before any call on the connection: the rollback of the
    handler is all that reaches it. *)
Definition dropped (s s' : WebSocketCollector) : Prop :=
  committed (conn s') = committed (conn s) /\
  counters s' = counters s /\
  calls (conn s') = calls (conn s) ++ [Rollback].

(** C10, as the code has it.  For a price-change event whose timestamp and
    deltas all convert, [store_price_change] makes one row per delta, in
    order, each with the event's timestamp and the delta's own asset id,
    price, size and side.  With at least one delta and every row taken by
    the database, these rows are added to the stored table by one
    [execute_values] and one commit and the counter grows by their number.
    When the database refuses one of the rows, the [execute_values] is
    followed by a rollback: no row of the event stays stored and the counter
    stays.  With no delta the collector, its counters and the log of calls
    on its connection stay as they were.  When the timestamp or one delta
    does not convert, the exception is caught, a rollback is called and
    nothing of the event is stored, also when the list of deltas is empty. *)
Theorem one_row_per_price_change (rt : Runtime) (self : WebSocketCollector)
    (data : value) (deltas : list value) :
  get data "price_changes" (PList []) = Some (PList deltas) ->
  let self' := store_price_change rt self data in
  (forall timestamp rows,
      (do t <- get data "timestamp" (PInt 0); py_int rt t) = Some timestamp ->
      change_rows rt timestamp deltas = Some rows ->
      Forall2 (carries rt timestamp) deltas rows /\
      (deltas <> [] -> forallb (change_accepted (conn self)) rows = true ->
       price_changes (committed (conn self'))
       = price_changes (working (conn self)) ++ number (pc_seq (conn self)) rows /\
       List.length (number (pc_seq (conn self)) rows) = List.length deltas /\
       calls (conn self')
       = calls (conn self) ++ [ExecuteValues "price_changes" (List.length deltas); Commit] /\
       changes (counters self')
       = changes (counters self) + Z.of_nat (List.length deltas)) /\
      (deltas <> [] -> forallb (change_accepted (conn self)) rows = false ->
       committed (conn self') = committed (conn self) /\
       counters self' = counters self /\
       calls (conn self')
       = calls (conn self)
         ++ [ExecuteValues "price_changes" (List.length deltas); Rollback]) /\
      (deltas = [] -> self' = self)) /\
  ((do t <- get data "timestamp" (PInt 0); py_int rt t) = None ->
   dropped self self') /\
  (forall timestamp before c rest,
      (do t <- get data "timestamp" (PInt 0); py_int rt t) = Some timestamp ->
      deltas = before ++ c :: rest -> change_row_of rt timestamp c = None ->
      dropped self self').
Proof.
  intros Hc self'.
  assert (D : change_values rt data = None -> dropped self self').
  { intros V. subst self'. unfold dropped, store_price_change. rewrite V. simpl. auto. }
  split; [| split].
  - intros timestamp rows Ht Hr.
    assert (F2 := change_rows_carry rt timestamp deltas rows Hr).
    assert (Len : List.length rows = List.length deltas)
      by (symmetry; eapply Forall2_length; exact F2).
    assert (V : change_values rt data = Some rows).
    { unfold change_values. rewrite Hc.
      destruct (get data "timestamp" (PInt 0)) as [t |]; [| discriminate].
      simpl in Ht. rewrite Ht. simpl. exact Hr. }
    assert (N : deltas <> [] -> rows <> []).
    { intros Hne ->. destruct deltas; [congruence | discriminate]. }
    split; [exact F2 |]. split; [| split].
    + intros Hne F. subst self'.
      destruct (store_price_change_ok rt self data rows V (N Hne) F)
        as (P1 & _ & _ & _ & _ & _ & P7 & P8).
      rewrite number_length, <- Len. split; [exact P1 |]. split; [reflexivity |].
      split; [exact P7 |]. now rewrite P8.
    + intros Hne F. subst self'.
      destruct (store_price_change_refused rt self data rows V (N Hne) F)
        as (R1 & _ & R3 & R4).
      rewrite <- Len. auto.
    + intros ->. subst self'. unfold store_price_change. rewrite V.
      simpl in Hr. injection Hr as <-. reflexivity.
  - intros Ht. apply D. unfold change_values. rewrite Hc.
    destruct (get data "timestamp" (PInt 0)) as [t |]; [| reflexivity].
    simpl in Ht. now rewrite Ht.
  - intros timestamp before c rest Ht -> B. apply D.
    unfold change_values. rewrite Hc.
    destruct (get data "timestamp" (PInt 0)) as [t |]; [| discriminate].
    simpl in Ht. rewrite Ht. simpl. now apply change_rows_bad.
Qed.

Lemma one_row_per_price_change_witness :
  price_changes
    (committed (conn (store_price_change Reference.runtime fresh sample_change)))
  = [] ++ number 0 [sample_change_row] /\
  calls (conn (store_price_change Reference.runtime fresh sample_change))
  = [] ++ [ExecuteValues "price_changes" 1; Commit].
Proof.
  destruct (proj1 (proj2 (proj1
    (one_row_per_price_change Reference.runtime fresh sample_change
       [PDict [("asset_id", PStr "tokA"); ("price", PStr "0.46");
               ("size", PStr "25"); ("side", PStr "BUY");
               ("best_bid", PStr "0.46"); ("best_ask", PStr "0.55")]]
       eq_refl)
    1700000000001 [sample_change_row] eq_refl eq_refl)))
    as (E & _ & C & _); [discriminate | reflexivity |].
  split; [exact E | exact C].
Defined.

(** A price-change event whose second delta has a price that is no number,
    and one without deltas whose timestamp is no number. *)
Definition half_bad_change : value :=
  PDict [("event_type", PStr "price_change"); ("timestamp", PStr "1700000000001");
         ("price_changes",
          PList [PDict [("asset_id", PStr "tokA"); ("price", PStr "0.46");
                        ("size", PStr "25"); ("side", PStr "BUY")];
                 PDict [("asset_id", PStr "tokB"); ("price", PStr "abc");
                        ("size", PStr "10"); ("side", PStr "SELL")]])].

Definition untimed_change : value :=
  PDict [("event_type", PStr "price_change"); ("timestamp", PStr "abc");
         ("price_changes", PList [])].

(** Not every price-change event gets one row per delta, and an empty list
    of deltas does not keep the handler from raising: the first event has
    two deltas and stores no row; the second has none and ends in the
    rollback of the exception handler. *)
Lemma bad_delta_drops_the_whole_event :
  let self1 := store_price_change Reference.runtime fresh half_bad_change in
  let self2 := store_price_change Reference.runtime fresh untimed_change in
  get half_bad_change "price_changes" (PList [])
  = Some (PList [PDict [("asset_id", PStr "tokA"); ("price", PStr "0.46");
                        ("size", PStr "25"); ("side", PStr "BUY")];
                 PDict [("asset_id", PStr "tokB"); ("price", PStr "abc");
                        ("size", PStr "10"); ("side", PStr "SELL")]]) /\
  price_changes (committed (conn self1)) = [] /\
  changes (counters self1) = 0 /\
  calls (conn self1) = [Rollback] /\
  get untimed_change "price_changes" (PList []) = Some (PList []) /\
  calls (conn self2) = [Rollback] /\
  self2 <> fresh.
Proof.
  vm_compute. repeat split; try reflexivity. discriminate.
Qed.

(** A price-change event without deltas whose timestamp converts changes
    nothing. *)
Example no_delta_no_call :
  store_price_change Reference.runtime fresh
    (PDict [("event_type", PStr "price_change"); ("timestamp", PStr "1700000000001");
            ("price_changes", PList [])])
  = fresh.
Proof. reflexivity. Qed.

End CollectorSpec.

(** ** The snapshot poller *)
Module PollerSpec.
Import Storage Poller.

(** *** Target selection *)

Lemma entry_token (rt : Runtime) (m token_ids : value) (t : target) :
  entry rt m token_ids = Some t ->
  exists ids, loads rt token_ids = Some ids /\ first ids = Some (token t).
Proof.
  unfold entry.
  destruct (loads rt token_ids) as [ids |]; [| discriminate].
  destruct (truthy ids); [| discriminate].
  destruct (first ids) as [tok |] eqn:F; [| discriminate].
  destruct (get m "slug" (PStr "unknown")); [| discriminate].
  destruct (get m "question" (PStr "")) as [q |]; [| discriminate].
  destruct (slice_to 50 q); [| discriminate].
  intros [= <-]. now exists ids.
Qed.

(** Every selected entry is in the list already or stems from a market
    that the price filter did not skip. *)
Lemma select_sound (rt : Runtime) (limit : nat) (markets : list value) :
  forall tokens result t,
    select rt limit markets tokens = Some result -> In t result ->
    In t tokens \/
    exists m token_ids ids,
      In m markets /\ skipped rt m = false /\
      get m "clobTokenIds" PNone = Some token_ids /\
      loads rt token_ids = Some ids /\ first ids = Some (token t).
Proof.
  induction markets as [| m markets IH]; simpl; intros tokens result t.
  - intros [= <-] H. now left.
  - destruct (limit <=? List.length tokens)%nat.
    { intros [= <-] H. now left. }
    destruct (skipped rt m) eqn:Sk.
    { intros S H. destruct (IH _ _ _ S H) as [? | (m' & ti & ids & I & R)];
        [now left | right; exists m', ti, ids; split; [now right | exact R]]. }
    destruct (get m "clobTokenIds" PNone) as [token_ids |] eqn:G; [| discriminate].
    intros S H. destruct (IH _ _ _ S H) as [I | (m' & ti & ids & I & R)].
    + destruct (truthy token_ids); [| now left].
      destruct (entry rt m token_ids) as [t' |] eqn:E; [| now left].
      apply in_app_or in I. destruct I as [I | [<- | []]]; [now left |].
      destruct (entry_token _ _ _ _ E) as (ids & L & F).
      right. exists m, token_ids, ids. repeat split; auto.
    + right. exists m', ti, ids. split; [now right | exact R].
Qed.

(** A skipped market changes nothing in what is selected. *)
Lemma select_skips (rt : Runtime) (limit : nat) (m : value) (rest : list value) :
  skipped rt m = true ->
  forall before tokens,
    select rt limit (before ++ m :: rest) tokens
    = select rt limit (before ++ rest) tokens.
Proof.
  intros Sk. induction before as [| x before IH]; intros tokens; simpl.
  - rewrite Sk. destruct (limit <=? List.length tokens)%nat eqn:L; [| reflexivity].
    destruct rest; simpl; [reflexivity | now rewrite L].
  - destruct (limit <=? List.length tokens)%nat; [reflexivity |].
    destruct (skipped rt x); [apply IH |].
    destruct (get x "clobTokenIds" PNone); [apply IH | reflexivity].
Qed.

Lemma not_extreme_inclusive (mid : float) :
  extreme mid = false ->
  (mid <? 0.10)%float = false /\ (0.90 <? mid)%float = false /\
  (PrimFloat.is_nan mid = false ->
   (0.10 <=? mid)%float = true /\ (mid <=? 0.90)%float = true).
Proof.
  unfold extreme. intros H. apply orb_false_elim in H. destruct H as [H1 H2].
  split; [exact H1 |]. split; [exact H2 |]. intros N. split.
  - apply FloatFacts.ltb_false_leb; [exact N | reflexivity | exact H1].
  - apply FloatFacts.ltb_false_leb; [reflexivity | exact N | exact H2].
Qed.

(** A market record with the two prices as JSON numbers. *)
Definition quoted_at (best_bid best_ask : float) (others : list (string * value)) : value :=
  PDict (("bestBid", PFloat best_bid) :: ("bestAsk", PFloat best_ask) :: others).

(** C4, as the code has it.  Target selection skips a market when its mid
    price is below 0.10 or above 0.90 and keeps it otherwise: an entry of
    the result stems from a market of the answer whose mid price, when the
    two prices convert, is neither below 0.10 nor above 0.90, that is from
    0.10 to 0.90 with both bounds included; a skipped market adds nothing;
    mid prices 0.05 and 0.95 are skipped, 0.50, 0.10 and 0.90 are kept. *)
Theorem mid_price_bounds_are_inclusive (rt : Runtime) :
  (forall resp limit t,
      In t (get_top_markets rt resp limit) ->
      exists markets ms m token_ids ids,
        resp = Some markets /\ iter markets = Some ms /\ In m ms /\
        get m "clobTokenIds" PNone = Some token_ids /\
        loads rt token_ids = Some ids /\ first ids = Some (token t) /\
        forall mid, mid_price rt m = Some mid ->
          (mid <? 0.10)%float = false /\ (0.90 <? mid)%float = false /\
          (PrimFloat.is_nan mid = false ->
           (0.10 <=? mid)%float = true /\ (mid <=? 0.90)%float = true)) /\
  (forall limit before m rest mid,
      mid_price rt m = Some mid ->
      (mid <? 0.10)%float = true \/ (0.90 <? mid)%float = true ->
      get_top_markets rt (Some (PList (before ++ m :: rest))) limit
      = get_top_markets rt (Some (PList (before ++ rest))) limit) /\
  (forall others,
      skipped rt (quoted_at 0.04 0.06 others) = true /\
      skipped rt (quoted_at 0.94 0.96 others) = true /\
      skipped rt (quoted_at 0.49 0.51 others) = false /\
      skipped rt (quoted_at 0.09 0.11 others) = false /\
      skipped rt (quoted_at 0.89 0.91 others) = false) /\
  extreme 0.05 = true /\ extreme 0.95 = true /\ extreme 0.50 = false /\
  extreme 0.10 = false /\ extreme 0.90 = false.
Proof.
  split; [| split; [| split]].
  - intros resp limit t. unfold get_top_markets.
    destruct resp as [markets |]; [| intros []].
    destruct (iter markets) as [ms |] eqn:I; [| intros []].
    destruct (select rt limit ms []) as [result |] eqn:S; [| intros []].
    intros H. destruct (select_sound _ _ _ _ _ _ S H)
      as [[] | (m & ti & ids & Im & Sk & G & L & F)].
    exists markets, ms, m, ti, ids.
    split; [reflexivity |]. split; [exact I |]. split; [exact Im |].
    split; [exact G |]. split; [exact L |]. split; [exact F |].
    intros mid M. unfold skipped in Sk. rewrite M in Sk.
    now apply not_extreme_inclusive.
  - intros limit before m rest mid M E. unfold get_top_markets. simpl.
    rewrite select_skips; [reflexivity |].
    unfold skipped, extreme. rewrite M.
    destruct E as [-> | ->]; [reflexivity | apply orb_true_r].
  - intros others. repeat split; reflexivity.
  - repeat split; reflexivity.
Qed.

(** The two markets of an answer: one quoted 0.09 / 0.11, whose mid price
    is 0.10, and one quoted 0.01 / 0.03. *)
Definition boundary_market : value :=
  quoted_at 0.09 0.11
    [("clobTokenIds", PStr (Reference.text_of (PList [PStr "tokA"; PStr "tokB"])));
     ("slug", PStr "at-ten-percent"); ("question", PStr "Ten percent?")].

Definition extreme_market : value :=
  quoted_at 0.01 0.03
    [("clobTokenIds", PStr (Reference.text_of (PList [PStr "tokC"; PStr "tokD"])));
     ("slug", PStr "near-zero"); ("question", PStr "Near zero?")].

Definition boundary_target : target :=
  {| token := PStr "tokA"; slug := PStr "at-ten-percent";
     question := PStr "Ten percent?" |}.

Lemma boundary_selection :
  get_top_markets Reference.runtime
    (Some (PList [extreme_market; boundary_market])) 100
  = [boundary_target].
Proof. vm_compute. reflexivity. Qed.

Lemma mid_price_bounds_are_inclusive_witness :
  In boundary_target
     (get_top_markets Reference.runtime
        (Some (PList [extreme_market; boundary_market])) 100) /\
  exists markets ms m token_ids ids,
    Some (PList [extreme_market; boundary_market]) = Some markets /\
    iter markets = Some ms /\ In m ms /\
    get m "clobTokenIds" PNone = Some token_ids /\
    loads Reference.runtime token_ids = Some ids /\
    first ids = Some (token boundary_target) /\
    forall mid, mid_price Reference.runtime m = Some mid ->
      (mid <? 0.10)%float = false /\ (0.90 <? mid)%float = false /\
      (PrimFloat.is_nan mid = false ->
       (0.10 <=? mid)%float = true /\ (mid <=? 0.90)%float = true).
Proof.
  assert (H : In boundary_target
                 (get_top_markets Reference.runtime
                    (Some (PList [extreme_market; boundary_market])) 100))
    by (rewrite boundary_selection; left; reflexivity).
  split; [exact H |].
  exact (proj1 (mid_price_bounds_are_inclusive Reference.runtime) _ _ _ H).
Defined.

(** A market whose mid price is exactly 0.10 is kept, though 0.10 does not
    lie strictly between 0.10 and 0.90; so is one at exactly 0.90. *)
Lemma boundary_market_is_kept :
  mid_price Reference.runtime boundary_market = Some 0.10%float /\
  get_top_markets Reference.runtime (Some (PList [boundary_market])) 100
  = [boundary_target] /\
  ~ ((0.10 <? 0.10)%float = true /\ (0.10 <? 0.90)%float = true) /\
  mid_price Reference.runtime (quoted_at 0.89 0.91 []) = Some 0.90%float /\
  skipped Reference.runtime (quoted_at 0.89 0.91 []) = false.
Proof.
  vm_compute. repeat split; try reflexivity. intros [H _]. discriminate.
Qed.

(** *** Isolation of the fetches of a batch *)

(** The target's fetch gave something to store. *)
Definition answered (te : target * exchange) : bool :=
  truthy (fetch_orderbook (answer (snd te))).

Lemma run_batch_fold (rt : Runtime) (batch : list (target * exchange)) :
  forall self,
    run_batch rt self batch
    = fold_left
        (fun s te => settle rt s (te, fetch_orderbook (answer (snd te))))
        batch self.
Proof.
  unfold run_batch. induction batch as [| te batch IH]; intros self; simpl.
  - reflexivity.
  - apply IH.
Qed.

Lemma run_batch_app (rt : Runtime) (b1 b2 : list (target * exchange))
    (self : OrderbookPoller) :
  run_batch rt self (b1 ++ b2) = run_batch rt (run_batch rt self b1) b2.
Proof. rewrite !run_batch_fold. apply fold_left_app. Qed.

Lemma run_batch_cons (rt : Runtime) (te : target * exchange)
    (batch : list (target * exchange)) (self : OrderbookPoller) :
  run_batch rt self (te :: batch)
  = run_batch rt (settle rt self (te, fetch_orderbook (answer (snd te)))) batch.
Proof. rewrite !run_batch_fold. reflexivity. Qed.

(** A target without a result leaves the poller as it was. *)
Lemma settle_unanswered (rt : Runtime) (self : OrderbookPoller)
    (te : target * exchange) :
  answered te = false ->
  settle rt self (te, fetch_orderbook (answer (snd te))) = self.
Proof.
  unfold answered, settle. destruct te as [t e]. simpl. now intros ->.
Qed.

Lemma run_batch_answered (rt : Runtime) (batch : list (target * exchange)) :
  forall self, run_batch rt self batch = run_batch rt self (filter answered batch).
Proof.
  induction batch as [| te batch IH]; intros self; [reflexivity |].
  simpl. destruct (answered te) eqn:A.
  - rewrite !run_batch_cons. apply IH.
  - rewrite run_batch_cons, settle_unanswered by exact A. apply IH.
Qed.

(** After [store_snapshot] no transaction is open, and what was committed
    with none open stays committed. *)
Lemma store_snapshot_keeps (rt : Runtime) (self : OrderbookPoller) (now_ms : Z)
    (token_id data : value) :
  let self' := fst (store_snapshot rt self now_ms token_id data) in
  working (conn self') = committed (conn self') /\
  server (conn self') = server (conn self) /\
  (working (conn self) = committed (conn self) ->
   forall x, In x (orderbook_snapshots (committed (conn self))) ->
             In x (orderbook_snapshots (committed (conn self')))).
Proof.
  unfold store_snapshot.
  destruct (snapshot_row_of rt now_ms token_id data) as [row |]; simpl.
  - unfold insert_snapshot. destruct (snapshot_accepted (conn self) row); simpl.
    + split; [reflexivity |]. split; [reflexivity |].
      intros W x I. rewrite W. apply in_or_app. now left.
    + split; [reflexivity |]. split; [reflexivity |]. auto.
  - split; [reflexivity |]. split; [reflexivity |]. auto.
Qed.

Lemma store_snapshot_adds (rt : Runtime) (self : OrderbookPoller) (now_ms : Z)
    (token_id data : value) (row : snapshot_row) :
  snapshot_row_of rt now_ms token_id data = Some row ->
  snapshot_accepted (conn self) row = true ->
  let self' := fst (store_snapshot rt self now_ms token_id data) in
  In (ob_seq (conn self) + 1, txn (conn self), row)
     (orderbook_snapshots (committed (conn self'))) /\
  snapshots self' = snapshots self + 1.
Proof.
  intros R F.
  destruct (BookSpec.poller_stores rt self now_ms token_id data row R F)
    as (_ & E & _ & N & _).
  split; [| exact N]. rewrite E. apply in_or_app. right. now left.
Qed.

Lemma run_batch_keeps (rt : Runtime) (batch : list (target * exchange)) :
  forall self,
    working (conn self) = committed (conn self) ->
    working (conn (run_batch rt self batch)) = committed (conn (run_batch rt self batch)) /\
    forall x, In x (orderbook_snapshots (committed (conn self))) ->
              In x (orderbook_snapshots (committed (conn (run_batch rt self batch)))).
Proof.
  induction batch as [| [t e] batch IH]; intros self W.
  - split; [exact W | auto].
  - rewrite run_batch_cons. unfold settle. simpl.
    destruct (truthy (fetch_orderbook (answer e))).
    + destruct (store_snapshot_keeps rt self (clock_ms e) (token t)
                  (fetch_orderbook (answer e))) as (W' & _ & K).
      destruct (IH _ W') as [W'' K'']. split; [exact W'' |].
      intros x I. apply K''. now apply K.
    + now apply IH.
Qed.

(** A batch talks to one server from its first target to its last. *)
Lemma run_batch_server (rt : Runtime) (batch : list (target * exchange)) :
  forall self, server (conn (run_batch rt self batch)) = server (conn self).
Proof.
  induction batch as [| [t e] batch IH]; intros self; [reflexivity |].
  rewrite run_batch_cons, IH. unfold settle. simpl.
  destruct (truthy (fetch_orderbook (answer e))); [| reflexivity].
  now destruct (store_snapshot_keeps rt self (clock_ms e) (token t)
                  (fetch_orderbook (answer e))) as (_ & V & _).
Qed.

(** C8. In a batch, a target whose own fetch is answered in time with
    status 200 and a book that converts into a row the database takes gets
    its snapshot stored, whatever happens to the fetches of the targets
    before and after it; the targets whose fetch times out or fails leave no
    trace, the batch ends as if they were not in it.  Every fetch is
    measured against its own 10 seconds. *)
Theorem batch_failures_are_isolated (rt : Runtime) (self : OrderbookPoller)
    (before rest : list (target * exchange)) (t : target) (e : exchange)
    (data : value) (row : snapshot_row) :
  fetch_orderbook (answer e) = data ->
  truthy data = true ->
  snapshot_row_of rt (clock_ms e) (token t) data = Some row ->
  snapshot_accepted (conn self) row = true ->
  (exists id captured_at,
      In (id, captured_at, row)
         (orderbook_snapshots
            (committed (conn (run_batch rt self (before ++ (t, e) :: rest)))))) /\
  run_batch rt self (before ++ (t, e) :: rest)
  = run_batch rt self (filter answered (before ++ (t, e) :: rest)) /\
  (forall elapsed status body,
      Qle FETCH_TIMEOUT elapsed ->
      fetch_orderbook (Answered elapsed status body) = PNone) /\
  (forall elapsed book,
      Qlt elapsed FETCH_TIMEOUT ->
      fetch_orderbook (Answered elapsed 200 (Some book)) = book) /\
  fetch_orderbook Unreachable = PNone.
Proof.
  intros Hf Ht Hr Hb. split; [| split; [| split; [| split]]].
  - rewrite run_batch_app, run_batch_cons. unfold settle. simpl.
    rewrite Hf, Ht.
    set (s0 := run_batch rt self before).
    assert (Hb0 : snapshot_accepted (conn s0) row = true).
    { rewrite <- Hb. apply CollectorSpec.snapshot_accepted_server.
      apply run_batch_server. }
    destruct (store_snapshot_adds rt s0 (clock_ms e) (token t) data row Hr Hb0)
      as [I _].
    destruct (store_snapshot_keeps rt s0 (clock_ms e) (token t) data) as [W _].
    exists (ob_seq (conn s0) + 1), (txn (conn s0)).
    now apply (run_batch_keeps rt rest _ W).
  - apply run_batch_answered.
  - intros elapsed status body H. simpl.
    apply Qle_bool_iff in H. now rewrite H.
  - intros elapsed book H. simpl.
    destruct (Qle_bool FETCH_TIMEOUT elapsed) eqn:Q; [| reflexivity].
    apply Qle_bool_iff in Q. exfalso. now apply (Qlt_not_le _ _ H).
  - reflexivity.
Qed.

(** An order book as the venue answers it. *)
Definition venue_book : value :=
  PDict [("bids", PList [PDict [("price", PStr "0.45"); ("size", PStr "100")]]);
         ("asks", PList [PDict [("price", PStr "0.55"); ("size", PStr "50")]])].

Definition sample_row : snapshot_row :=
  {| ob_token_id := PStr "tokC"; ob_timestamp := 1700000003000;
     ob_bids := PList [PDict [("price", PStr "0.45"); ("size", PStr "100")]];
     ob_asks := PList [PDict [("price", PStr "0.55"); ("size", PStr "50")]];
     ob_best_bid := Some 0.45%float; ob_best_ask := Some 0.55%float;
     ob_spread := Some (0.55 - 0.45)%float;
     ob_bid_depth := 45%float; ob_ask_depth := 27.500000000000004%float |}.

Definition target_of (tok : string) : target :=
  {| token := PStr tok; slug := PStr "unknown"; question := PStr "" |}.

(** A batch of four: a timeout after 12 seconds, a transport error, a
    status 503, and an answer after a quarter of a second. *)
Definition mixed_batch_head : list (target * exchange) :=
  [(target_of "tokA",
    {| answer := Answered 12 200 (Some venue_book); clock_ms := 1700000001000 |});
   (target_of "tokB", {| answer := Unreachable; clock_ms := 1700000002000 |});
   (target_of "tokD",
    {| answer := Answered (1 # 2) 503 None; clock_ms := 1700000002500 |})].

Definition answered_exchange : exchange :=
  {| answer := Answered (1 # 4) 200 (Some venue_book); clock_ms := 1700000003000 |}.

Lemma batch_failures_are_isolated_witness :
  exists id captured_at,
    In (id, captured_at, sample_row)
       (orderbook_snapshots
          (committed (conn (run_batch Reference.runtime fresh
                              (mixed_batch_head
                               ++ (target_of "tokC", answered_exchange) :: []))))).
Proof.
  refine (proj1 (batch_failures_are_isolated Reference.runtime fresh
                   mixed_batch_head [] (target_of "tokC") answered_exchange
                   venue_book sample_row eq_refl eq_refl _ eq_refl)).
  vm_compute. reflexivity.
Defined.

(** The mixed batch stores the one snapshot and counts no error. *)
Example mixed_batch_result :
  let self' := run_batch Reference.runtime fresh
                 (mixed_batch_head ++ [(target_of "tokC", answered_exchange)]) in
  orderbook_snapshots (committed (conn self')) = [(1, 0, sample_row)] /\
  snapshots self' = 1 /\ errors self' = 0 /\
  calls (conn self') = [Execute "orderbook_snapshots"; Commit].
Proof. vm_compute. repeat split; reflexivity. Qed.

End PollerSpec.

(** ** The bulk extractor *)
Module ExtractorSpec.
Import Extractor.

(** *** Ids compared as text *)

Lemma ltb_irrefl (s : string) : (s <? s)%string = false.
Proof.
  unfold String.ltb. generalize (String.compare_antisym s s).
  destruct (s ?= s)%string; simpl; congruence.
Qed.






Definition where_of (last_id : string) : option string :=
  if (last_id =? "")%string then None else Some last_id.


(** *** The conversion of a page *)


Lemma value_of_id (rt : Runtime) (t : fill) (v : trade) :
  value_of rt t = Some v -> id v = f_id t.
Proof.
  unfold value_of.
  destruct (int_of_str rt (f_timestamp t)); [| discriminate].
  destruct (int_of_str rt (f_makerAmountFilled t)); [| discriminate].
  destruct (int_of_str rt (f_takerAmountFilled t)); [| discriminate].
  destruct (int_of_str rt (f_fee t)); [| discriminate].
  now intros [= <-].
Qed.

Lemma values_of_ids (rt : Runtime) (l : list fill) :
  forall vs, values_of rt l = Some vs ->
    map id vs = map f_id l /\ List.length vs = List.length l.
Proof.
  induction l as [| t l IH]; simpl; intros vs.
  - intros [= <-]. auto.
  - destruct (value_of rt t) as [v |] eqn:V; [| discriminate].
    destruct (values_of rt l) as [vs' |]; [| discriminate].
    intros [= <-]. destruct (IH _ eq_refl) as [E L]. simpl.
    now rewrite E, L, (value_of_id _ _ _ V).
Qed.

(** *** Inserting with conflicts ignored *)

Lemma known_id (tbl : list trade) (r : trade) :
  existsb (fun x => (id x =? id r)%string) tbl = true <-> In (id r) (map id tbl).
Proof.
  rewrite existsb_exists, in_map_iff. split.
  - intros (x & I & E). apply String.eqb_eq in E. now exists x.
  - intros (x & E & I). exists x. split; [exact I | now apply String.eqb_eq].
Qed.

(** What one INSERT of [values] with the conflict clause does to a table. *)
Lemma insert_ignoring (values : list trade) :
  forall tbl, exists fresh,
    fold_left insert_ignore values tbl = tbl ++ fresh /\
    (forall r, In r fresh -> In r values /\ ~ In (id r) (map id tbl)) /\
    (forall r, In r values -> In (id r) (map id (tbl ++ fresh))) /\
    (NoDup (map id tbl) -> NoDup (map id (tbl ++ fresh))).
Proof.
  induction values as [| v values IH]; intros tbl; simpl.
  - exists []. rewrite app_nil_r. repeat split; auto; intros r [].
  - unfold insert_ignore at 2.
    destruct (existsb (fun x => (id x =? id v)%string) tbl) eqn:K.
    + destruct (IH tbl) as (fresh & E & F1 & F2 & F3). exists fresh.
      split; [exact E |]. split; [| split; [| exact F3]].
      * intros r I. destruct (F1 r I). auto.
      * intros r [<- | I]; [| now apply F2].
        rewrite map_app. apply in_or_app. left. now apply known_id.
    + destruct (IH (tbl ++ [v])) as (fresh & E & F1 & F2 & F3).
      exists (v :: fresh). rewrite E, <- app_assoc. simpl.
      assert (Nv : ~ In (id v) (map id tbl))
        by (intros I; apply known_id in I; congruence).
      split; [reflexivity |]. split; [| split].
      * intros r [<- | I]; [auto |]. destruct (F1 r I) as [I1 I2]. split; [auto |].
        intros J. apply I2. rewrite map_app. apply in_or_app. now left.
      * intros r I. specialize (F2 r).
        rewrite <- app_assoc in F2. simpl in F2.
        destruct I as [<- | I]; [| now apply F2].
        rewrite map_app. apply in_or_app. right. now left.
      * intros N. rewrite <- app_assoc in F3. simpl in F3. apply F3.
        rewrite map_app. simpl. apply NoDup_app; [exact N | |].
        -- constructor; [intros [] | constructor].
        -- intros a I [<- | []]. contradiction.
Qed.


(** *** One page *)

Lemma extract_loop_S (rt : Runtime) (fuel : nat) (w : subgraph) (c : connection)
    (last_id : string) (n : nat) :
  extract_loop rt (S fuel) w c last_id n
  = let (w1, trades) := extract_trades_batch w last_id in
    match trades with
    | [] => Some (w1, c, ExtractionComplete (get_trade_count c) n)
    | _ =>
        match insert_trades rt c trades with
        | Some (c1, inserted) =>
            extract_loop rt fuel (sleep w1 (1 # 10)) c1
              (last_id_of trades last_id) (n + inserted)
        | None => Some (w1, c, Uncaught)
        end
    end.
Proof. reflexivity. Qed.


Lemma last_id_of_snoc (before : list fill) (last : fill) (previous : string) :
  last_id_of (before ++ [last]) previous = f_id last.
Proof. unfold last_id_of. now rewrite rev_unit. Qed.


(** *** A source that answers every request *)

(** The source after it answered the query [q]. *)
Definition asked (w : subgraph) (q : query) : subgraph :=
  {| events := events w; coming := []; posted := posted w ++ [q];
     slept := slept w |}.

Lemma query_reliable (w : subgraph) (q : query) :
  coming w = [] -> query_subgraph w q = (asked w q, Some (serve (events w) q)).
Proof.
  intros C. unfold query_subgraph. cbn [seq attempts]. unfold post. now rewrite C.
Qed.







(** *** The resume cursor *)







(** *** A resumed run *)


(** *** Concrete sources *)

Definition id_of (k : nat) : string :=
  let d n := ascii_of_nat (48 + Nat.modulo n 10) in
  String (d (k / 1000)%nat) (String (d (k / 100)%nat)
    (String (d (k / 10)%nat) (String (d k) EmptyString))).

(** The [k]-th event of a source whose ids are the numbers from 0001 on. *)
Definition fill_no (k : nat) : fill :=
  {| f_id := id_of k; f_transactionHash := "0xhash";
     f_timestamp := "1700000000"; f_maker := "0xmaker"; f_taker := "0xtaker";
     f_makerAssetId := "0"; f_takerAssetId := "101";
     f_makerAmountFilled := "5000000"; f_takerAmountFilled := "10000000";
     f_fee := "0" |}.

Definition feed (n : nat) : list fill := map fill_no (seq 1 n).

Definition row_no (k : nat) : trade :=
  {| id := id_of k; tx_hash := "0xhash"; timestamp := 1700000000;
     maker := "0xmaker"; taker := "0xtaker";
     maker_asset_id := "0"; taker_asset_id := "101";
     maker_amount := 5000000; taker_amount := 10000000; fee := 0 |}.




Definition rows_of_feed_3 : list trade := [row_no 1; row_no 2; row_no 3].

(** The row stored earlier under the id of the second event. *)
Definition earlier_row : trade :=
  {| id := id_of 2; tx_hash := "0xearlier"; timestamp := 1600000000;
     maker := "0xmaker"; taker := "0xtaker";
     maker_asset_id := "0"; taker_asset_id := "101";
     maker_amount := 1; taker_amount := 2; fee := 0 |}.


(** The page of three events over a table that holds the second id: the
    first and the third event are appended, the stored row is kept. *)
Example conflicting_id_is_ignored :
  option_map (fun r => working (fst r))
    (insert_trades Reference.runtime (holding [earlier_row]) (feed 3))
  = Some [earlier_row; row_no 1; row_no 3].
Proof. vm_compute. reflexivity. Qed.

(** *** Requests that fail *)

(** The source after three POSTs of [q] raised, with the three sleeps. *)
Definition exhausted (w : subgraph) (q : query) (script : list post_result) : subgraph :=
  {| events := events w; coming := script; posted := posted w ++ [q; q; q];
     slept := slept w ++ [1; 2; 4]%Q |}.

Lemma query_exhausts (w : subgraph) (q : query) (script : list post_result) :
  coming w = Raises :: Raises :: Raises :: script ->
  query_subgraph w q = (exhausted w q script, None).
Proof.
  intros C. unfold query_subgraph. cbn [seq attempts]. unfold post at 1.
  rewrite C. cbn [sleep post attempts events coming posted slept].
  unfold exhausted, sleep. cbn. now rewrite <- !app_assoc.
Qed.

Lemma query_with_errors (w : subgraph) (q : query) (script : list post_result) :
  coming w = WithErrors :: script ->
  query_subgraph w q
  = ({| events := events w; coming := script; posted := posted w ++ [q];
        slept := slept w |}, None).
Proof.
  intros C. unfold query_subgraph. cbn [seq attempts]. unfold post. now rewrite C.
Qed.

(** At most three POSTs per query, and the sleeps are the first of 1s, 2s
    and 4s, one after each POST that raised. *)
Lemma query_is_bounded (w : subgraph) (q : query) :
  exists k f,
    (1 <= k <= 3)%nat /\ (f <= k)%nat /\
    posted (fst (query_subgraph w q)) = posted w ++ repeat q k /\
    slept (fst (query_subgraph w q)) = slept w ++ firstn f [1; 2; 4]%Q /\
    events (fst (query_subgraph w q)) = events w.
Proof.
  destruct w as [evs script ps sl]. unfold query_subgraph.
  destruct script as [| [| |] [| [| |] [| [| |] s3]]];
    cbn; rewrite <- ?app_assoc;
    first
      [ solve [exists 1%nat, 0%nat; cbn; rewrite ?app_nil_r; repeat split; auto; lia]
      | solve [exists 2%nat, 1%nat; cbn; repeat split; auto; lia]
      | solve [exists 3%nat, 2%nat; cbn; repeat split; auto; lia]
      | solve [exists 3%nat, 3%nat; cbn; repeat split; auto; lia] ].
Qed.

(** What is committed stays committed through the loop. *)
Lemma extract_loop_durable (rt : Runtime) (fuel : nat) :
  forall w c last_id n w' c' o,
    committed c = working c ->
    extract_loop rt fuel w c last_id n = Some (w', c', o) ->
    committed c' = working c' /\ exists more, committed c' = committed c ++ more.
Proof.
  induction fuel as [| fuel IH]; intros w c last_id n w' c' o K; [discriminate |].
  rewrite extract_loop_S.
  destruct (extract_trades_batch w last_id) as [w1 trades].
  destruct trades as [| t trades].
  - intros [= <- <- <-]. split; [exact K |]. exists []. now rewrite app_nil_r.
  - unfold insert_trades.
    destruct (values_of rt (t :: trades)) as [values |].
    + intros L. apply IH in L; [| reflexivity]. destruct L as [K' (more & E)].
      split; [exact K' |]. rewrite E. cbn [commit execute_values committed working].
      destruct (insert_ignoring values (working c)) as (fresh & -> & _).
      exists (fresh ++ more). now rewrite K, app_assoc.
    + intros [= <- <- <-]. split; [exact K |]. exists []. now rewrite app_nil_r.
Qed.

(** C5, as the code has it.  A query is posted at most three times; after
    each POST that raises the script sleeps 1s, 2s, then 4s, the last sleep
    coming after the third POST; an answer that carries errors is not
    posted again.  A page request that ends without data counts as an empty
    page: the loop stops and the run ends with its final report, with the
    connection as it was.  What was committed stays committed, and a run
    that finds fewer rows than the source counts starts its loop with the
    maximum stored id as cursor. *)
Theorem failed_page_request_ends_the_run (rt : Runtime) :
  (forall w q, exists k f,
      (1 <= k <= 3)%nat /\ (f <= k)%nat /\
      posted (fst (query_subgraph w q)) = posted w ++ repeat q k /\
      slept (fst (query_subgraph w q)) = slept w ++ firstn f [1; 2; 4]%Q) /\
  (forall w q script,
      coming w = Raises :: Raises :: Raises :: script ->
      query_subgraph w q = (exhausted w q script, None)) /\
  (forall w q script,
      coming w = WithErrors :: script ->
      snd (query_subgraph w q) = None /\
      posted (fst (query_subgraph w q)) = posted w ++ [q] /\
      slept (fst (query_subgraph w q)) = slept w) /\
  (forall fuel w c last_id n script,
      coming w = Raises :: Raises :: Raises :: script ->
      extract_loop rt (S fuel) w c last_id n
      = Some (exhausted w (PageQuery BATCH_SIZE (where_of last_id)) script, c,
              ExtractionComplete (get_trade_count c) n)) /\
  (forall fuel w c last_id n w' c' o,
      committed c = working c ->
      extract_loop rt fuel w c last_id n = Some (w', c', o) ->
      committed c' = working c' /\ exists more, committed c' = committed c ++ more) /\
  (forall fuel w c,
      Z.of_nat (get_trade_count c) < snd (get_total_trades w) ->
      main rt fuel w c
      = extract_loop rt fuel (fst (get_total_trades w)) c (get_last_trade_id c) 0).
Proof.
  split; [| split; [| split; [| split; [| split]]]].
  - intros w q. destruct (query_is_bounded w q) as (k & f & H1 & H2 & H3 & H4 & _).
    exists k, f. auto.
  - apply query_exhausts.
  - intros w q script C. now rewrite (query_with_errors _ _ _ C).
  - intros fuel w c last_id n script C.
    rewrite extract_loop_S. unfold extract_trades_batch. fold (where_of last_id).
    now rewrite (query_exhausts _ _ _ C).
  - apply extract_loop_durable.
  - intros fuel w c H. unfold main.
    destruct (get_total_trades w) as [w1 total]. simpl in *.
    destruct (total <=? Z.of_nat (get_trade_count c)) eqn:Q; [| reflexivity].
    apply Z.leb_le in Q. lia.
Qed.

Lemma failed_page_request_ends_the_run_witness :
  extract_loop Reference.runtime (S 4)
    (source (feed 3) [Raises; Raises; Raises]) (holding []) "" 0
  = Some (exhausted (source (feed 3) [Raises; Raises; Raises])
            (PageQuery BATCH_SIZE (where_of "")) [],
          holding [], ExtractionComplete (get_trade_count (holding [])) 0).
Proof.
  exact (proj1 (proj2 (proj2 (proj2
           (failed_page_request_ends_the_run Reference.runtime))))
           4%nat (source (feed 3) [Raises; Raises; Raises]) (holding []) "" 0%nat []
           eq_refl).
Defined.

(** The first page request of a fresh run raises three times: the run ends
    with the final report, nothing stored of the three events, and no
    exception leaves [main]. *)
Lemma retry_exhaustion_is_reported_as_complete :
  option_map snd
    (main Reference.runtime 5
       (source (feed 3) [Answers; Raises; Raises; Raises]) (holding []))
  = Some (ExtractionComplete 0 0) /\
  option_map (fun r => (posted (fst (fst r)), slept (fst (fst r))))
    (main Reference.runtime 5
       (source (feed 3) [Answers; Raises; Raises; Raises]) (holding []))
  = Some ([TotalQuery; PageQuery 1000 None; PageQuery 1000 None; PageQuery 1000 None],
          [1; 2; 4]%Q) /\
  option_map snd
    (main Reference.runtime 5
       (source (feed 3) [Answers; Raises; Raises; Raises]) (holding []))
  <> Some Uncaught.
Proof.
  vm_compute. repeat split; try reflexivity. discriminate.
Qed.

End ExtractorSpec.

(** * Further code of the scripts *)

From Stdlib Require Import FinFun.

(** ** Slices and ranges

    [subscribe] of the collector and [run] of the poller go through a list
    with [for i in range(0, len(l), n): batch = l[i:i+n]]. *)
Module Slices.

(** [range(0, stop, step)] for a positive [step]: its length is
    [(stop + step - 1) // step], its [k]-th element [k * step]. *)
Definition py_range (stop step : nat) : list nat :=
  map (fun k => (k * step)%nat) (seq 0 ((stop + step - 1) / step)).

(** [l[i:j]] for [0 <= i <= j]. *)
Definition slice {A : Type} (l : list A) (i j : nat) : list A :=
  firstn (j - i) (skipn i l).

(** The values [batch] takes in the loop. *)
Definition batches {A : Type} (n : nat) (l : list A) : list (list A) :=
  map (fun i => slice l i (i + n)) (py_range (List.length l) n).

End Slices.

(** ** scripts/websocket_collector.py: discovery and subscription *)
Module Subscription.
Import Slices.

(** The connection [ws]: the messages sent on it, each as the object given
    to [json.dumps], and the number of sends it still carries before
    [ws.send] raises. *)
Record websocket : Type := {
  sent : list value;
  carries : nat
}.

Definition send (ws : websocket) (message : value) : option websocket :=
  match carries ws with
  | O => None
  | S k => Some {| sent := sent ws ++ [message]; carries := k |}
  end.

Section Discovery.
Variable rt : Runtime.

(** The loop of lines 116-123 of [get_active_markets]; [None] when an
    exception leaves it. *)
Fixpoint collect (markets : list value) (tokens : list value) : option (list value) :=
  match markets with
  | [] => Some tokens
  | m :: markets' =>
      do token_ids <- get m "clobTokenIds" PNone;
      collect markets'
        (if truthy token_ids then
           match (do ids <- loads rt token_ids; iter ids) with
           | Some items => tokens ++ items
           | None => tokens
           end
         else tokens)
  end.

(** [get_active_markets], given what [resp.json()] returned ([None] when
    the request raised). *)
Definition get_active_markets (resp : option value) : list value :=
  match resp with
  | Some markets =>
      match iter markets with
      | Some ms =>
          match collect ms [] with
          | Some tokens => tokens
          | None => []
          end
      | None => []
      end
  | None => []
  end.

End Discovery.

(** [self.subscribed_tokens] is a Python set; [update] is its method: the
    set after the call, and whether the call returned ([false] when it
    raised on an item that cannot be hashed, the items before it added). *)
Section Subscribe.
Variable pyset : Type.
Variable update : pyset -> list value -> pyset * bool.

(** What [subscribe] has done when it returns or raises. *)
Record subscribing : Type := {
  ws : websocket;
  subscribed_tokens : pyset;
  naps : list Q;     (* the arguments of asyncio.sleep *)
  raised : bool
}.

Definition sub_msg (batch : list value) : value :=
  PDict [("type", PStr "market"); ("assets_ids", PList batch)].

Definition interrupted (st : subscribing) (w : websocket) (tokens : pyset)
  : subscribing :=
  {| ws := w; subscribed_tokens := tokens; naps := naps st; raised := true |}.

(** The body of the loop of [subscribe], over the batches. *)
Fixpoint subscribe_loop (bs : list (list value)) (st : subscribing) : subscribing :=
  match bs with
  | [] => st
  | batch :: bs' =>
      match send (ws st) (sub_msg batch) with
      | None => interrupted st (ws st) (subscribed_tokens st)
      | Some w1 =>
          let (set1, returned) := update (subscribed_tokens st) batch in
          if returned then
            subscribe_loop bs'
              {| ws := w1; subscribed_tokens := set1;
                 naps := naps st ++ [1 # 2]; raised := false |}
          else interrupted st w1 set1
      end
  end.

Definition subscribe (w : websocket) (tokens : pyset) (token_ids : list value)
  : subscribing :=
  subscribe_loop (batches 50 token_ids)
    {| ws := w; subscribed_tokens := tokens; naps := []; raised := false |}.

End Subscribe.

End Subscription.

(** ** scripts/orderbook_poller.py: one cycle *)
Module Cycle.
Import Slices Poller.

Section Cycle.
Variable rt : Runtime.

(** The [for i in range(0, len(tokens), BATCH_SIZE)] loop of [run], lines
    157-169, while the poller is running: every target comes with what the
    venue does for it in this cycle; [sleeps] collects the arguments of the
    [asyncio.sleep] after each batch. *)
Fixpoint cycle_loop (bs : list (list (target * exchange))) (self : OrderbookPoller)
    (sleeps : list Z) : OrderbookPoller * list Z :=
  match bs with
  | [] => (self, sleeps)
  | batch :: bs' =>
      cycle_loop bs' (run_batch rt self batch) (sleeps ++ [BATCH_DELAY])
  end.

Definition run_cycle (self : OrderbookPoller) (tokens : list (target * exchange))
  : OrderbookPoller * list Z :=
  cycle_loop (batches BATCH_SIZE tokens) self [].

End Cycle.

End Cycle.

(** * Properties of the further code *)

(** ** Batches *)
Module SlicesSpec.
Import Slices.

Lemma firstn_add {A : Type} (a b : nat) :
  forall l : list A, firstn (a + b) l = firstn a l ++ firstn b (skipn a l).
Proof.
  induction a as [| a IH]; intros l; simpl; [reflexivity |].
  destruct l as [| x l]; simpl.
  - now rewrite firstn_nil.
  - now rewrite IH.
Qed.

Lemma concat_slices {A : Type} (n : nat) (l : list A) (c : nat) :
  List.concat (map (fun i => slice l i (i + n)) (map (fun k => (k * n)%nat) (seq 0 c)))
  = firstn (c * n) l.
Proof.
  induction c as [| c IH]; [reflexivity |].
  rewrite seq_S, !map_app, concat_app, IH. simpl.
  unfold slice. rewrite app_nil_r.
  replace (c * n + n - c * n)%nat with n by lia.
  rewrite <- firstn_add. f_equal. lia.
Qed.

Lemma batch_count_covers (len n : nat) :
  (0 < n)%nat -> (len <= (len + n - 1) / n * n)%nat.
Proof.
  intros P. pose proof (Nat.div_mod_eq (len + n - 1) n) as D.
  pose proof (Nat.mod_upper_bound (len + n - 1) n) as U. nia.
Qed.

Lemma batch_count_tight (len n : nat) :
  (0 < n)%nat -> ((len + n - 1) / n * n < len + n)%nat.
Proof.
  intros P. pose proof (Nat.div_mod_eq (len + n - 1) n) as D. nia.
Qed.

(** The batches, put end to end, are the list. *)
Lemma concat_batches {A : Type} (n : nat) (l : list A) :
  (0 < n)%nat -> List.concat (batches n l) = l.
Proof.
  intros P. unfold batches, py_range. rewrite concat_slices.
  apply firstn_all2. now apply batch_count_covers.
Qed.

Lemma batches_length {A : Type} (n : nat) (l : list A) :
  List.length (batches n l) = ((List.length l + n - 1) / n)%nat.
Proof. unfold batches, py_range. now rewrite !length_map, length_seq. Qed.

(** Every batch has at least one and at most [n] items. *)
Lemma batches_sizes {A : Type} (n : nat) (l : list A) :
  (0 < n)%nat ->
  Forall (fun b => (1 <= List.length b <= n)%nat) (batches n l).
Proof.
  intros P. unfold batches, py_range. rewrite Forall_forall. intros b I.
  apply in_map_iff in I. destruct I as (i & <- & I).
  apply in_map_iff in I. destruct I as (k & <- & I).
  apply in_seq in I. unfold slice.
  rewrite length_firstn, length_skipn.
  pose proof (batch_count_tight (List.length l) n P) as T.
  replace (k * n + n - k * n)%nat with n by lia. nia.
Qed.

End SlicesSpec.

(** ** The stream collector over any sequence of messages *)
Module CollectorMore.
Import Storage Collector.

(** No transaction is open on the connection. *)
Definition settled (c : connection) : Prop := working c = committed c.

(** The serial values [s+1, ..., s+n]. *)
Definition serials (s : Z) (n : nat) : list Z :=
  map (fun k => s + Z.of_nat k) (seq 1 n).

Lemma number_ids {A : Type} (rows : list A) :
  forall s, map fst (number s rows) = serials s (List.length rows).
Proof.
  unfold serials. induction rows as [| r rows IH]; intros s; [reflexivity |].
  cbn [number map fst List.length seq]. rewrite IH.
  rewrite <- (seq_shift (List.length rows) 1), map_map. f_equal.
  apply map_ext. intros k. lia.
Qed.

Lemma serials_app (s : Z) (n m : nat) :
  serials s (n + m) = serials s n ++ serials (s + Z.of_nat n) m.
Proof.
  unfold serials. rewrite seq_app, map_app. f_equal.
  generalize 1%nat. induction m as [| m IH]; intros a; [reflexivity |].
  simpl. f_equal; [lia |]. apply (IH (S a)).
Qed.

(** Ids that grow from row to row, above [lo] and up to [hi]. *)
Definition climbing (lo hi : Z) (ids : list Z) : Prop :=
  StronglySorted Z.lt ids /\ Forall (fun i => lo < i <= hi) ids.

Lemma serials_S (s : Z) (n : nat) :
  serials s (S n) = (s + 1) :: serials (s + 1) n.
Proof.
  unfold serials. cbn [seq map]. f_equal.
  rewrite <- seq_shift, map_map. apply map_ext. intros k. lia.
Qed.

Lemma serials_climbing (s : Z) (n : nat) :
  climbing s (s + Z.of_nat n) (serials s n).
Proof.
  unfold climbing. revert s. induction n as [| n IH]; intros s.
  - split; constructor.
  - rewrite serials_S. destruct (IH (s + 1)) as [S F]. split.
    + constructor; [exact S |].
      eapply Forall_impl; [| exact F]. simpl. intros i Hi. lia.
    + constructor; [lia |].
      eapply Forall_impl; [| exact F]. simpl. intros i Hi. lia.
Qed.

Lemma climbing_app (lo mid hi : Z) (a b : list Z) :
  climbing lo mid a -> climbing mid hi b -> lo <= mid <= hi ->
  climbing lo hi (a ++ b).
Proof.
  intros [Sa Fa] [Sb Fb] O. split.
  - clear - Sa Fa Sb Fb. induction a as [| x a IH]; [exact Sb |].
    simpl. inversion Sa as [| ? ? Sa' Fx]; subst.
    inversion Fa as [| ? ? Hx Fa']; subst.
    constructor; [now apply IH |].
    apply Forall_app. split; [exact Fx |].
    eapply Forall_impl; [| exact Fb]. simpl. intros y Hy. lia.
  - apply Forall_app. split.
    + eapply Forall_impl; [| exact Fa]. simpl. intros y Hy. lia.
    + eapply Forall_impl; [| exact Fb]. simpl. intros y Hy. lia.
Qed.

Lemma climbing_nil (lo hi : Z) : climbing lo hi [].
Proof. split; constructor. Qed.

(** From [s] to [s'] the rows [b], [t] and [p] were added to the three
    stored tables, with the serials that follow those of [s], the counters
    grew by their numbers, and no transaction is open in [s']. *)
Definition advance (s s' : WebSocketCollector) (b : list (Z * Z * snapshot_row))
    (t : list (Z * trade_row)) (p : list (Z * change_row)) : Prop :=
  settled (conn s') /\
  server (conn s') = server (conn s) /\
  orderbook_snapshots (committed (conn s'))
  = orderbook_snapshots (committed (conn s)) ++ b /\
  realtime_trades (committed (conn s')) = realtime_trades (committed (conn s)) ++ t /\
  price_changes (committed (conn s')) = price_changes (committed (conn s)) ++ p /\
  map (fun e => fst (fst e)) b = serials (ob_seq (conn s)) (List.length b) /\
  map fst t = serials (rt_seq (conn s)) (List.length t) /\
  climbing (pc_seq (conn s)) (pc_seq (conn s')) (map fst p) /\
  ob_seq (conn s') = ob_seq (conn s) + Z.of_nat (List.length b) /\
  rt_seq (conn s') = rt_seq (conn s) + Z.of_nat (List.length t) /\
  pc_seq (conn s) <= pc_seq (conn s') /\
  books (counters s') = books (counters s) + Z.of_nat (List.length b) /\
  trades (counters s') = trades (counters s) + Z.of_nat (List.length t) /\
  changes (counters s') = changes (counters s) + Z.of_nat (List.length p).

Lemma advance_refl (s : WebSocketCollector) :
  settled (conn s) -> advance s s [] [] [].
Proof.
  intros S. unfold advance. simpl. rewrite !app_nil_r, !Z.add_0_r.
  repeat split; try reflexivity; try exact S; try constructor; lia.
Qed.

Lemma advance_trans (s s1 s2 : WebSocketCollector) b t p b' t' p' :
  advance s s1 b t p -> advance s1 s2 b' t' p' ->
  advance s s2 (b ++ b') (t ++ t') (p ++ p').
Proof.
  intros (_ & A0 & A1 & A2 & A3 & A4 & A5 & A6 & A7 & A8 & A9 & A10 & A11 & A12)
         (S & B0 & B1 & B2 & B3 & B4 & B5 & B6 & B7 & B8 & B9 & B10 & B11 & B12).
  unfold advance. rewrite !map_app, !length_app, !Nat2Z.inj_add, !serials_app.
  rewrite B1, B2, B3, B4, B5, B7, B8, B10, B11, B12.
  rewrite A1, A2, A3, A4, A5, A7, A8, A10, A11, A12.
  rewrite <- !app_assoc, !Z.add_assoc.
  split; [exact S |]. split; [congruence |].
  repeat (split; [reflexivity |]).
  split; [apply (climbing_app _ (pc_seq (conn s1))); auto; lia |].
  repeat (split; [first [reflexivity | lia] |]). reflexivity.
Qed.

Ltac settle_tables S :=
  unfold settled in *; simpl; rewrite ?S; simpl;
  rewrite ?app_nil_r, ?Z.add_0_r;
  repeat split; try reflexivity; try solve [constructor]; try lia.

Lemma store_book_snapshot_advances (rt : Runtime) (s : WebSocketCollector)
    (data : value) :
  settled (conn s) ->
  exists b, advance s (store_book_snapshot rt s data) b [] [] /\
            (List.length b <= 1)%nat.
Proof.
  intros S. unfold store_book_snapshot.
  destruct (book_row rt data) as [row |].
  - unfold insert_snapshot. destruct (snapshot_accepted (conn s) row).
    + exists [(ob_seq (conn s) + 1, txn (conn s), row)]. split; [| simpl; lia].
      unfold advance. settle_tables S.
    + exists []. split; [| simpl; lia]. unfold advance. settle_tables S.
  - exists []. split; [| simpl; lia]. unfold advance. settle_tables S.
Qed.

Lemma store_trade_advances (rt : Runtime) (s : WebSocketCollector) (data : value) :
  settled (conn s) ->
  exists t, advance s (store_trade rt s data) [] t [] /\ (List.length t <= 1)%nat.
Proof.
  intros S. unfold store_trade.
  destruct (trade_row_of rt data) as [row |].
  - unfold insert_trade. destruct (trade_accepted (conn s) row).
    + exists [(rt_seq (conn s) + 1, row)]. split; [| simpl; lia].
      unfold advance. settle_tables S.
    + exists []. split; [| simpl; lia]. unfold advance. settle_tables S.
  - exists []. split; [| simpl; lia]. unfold advance. settle_tables S.
Qed.

(** [execute_values] returns with all the rows inserted, or raises with the
    rows of the pages before the refused one inserted. *)
Lemma insert_changes_cases (c : connection) (rows : list change_row) :
  let c0 := logged c (ExecuteValues "price_changes" (List.length rows)) in
  insert_changes c rows = (CollectorSpec.with_changes c0 rows, true) \/
  exists done, insert_changes c rows = (CollectorSpec.with_changes c0 done, false).
Proof.
  intros c0. unfold insert_changes. fold c0.
  destruct (CollectorSpec.insert_pages_result (paginate [] PAGE_SIZE rows) c0)
    as (done & E & (before & rest & P & D & R) & _).
  destruct (insert_pages c0 (paginate [] PAGE_SIZE rows)) as [c1 ok].
  cbn [fst snd] in *. subst c1. destruct ok.
  - left. rewrite (R eq_refl), app_nil_r in P. subst done.
    rewrite <- P, CollectorSpec.paginate_concat. reflexivity.
  - right. now exists done.
Qed.

Lemma store_price_change_advances (rt : Runtime) (s : WebSocketCollector)
    (data : value) :
  settled (conn s) ->
  exists p, advance s (store_price_change rt s data) [] [] p.
Proof.
  intros S. unfold store_price_change.
  destruct (change_values rt data) as [[| r rows] |].
  - exists []. now apply advance_refl.
  - destruct (insert_changes_cases (conn s) (r :: rows)) as [E | (done & E)];
      rewrite E.
    + exists (number (pc_seq (conn s)) (r :: rows)).
      unfold advance. unfold settled in *.
      cbn [conn counters commit CollectorSpec.with_changes logged committed working
           server orderbook_snapshots realtime_trades price_changes
           ob_seq rt_seq pc_seq books trades changes List.length map].
      rewrite S, !app_nil_r, !Z.add_0_r, number_ids, CollectorSpec.number_length.
      repeat split; try reflexivity; try lia.
      * pose proof (serials_climbing (pc_seq (conn s)) (List.length (r :: rows))) as C.
        apply C.
      * pose proof (serials_climbing (pc_seq (conn s)) (List.length (r :: rows))) as C.
        apply C.
    + exists [].
      unfold advance. unfold settled in *.
      cbn [conn counters with_conn rollback CollectorSpec.with_changes logged committed
           working server orderbook_snapshots realtime_trades price_changes
           ob_seq rt_seq pc_seq books trades changes List.length map].
      rewrite !app_nil_r, !Z.add_0_r.
      repeat split; try reflexivity; try constructor; lia.
  - exists []. unfold advance. settle_tables S.
Qed.

Lemma process_event_advances (rt : Runtime) (s : WebSocketCollector) (data : value) :
  settled (conn s) -> exists b t p, advance s (_process_event rt s data) b t p.
Proof.
  intros S. unfold _process_event.
  destruct data as [| | | | | | kv];
    try (exists [], [], []; now apply advance_refl).
  set (et := match lookup "event_type" kv with Some v => v | None => PNone end).
  destruct (eq_str et "book").
  { destruct (store_book_snapshot_advances rt s (PDict kv) S) as (b & A & _).
    now exists b, [], []. }
  destruct (eq_str et "last_trade_price").
  { destruct (store_trade_advances rt s (PDict kv) S) as (t & A & _).
    now exists [], t, []. }
  destruct (eq_str et "price_change").
  { destruct (store_price_change_advances rt s (PDict kv) S) as (p & A).
    now exists [], [], p. }
  exists [], [], []. now apply advance_refl.
Qed.

Lemma fold_events_advance (rt : Runtime) (items : list value) :
  forall s, settled (conn s) ->
    exists b t p, advance s (fold_left (_process_event rt) items s) b t p.
Proof.
  induction items as [| x items IH]; intros s S; simpl.
  - exists [], [], []. now apply advance_refl.
  - destruct (process_event_advances rt s x S) as (b & t & p & A).
    destruct (IH _ (proj1 A)) as (b' & t' & p' & A').
    exists (b ++ b'), (t ++ t'), (p ++ p'). eapply advance_trans; eassumption.
Qed.

Lemma handle_message_advances (rt : Runtime) (s : WebSocketCollector)
    (message : string) :
  settled (conn s) -> exists b t p, advance s (handle_message rt s message) b t p.
Proof.
  intros S. unfold handle_message.
  destruct (json_loads rt message) as [data |];
    [| exists [], [], []; now apply advance_refl].
  destruct data; try (now apply process_event_advances).
  now apply fold_events_advance.
Qed.

Lemma messages_advance (rt : Runtime) (messages : list string) :
  forall s, settled (conn s) ->
    exists b t p, advance s (fold_left (handle_message rt) messages s) b t p.
Proof.
  induction messages as [| m messages IH]; intros s S; simpl.
  - exists [], [], []. now apply advance_refl.
  - destruct (handle_message_advances rt s m S) as (b & t & p & A).
    destruct (IH _ (proj1 A)) as (b' & t' & p' & A').
    exists (b ++ b'), (t ++ t'), (p ++ p'). eapply advance_trans; eassumption.
Qed.

(** *** What any sequence of messages keeps *)

(** X1. Handling any sequence of messages on a connection without open
    transaction leaves none open and only appends to the three stored
    tables: the rows stored before are still there, unchanged and in place. *)
Theorem stored_rows_are_only_appended (rt : Runtime) (self : WebSocketCollector)
    (messages : list string) :
  settled (conn self) ->
  let self' := fold_left (handle_message rt) messages self in
  settled (conn self') /\
  (exists more, orderbook_snapshots (committed (conn self'))
                = orderbook_snapshots (committed (conn self)) ++ more) /\
  (exists more, realtime_trades (committed (conn self'))
                = realtime_trades (committed (conn self)) ++ more) /\
  (exists more, price_changes (committed (conn self'))
                = price_changes (committed (conn self)) ++ more).
Proof.
  intros S self'.
  destruct (messages_advance rt messages self S)
    as (b & t & p & S' & _ & E1 & E2 & E3 & _).
  split; [exact S' |]. split; [| split]; eexists; eassumption.
Qed.

(** Two book events with an undecodable text between them. *)
Definition noisy_messages : list string :=
  [Reference.text_of CollectorSpec.sample_book; "not json";
   Reference.text_of (PList [CollectorSpec.sample_trade; CollectorSpec.sample_book])].

Lemma stored_rows_are_only_appended_witness :
  settled (conn fresh) /\
  settled (conn (fold_left (handle_message Reference.runtime) noisy_messages fresh)).
Proof.
  assert (S : settled (conn fresh)) by reflexivity.
  split; [exact S |].
  exact (proj1 (stored_rows_are_only_appended Reference.runtime fresh
                  noisy_messages S)).
Defined.

(** X2. Over any sequence of messages each counter of [stats] grows by
    exactly the number of rows added to its table: [books] with the stored
    snapshots, [trades] with the stored trades, [price_changes] with the
    stored price changes. *)
Theorem counters_count_the_stored_rows (rt : Runtime) (self : WebSocketCollector)
    (messages : list string) :
  settled (conn self) ->
  let self' := fold_left (handle_message rt) messages self in
  let added {A : Type} (table : tables -> list A) :=
    Z.of_nat (List.length (table (committed (conn self'))))
    - Z.of_nat (List.length (table (committed (conn self)))) in
  books (counters self') - books (counters self) = added orderbook_snapshots /\
  trades (counters self') - trades (counters self) = added realtime_trades /\
  changes (counters self') - changes (counters self) = added price_changes.
Proof.
  intros S self' added. subst added. cbv beta.
  destruct (messages_advance rt messages self S)
    as (b & t & p & _ & _ & E1 & E2 & E3 & _ & _ & _ & _ & _ & _ & C1 & C2 & C3).
  fold self' in E1, E2, E3, C1, C2, C3.
  rewrite E1, E2, E3, C1, C2, C3, !length_app.
  lia.
Qed.

Lemma counters_count_the_stored_rows_witness :
  settled (conn fresh) /\
  books (counters (fold_left (handle_message Reference.runtime) noisy_messages fresh))
  - books (counters fresh)
  = Z.of_nat (List.length
                (orderbook_snapshots
                   (committed
                      (conn (fold_left (handle_message Reference.runtime)
                               noisy_messages fresh)))))
    - Z.of_nat (List.length (orderbook_snapshots (committed (conn fresh)))).
Proof.
  assert (S : settled (conn fresh)) by reflexivity.
  split; [exact S |].
  exact (proj1 (counters_count_the_stored_rows Reference.runtime fresh
                  noisy_messages S)).
Defined.




(** An event of 150 price changes of which the 120th names its asset by an
    object, which the driver cannot adapt. *)
Definition plain_delta (k : nat) : value :=
  PDict [("asset_id", PStr (ExtractorSpec.id_of k)); ("price", PStr "0.46");
         ("size", PStr "25"); ("side", PStr "BUY")].

Definition long_change : value :=
  PDict [("event_type", PStr "price_change"); ("timestamp", PStr "1700000000000");
         ("price_changes",
          PList (map plain_delta (seq 1 119)
                 ++ PDict [("asset_id", PDict []); ("price", PStr "0.46");
                           ("size", PStr "25"); ("side", PStr "BUY")]
                 :: map plain_delta (seq 121 30)))].

(** The first page of 100 rows is executed and draws the serials 1 to 100
    before the second page raises; the event is rolled back, and the next
    price change stored gets the id 101. *)
Example rolled_back_page_leaves_a_gap :
  let self1 := store_price_change Reference.runtime fresh long_change in
  let self2 := store_price_change Reference.runtime self1 CollectorSpec.sample_change in
  price_changes (committed (conn self1)) = [] /\
  changes (counters self1) = 0 /\
  calls (conn self1) = [ExecuteValues "price_changes" 150; Rollback] /\
  pc_seq (conn self1) = 100 /\
  price_changes (committed (conn self2)) = [(101, CollectorSpec.sample_change_row)] /\
  changes (counters self2) = 1.
Proof. vm_compute. repeat split; reflexivity. Qed.

(** *** Sessions and reconnects *)

(** The messages received over the attempts of a run, in order. *)
Definition received (attempts : list attempt) : list string :=
  flat_map (fun a => match a with
                     | ConnectFails => []
                     | Session messages => messages
                     end) attempts.

(** X4. What a run leaves in the collector depends only on the messages
    received, in their order: failed connects add nothing, and cutting the
    same messages into sessions differently changes nothing. *)
Theorem run_handles_the_received_messages (rt : Runtime)
    (self : WebSocketCollector) (attempts : list attempt) :
  fst (run rt self attempts) = fold_left (handle_message rt) (received attempts) self.
Proof.
  unfold run. generalize 1 at 1. generalize (@nil Z). revert self.
  induction attempts as [| a attempts IH]; intros self sleeps d; [reflexivity |].
  destruct a as [| messages]; cbn [run_loop received flat_map].
  - apply IH.
  - rewrite fold_left_app. apply IH.
Qed.

(** X5. A run sleeps once after every attempt, never less than 1s and
    never more than 60s. *)
Theorem reconnect_waits_are_bounded (rt : Runtime) (self : WebSocketCollector)
    (attempts : list attempt) :
  List.length (snd (run rt self attempts)) = List.length attempts /\
  Forall (fun d => 1 <= d <= 60) (snd (run rt self attempts)).
Proof.
  unfold run. rewrite CollectorSpec.run_loop_sleeps. simpl.
  assert (H : forall d, 1 <= d <= 60 ->
            List.length (CollectorSpec.delays d attempts) = List.length attempts /\
            Forall (fun d => 1 <= d <= 60) (CollectorSpec.delays d attempts)).
  { induction attempts as [| a attempts IH]; intros d Hd; simpl.
    - split; [reflexivity | constructor].
    - destruct a as [| messages].
      + destruct (IH (Z.min (d * 2) 60)) as [L F]; [lia |].
        split; [now rewrite L | constructor; [lia | exact F]].
      + destruct (IH (Z.min (1 * 2) 60)) as [L F]; [lia |].
        split; [now rewrite L | constructor; [lia | exact F]]. }
  apply H. lia.
Qed.

(** *** Missing keys *)

Lemma best_without_price (rt : Runtime) (b : value) (bs : list value) :
  getitem b "price" = None -> best rt (PList (b :: bs)) = None.
Proof. intros G. unfold best. simpl. now rewrite G. Qed.

Lemma depth_snoc (rt : Runtime) (levels : list value) (b : value) :
  depth rt (PList (levels ++ [b]))
  = do a <- depth rt (PList levels);
    do sz <- get b "size" (PInt 0);
    do s <- py_float rt sz;
    do pr <- get b "price" (PInt 0);
    do p <- py_float rt pr;
    Some (a + s * p)%float.
Proof. unfold depth. simpl. now rewrite fold_left_app. Qed.

(** X6. A book event whose best bid level, or best ask level, has no
    [price] key is not stored: the call rolls back and leaves the committed
    tables and the counters as they were.  In a level after the others the
    same missing key is no error: that level counts with price 0 in the
    depth of its side. *)
Theorem best_level_without_price_drops_the_book (rt : Runtime)
    (self : WebSocketCollector) (data b : value) (bs : list value) :
  get data "bids" (PList []) = Some (PList (b :: bs))
  \/ get data "asks" (PList []) = Some (PList (b :: bs)) ->
  getitem b "price" = None ->
  CollectorSpec.dropped self (store_book_snapshot rt self data) /\
  (forall levels kv sz s d,
      depth rt (PList levels) = Some d ->
      lookup "price" kv = None ->
      get (PDict kv) "size" (PInt 0) = Some sz -> py_float rt sz = Some s ->
      depth rt (PList (levels ++ [PDict kv])) = Some (d + s * 0)%float).
Proof.
  intros H G. split.
  - assert (R : book_row rt data = None).
    { unfold book_row.
      destruct (get data "asset_id" PNone); [| reflexivity].
      destruct (get data "timestamp" (PInt 0)) as [ts |]; [| reflexivity].
      destruct (py_int rt ts); [| reflexivity].
      unfold snapshot_params.
      destruct H as [-> | H].
      - destruct (get data "asks" (PList [])) as [asks |]; [| reflexivity].
        destruct (depth rt (PList (b :: bs))); [| reflexivity].
        destruct (depth rt asks); [| reflexivity].
        now rewrite (best_without_price rt b bs G).
      - destruct (get data "bids" (PList [])) as [bids |]; [| reflexivity].
        rewrite H.
        destruct (depth rt bids); [| reflexivity].
        destruct (depth rt (PList (b :: bs))); [| reflexivity].
        destruct (best rt bids); [| reflexivity].
        now rewrite (best_without_price rt b bs G). }
    unfold CollectorSpec.dropped, store_book_snapshot. rewrite R. simpl. auto.
  - intros levels kv sz s d D P Sz F.
    rewrite depth_snoc, D, Sz, F. simpl. rewrite P. reflexivity.
Qed.

(** A book whose best bid was sent without its price. *)
Definition priceless_book : value :=
  PDict [("event_type", PStr "book"); ("asset_id", PStr "tokA");
         ("timestamp", PStr "1700000000000");
         ("bids", PList [PDict [("size", PStr "100")];
                         PDict [("price", PStr "0.44"); ("size", PStr "10")]]);
         ("asks", PList [PDict [("price", PStr "0.55"); ("size", PStr "50")]])].

Lemma best_level_without_price_drops_the_book_witness :
  CollectorSpec.dropped fresh (store_book_snapshot Reference.runtime fresh priceless_book).
Proof.
  exact (proj1 (best_level_without_price_drops_the_book Reference.runtime fresh
                  priceless_book (PDict [("size", PStr "100")])
                  [PDict [("price", PStr "0.44"); ("size", PStr "10")]]
                  (or_introl eq_refl) eq_refl)).
Defined.

(** X7. An event that carries none of [timestamp], [price], [size],
    [bids], [asks] is handled with the defaults of the lookups, and stored
    with them when the database takes the row: as a trade at time 0 with
    price 0.0 and size 0.0, as a book at time 0 with two empty sides, no
    best price, no spread and depth 0. *)
Theorem missing_keys_are_stored_as_defaults (rt : Runtime)
    (self : WebSocketCollector) (kv : list (string * value)) :
  lookup "timestamp" kv = None ->
  lookup "price" kv = None -> lookup "size" kv = None ->
  lookup "bids" kv = None -> lookup "asks" kv = None ->
  let field k := match lookup k kv with Some v => v | None => PNone end in
  let trade :=
    {| rt_token_id := field "asset_id"; rt_timestamp := 0;
       rt_price := 0%float; rt_size := 0%float;
       rt_side := field "side"; rt_fee_rate_bps := field "fee_rate_bps" |} in
  let book :=
    {| ob_token_id := field "asset_id"; ob_timestamp := 0;
       ob_bids := PList []; ob_asks := PList [];
       ob_best_bid := None; ob_best_ask := None; ob_spread := None;
       ob_bid_depth := 0%float; ob_ask_depth := 0%float |} in
  trade_row_of rt (PDict kv) = Some trade /\
  book_row rt (PDict kv) = Some book /\
  (trade_accepted (conn self) trade = true ->
   realtime_trades (committed (conn (store_trade rt self (PDict kv))))
   = realtime_trades (working (conn self)) ++ [(rt_seq (conn self) + 1, trade)]) /\
  (snapshot_accepted (conn self) book = true ->
   orderbook_snapshots (committed (conn (store_book_snapshot rt self (PDict kv))))
   = orderbook_snapshots (working (conn self))
     ++ [(ob_seq (conn self) + 1, txn (conn self), book)]).
Proof.
  intros T P Sz B A field trade book.
  assert (Rt : trade_row_of rt (PDict kv) = Some trade)
    by (unfold trade_row_of, get; rewrite T, P, Sz; reflexivity).
  assert (Rb : book_row rt (PDict kv) = Some book)
    by (unfold book_row, get; rewrite T, B, A; reflexivity).
  split; [exact Rt |]. split; [exact Rb |]. split.
  - intros F. exact (proj1 (CollectorSpec.store_trade_ok rt self (PDict kv) _ Rt F)).
  - intros F. exact (proj1 (BookSpec.collector_stores rt self (PDict kv) _ Rb F)).
Qed.

Lemma missing_keys_are_stored_as_defaults_witness :
  realtime_trades
    (committed (conn (store_trade Reference.runtime fresh
                        (PDict [("event_type", PStr "last_trade_price")]))))
  = realtime_trades (working (conn fresh))
    ++ [(rt_seq (conn fresh) + 1,
         {| rt_token_id := PNone; rt_timestamp := 0;
            rt_price := 0%float; rt_size := 0%float;
            rt_side := PNone; rt_fee_rate_bps := PNone |})].
Proof.
  exact (proj1 (proj2 (proj2
           (missing_keys_are_stored_as_defaults Reference.runtime fresh
              [("event_type", PStr "last_trade_price")]
              eq_refl eq_refl eq_refl eq_refl eq_refl))) eq_refl).
Defined.

(** The same event with its asset named by an object: the driver cannot
    adapt it, the INSERT raises and nothing is stored. *)
Example object_as_asset_id_is_not_stored :
  let event := PDict [("event_type", PStr "last_trade_price");
                      ("asset_id", PDict [("id", PStr "tokA")])] in
  let self' := store_trade Reference.runtime fresh event in
  realtime_trades (committed (conn self')) = [] /\
  trades (counters self') = 0 /\
  calls (conn self') = [Execute "realtime_trades"; Rollback].
Proof. vm_compute. repeat split; reflexivity. Qed.

End CollectorMore.

(** ** Discovery and subscription of the collector *)
Module SubscriptionSpec.
Import Slices Subscription.

(** *** [get_active_markets] *)

(** What one market adds to [tokens]; [None] when reading it raises. *)
Definition market_tokens (rt : Runtime) (m : value) : option (list value) :=
  do token_ids <- get m "clobTokenIds" PNone;
  Some (if truthy token_ids then
          match (do ids <- loads rt token_ids; iter ids) with
          | Some items => items
          | None => []
          end
        else []).

Lemma collect_cons (rt : Runtime) (m : value) (ms tokens : list value) :
  collect rt (m :: ms) tokens
  = do c <- market_tokens rt m; collect rt ms (tokens ++ c).
Proof.
  simpl. unfold market_tokens.
  destruct (get m "clobTokenIds" PNone) as [tids |]; [| reflexivity].
  destruct (truthy tids); [| now rewrite app_nil_r].
  destruct (do ids <- loads rt tids; iter ids); [reflexivity | now rewrite app_nil_r].
Qed.

Lemma collect_acc (rt : Runtime) (ms : list value) :
  forall tokens,
    collect rt ms tokens = do t <- collect rt ms []; Some (tokens ++ t).
Proof.
  induction ms as [| m ms IH]; intros tokens.
  - simpl. now rewrite app_nil_r.
  - rewrite !collect_cons. destruct (market_tokens rt m) as [c |]; [| reflexivity].
    rewrite (IH (tokens ++ c)), (IH ([] ++ c)). simpl.
    destruct (collect rt ms []); [| reflexivity]. now rewrite app_assoc.
Qed.

Lemma collect_app (rt : Runtime) (ms1 ms2 : list value) :
  forall tokens,
    collect rt (ms1 ++ ms2) tokens
    = do t <- collect rt ms1 tokens; collect rt ms2 t.
Proof.
  induction ms1 as [| m ms1 IH]; intros tokens; [reflexivity |].
  rewrite <- app_comm_cons, !collect_cons.
  destruct (market_tokens rt m); [apply IH | reflexivity].
Qed.

Definition is_dict (v : value) : Prop := exists kv, v = PDict kv.

Lemma collect_dicts (rt : Runtime) (ms : list value) :
  Forall is_dict ms -> exists t, collect rt ms [] = Some t.
Proof.
  induction 1 as [| m ms (kv & ->) _ (t & IH)].
  - now exists [].
  - rewrite collect_cons. unfold market_tokens. simpl.
    rewrite collect_acc, IH. eauto.
Qed.

(** X8. Over an answer whose markets are all objects, the tokens are
    gathered market by market, in order: the tokens of two lists of markets
    put together are the tokens of the first followed by those of the
    second; a market whose [clobTokenIds] decodes to a list gives the items
    of that list; a market where the key is missing or empty, or where its
    text does not decode, gives none and does not disturb the others. *)
Theorem tokens_are_gathered_market_by_market (rt : Runtime) (ms1 ms2 : list value) :
  Forall is_dict (ms1 ++ ms2) ->
  get_active_markets rt (Some (PList (ms1 ++ ms2)))
  = get_active_markets rt (Some (PList ms1))
    ++ get_active_markets rt (Some (PList ms2)) /\
  (forall kv token_ids ids,
      lookup "clobTokenIds" kv = Some token_ids -> truthy token_ids = true ->
      loads rt token_ids = Some (PList ids) ->
      get_active_markets rt (Some (PList [PDict kv])) = ids) /\
  (forall kv,
      lookup "clobTokenIds" kv = None
      \/ (exists token_ids,
             lookup "clobTokenIds" kv = Some token_ids /\
             (truthy token_ids = false \/ loads rt token_ids = None)) ->
      get_active_markets rt (Some (PList [PDict kv])) = []).
Proof.
  intros D. split; [| split].
  - apply Forall_app in D. destruct D as [D1 D2].
    destruct (collect_dicts rt ms1 D1) as (t1 & E1).
    destruct (collect_dicts rt ms2 D2) as (t2 & E2).
    unfold get_active_markets. simpl.
    now rewrite collect_app, E1, collect_acc, E2.
  - intros kv tids ids L T D'. unfold get_active_markets. simpl.
    now rewrite L, T, D'.
  - intros kv H. unfold get_active_markets. simpl.
    destruct H as [-> | (tids & -> & [-> | H])]; [reflexivity | reflexivity |].
    destruct (truthy tids); [now rewrite H | reflexivity].
Qed.

(** Two markets of an answer, the second without token ids. *)
Definition listed_market : value :=
  PDict [("slug", PStr "listed");
         ("clobTokenIds", PStr (Reference.text_of (PList [PStr "tokA"; PStr "tokB"])))].

Definition unlisted_market : value := PDict [("slug", PStr "unlisted")].

Lemma tokens_are_gathered_market_by_market_witness :
  get_active_markets Reference.runtime
    (Some (PList ([listed_market] ++ [unlisted_market; listed_market])))
  = get_active_markets Reference.runtime (Some (PList [listed_market]))
    ++ get_active_markets Reference.runtime
         (Some (PList [unlisted_market; listed_market])).
Proof.
  refine (proj1 (tokens_are_gathered_market_by_market Reference.runtime
                   [listed_market] [unlisted_market; listed_market] _)).
  repeat constructor; eexists; reflexivity.
Defined.

(** X9. One market of the answer that is not an object costs all tokens:
    the exception it raises leaves the loop and [get_active_markets]
    returns the empty list, like when the request itself fails. *)
Theorem one_malformed_market_empties_discovery (rt : Runtime)
    (ms1 ms2 : list value) (m : value) :
  (forall kv, m <> PDict kv) ->
  get_active_markets rt (Some (PList (ms1 ++ m :: ms2))) = [] /\
  get_active_markets rt None = [].
Proof.
  intros N. split; [| reflexivity]. unfold get_active_markets. simpl.
  rewrite collect_app.
  destruct (collect rt ms1 []) as [t |]; [| reflexivity].
  rewrite collect_cons. unfold market_tokens.
  destruct m; try reflexivity. now destruct (N kv).
Qed.

Lemma one_malformed_market_empties_discovery_witness :
  get_active_markets Reference.runtime
    (Some (PList ([listed_market] ++ PStr "oops" :: [listed_market]))) = [].
Proof.
  refine (proj1 (one_malformed_market_empties_discovery Reference.runtime
                   [listed_market] [listed_market] (PStr "oops") _)).
  intros kv. discriminate.
Defined.

(** *** [subscribe] *)

Section SubscribeFacts.
Variable pyset : Type.
Variable update : pyset -> list value -> pyset * bool.

(** The set after the batches [bs] were added one after the other. *)
Definition updated (tokens : pyset) (bs : list (list value)) : pyset :=
  fold_left (fun s b => fst (update s b)) bs tokens.

(** How far the loop gets over batches that can all be hashed: as many
    batches as the connection carries. *)
Lemma subscribe_loop_reach (bs : list (list value)) :
  (forall s b, In b bs -> snd (update s b) = true) ->
  forall st : subscribing pyset,
    raised pyset st = false ->
    let k := Nat.min (carries (ws pyset st)) (List.length bs) in
    let st' := subscribe_loop pyset update bs st in
    sent (ws pyset st') = sent (ws pyset st) ++ map sub_msg (firstn k bs) /\
    naps pyset st' = naps pyset st ++ repeat (1 # 2)%Q k /\
    subscribed_tokens pyset st' = updated (subscribed_tokens pyset st) (firstn k bs) /\
    raised pyset st' = (carries (ws pyset st) <? List.length bs)%nat.
Proof.
  induction bs as [| b bs IH]; intros H st R.
  - cbn. rewrite Nat.min_0_r, !app_nil_r. auto.
  - cbn [subscribe_loop]. unfold send.
    destruct (carries (ws pyset st)) as [| c] eqn:C.
    + cbn. now rewrite !app_nil_r.
    + specialize (H (subscribed_tokens pyset st) b (or_introl eq_refl)) as Hb.
      destruct (update (subscribed_tokens pyset st) b) as [set1 ok] eqn:U.
      simpl in Hb. subst ok.
      match goal with
      | |- context [subscribe_loop _ _ bs ?s] =>
          specialize (IH (fun s0 b0 I => H s0 b0 (or_intror I)) s eq_refl)
      end.
      cbn [ws subscribed_tokens naps raised sent carries] in IH.
      destruct IH as (I1 & I2 & I3 & I5).
      cbn [List.length Nat.min firstn map repeat].
      rewrite I1, I2, I3, I5, <- !app_assoc. unfold updated. simpl.
      rewrite U. repeat split.
Qed.

End SubscribeFacts.

(** X10. When every token can be hashed and the connection carries the
    sends, [subscribe] returns after sending one message of kind "market"
    per batch; the batches hold at least 1 and at most 50 tokens and, put
    end to end, are the token list in its order; there are
    [(n + 49) // 50] of them for [n] tokens, each followed by a sleep of
    half a second. *)
Theorem subscribe_sends_every_token_once (pyset : Type)
    (update : pyset -> list value -> pyset * bool)
    (w : websocket) (tokens : pyset) (token_ids : list value) :
  (forall s b, In b (batches 50 token_ids) -> snd (update s b) = true) ->
  ((List.length token_ids + 49) / 50 <= carries w)%nat ->
  let st := subscribe pyset update w tokens token_ids in
  raised pyset st = false /\
  sent (ws pyset st) = sent w ++ map sub_msg (batches 50 token_ids) /\
  List.concat (batches 50 token_ids) = token_ids /\
  Forall (fun b => (1 <= List.length b <= 50)%nat) (batches 50 token_ids) /\
  List.length (batches 50 token_ids) = ((List.length token_ids + 49) / 50)%nat /\
  naps pyset st = repeat (1 # 2)%Q ((List.length token_ids + 49) / 50) /\
  subscribed_tokens pyset st = updated pyset update tokens (batches 50 token_ids).
Proof.
  intros H C st.
  assert (L : List.length (batches 50 token_ids)
              = ((List.length token_ids + 49) / 50)%nat)
    by (rewrite SlicesSpec.batches_length; f_equal; lia).
  destruct (subscribe_loop_reach pyset update (batches 50 token_ids) H
              {| ws := w; subscribed_tokens := tokens; naps := []; raised := false |})
    as (E1 & E2 & E3 & E5); [reflexivity |].
  fold (subscribe pyset update w tokens token_ids) in E1, E2, E3, E5. fold st in E1, E2, E3, E5.
  cbn [ws subscribed_tokens naps raised] in E1, E2, E3, E5.
  rewrite L in E1, E2, E3, E5.
  rewrite Nat.min_r in E1, E2, E3 by exact C. rewrite <- L in E1, E3.
  rewrite firstn_all in E1, E3.
  assert (R : (carries w <? (List.length token_ids + 49) / 50)%nat = false)
    by (apply Nat.ltb_ge; exact C).
  rewrite R in E5.
  split; [exact E5 |]. split; [exact E1 |].
  split; [apply SlicesSpec.concat_batches; lia |].
  split; [apply SlicesSpec.batches_sizes; lia |].
  split; [exact L |]. split; [exact E2 | exact E3].
Qed.

(** A set that holds texts: adding another kind of item raises. *)
Fixpoint add_texts (s : list string) (items : list value) : list string * bool :=
  match items with
  | [] => (s, true)
  | PStr t :: items' =>
      add_texts (if existsb (String.eqb t) s then s else s ++ [t]) items'
  | _ :: _ => (s, false)
  end.

Lemma add_texts_returns (items : list value) :
  (forall x, In x items -> exists t, x = PStr t) ->
  forall s, snd (add_texts s items) = true.
Proof.
  induction items as [| x items IH]; intros T s; [reflexivity |].
  destruct (T x (or_introl eq_refl)) as (t & ->). simpl.
  apply IH. intros y I. apply T. now right.
Qed.

Definition token_list (n : nat) : list value :=
  map (fun k => PStr (ExtractorSpec.id_of k)) (seq 1 n).

Lemma token_batches_are_texts (n : nat) (s : list string) (b : list value) :
  In b (batches 50 (token_list n)) -> snd (add_texts s b) = true.
Proof.
  intros I. apply add_texts_returns. intros x Ix.
  assert (J : In x (List.concat (batches 50 (token_list n))))
    by (apply in_concat; eauto).
  rewrite SlicesSpec.concat_batches in J by lia.
  apply in_map_iff in J. destruct J as (k & <- & _). eauto.
Qed.

Lemma subscribe_sends_every_token_once_witness :
  raised (list string)
    (subscribe (list string) add_texts {| sent := []; carries := 5 |} []
       (token_list 120)) = false /\
  map (fun m => match getitem m "assets_ids" with
                | Some (PList ids) => List.length ids
                | _ => O
                end)
      (sent (ws (list string)
               (subscribe (list string) add_texts {| sent := []; carries := 5 |} []
                  (token_list 120))))
  = [50; 50; 20]%nat.
Proof.
  destruct (subscribe_sends_every_token_once (list string) add_texts
              {| sent := []; carries := 5 |} [] (token_list 120)
              (token_batches_are_texts 120))
    as (R & S & _).
  - vm_compute. lia.
  - split; [exact R |]. rewrite S. vm_compute. reflexivity.
Defined.

(** X11. When the connection breaks before all batches are sent,
    [subscribe] raises: exactly the batches the connection carried went
    out, each followed by its sleep, and only their tokens were added to the
    set of subscribed tokens. *)
Theorem subscribe_stops_where_the_connection_breaks (pyset : Type)
    (update : pyset -> list value -> pyset * bool)
    (w : websocket) (tokens : pyset) (token_ids : list value) :
  (forall s b, In b (batches 50 token_ids) -> snd (update s b) = true) ->
  (carries w < List.length (batches 50 token_ids))%nat ->
  let st := subscribe pyset update w tokens token_ids in
  raised pyset st = true /\
  sent (ws pyset st)
  = sent w ++ map sub_msg (firstn (carries w) (batches 50 token_ids)) /\
  naps pyset st = repeat (1 # 2)%Q (carries w) /\
  subscribed_tokens pyset st
  = updated pyset update tokens (firstn (carries w) (batches 50 token_ids)).
Proof.
  intros H C st.
  destruct (subscribe_loop_reach pyset update (batches 50 token_ids) H
              {| ws := w; subscribed_tokens := tokens; naps := []; raised := false |})
    as (E1 & E2 & E3 & E5); [reflexivity |].
  fold (subscribe pyset update w tokens token_ids) in E1, E2, E3, E5. fold st in E1, E2, E3, E5.
  cbn [ws subscribed_tokens naps raised] in E1, E2, E3, E5.
  rewrite Nat.min_l in E1, E2, E3 by lia.
  apply Nat.ltb_lt in C. rewrite C in E5. auto.
Qed.

Lemma subscribe_stops_where_the_connection_breaks_witness :
  raised (list string)
    (subscribe (list string) add_texts {| sent := []; carries := 2 |} []
       (token_list 120)) = true /\
  List.length
    (sent (ws (list string)
             (subscribe (list string) add_texts {| sent := []; carries := 2 |} []
                (token_list 120)))) = 2%nat.
Proof.
  destruct (subscribe_stops_where_the_connection_breaks (list string) add_texts
              {| sent := []; carries := 2 |} [] (token_list 120)
              (token_batches_are_texts 120))
    as (R & S & _).
  - vm_compute. lia.
  - split; [exact R |]. rewrite S. vm_compute. reflexivity.
Defined.

End SubscriptionSpec.

(** ** The poller over a cycle, and its selection *)
Module PollerMore.
Import Storage Slices Poller Cycle.

(** *** A cycle *)

Lemma run_batch_concat (rt : Runtime) (bs : list (list (target * exchange))) :
  forall self, fold_left (run_batch rt) bs self = run_batch rt self (List.concat bs).
Proof.
  induction bs as [| b bs IH]; intros self; simpl; [reflexivity |].
  now rewrite IH, PollerSpec.run_batch_app.
Qed.

Lemma cycle_loop_result (rt : Runtime) (bs : list (list (target * exchange))) :
  forall self sleeps,
    cycle_loop rt bs self sleeps
    = (fold_left (run_batch rt) bs self,
       sleeps ++ repeat BATCH_DELAY (List.length bs)).
Proof.
  induction bs as [| b bs IH]; intros self sleeps; simpl.
  - now rewrite app_nil_r.
  - now rewrite IH, <- app_assoc.
Qed.

(** X12. A cycle goes through the targets in batches that, put end to end,
    are the target list in its order, each of at least 1 and at most 20
    targets: every target is fetched once per cycle.  For [n] targets there
    are [(n + 19) // 20] batches, and the cycle sleeps [BATCH_DELAY] seconds
    after each of them, the last one included. *)
Theorem cycle_batches_cover_the_targets (rt : Runtime) (self : OrderbookPoller)
    (tokens : list (target * exchange)) :
  fst (run_cycle rt self tokens)
  = fold_left (run_batch rt) (batches BATCH_SIZE tokens) self /\
  List.concat (batches BATCH_SIZE tokens) = tokens /\
  Forall (fun b => (1 <= List.length b <= 20)%nat) (batches BATCH_SIZE tokens) /\
  List.length (batches BATCH_SIZE tokens) = ((List.length tokens + 19) / 20)%nat /\
  snd (run_cycle rt self tokens)
  = repeat BATCH_DELAY ((List.length tokens + 19) / 20).
Proof.
  assert (L : List.length (batches BATCH_SIZE tokens)
              = ((List.length tokens + 19) / 20)%nat).
  { rewrite SlicesSpec.batches_length. unfold BATCH_SIZE.
    replace (List.length tokens + 20 - 1)%nat with (List.length tokens + 19)%nat by lia.
    reflexivity. }
  unfold run_cycle. rewrite cycle_loop_result. simpl.
  split; [reflexivity |].
  split; [apply SlicesSpec.concat_batches; unfold BATCH_SIZE; lia |].
  split; [apply (SlicesSpec.batches_sizes 20); lia |].
  split; [exact L | now rewrite L].
Qed.

(** *** Counters *)








(** *** Selection *)

Lemma str_prefix_len (s : string) :
  forall n, (str_len (str_prefix n s) <= n)%nat.
Proof.
  induction s as [| c s IH]; intros n; simpl; [lia |].
  destruct (continuation c) eqn:C; simpl.
  - rewrite C. apply IH.
  - destruct n as [| n]; simpl; [lia |]. rewrite C. specialize (IH n). lia.
Qed.

(** The question of an entry is cut to 50 characters (or 50 items). *)
Definition question_is_short (t : target) : Prop :=
  match question t with
  | PStr s => (str_len s <= 50)%nat
  | PList l => (List.length l <= 50)%nat
  | _ => False
  end.

Lemma slice_to_length (n : nat) (q q' : value) :
  slice_to n q = Some q' ->
  match q' with
  | PStr s => (str_len s <= n)%nat
  | PList l => (List.length l <= n)%nat
  | _ => False
  end.
Proof.
  destruct q; try discriminate; intros [= <-].
  - apply str_prefix_len.
  - apply firstn_le_length.
Qed.

Lemma entry_question (rt : Runtime) (m token_ids : value) (t : target) :
  entry rt m token_ids = Some t -> question_is_short t.
Proof.
  unfold entry.
  destruct (loads rt token_ids) as [ids |]; [| discriminate].
  destruct (truthy ids); [| discriminate].
  destruct (first ids); [| discriminate].
  destruct (get m "slug" (PStr "unknown")); [| discriminate].
  destruct (get m "question" (PStr "")) as [q |]; [| discriminate].
  destruct (slice_to 50 q) as [q50 |] eqn:Q; [| discriminate].
  intros [= <-]. unfold question_is_short. cbn [question].
  exact (slice_to_length 50 q q50 Q).
Qed.

Lemma select_bounds (rt : Runtime) (limit : nat) (markets : list value) :
  forall tokens result,
    select rt limit markets tokens = Some result ->
    (List.length tokens <= limit)%nat -> Forall question_is_short tokens ->
    (List.length result <= limit)%nat /\ Forall question_is_short result.
Proof.
  induction markets as [| m markets IH]; simpl; intros tokens result.
  - intros [= <-]. auto.
  - destruct (limit <=? List.length tokens)%nat eqn:L.
    { intros [= <-]. auto. }
    apply Nat.leb_gt in L.
    destruct (skipped rt m); [apply IH |].
    destruct (get m "clobTokenIds" PNone) as [token_ids |]; [| discriminate].
    intros S _ F. apply (IH _ _ S).
    + destruct (if truthy token_ids then entry rt m token_ids else None);
        [rewrite length_app; simpl |]; lia.
    + destruct (truthy token_ids); [| exact F].
      destruct (entry rt m token_ids) as [t |] eqn:E; [| exact F].
      apply Forall_app. split; [exact F |].
      constructor; [eapply entry_question; exact E | constructor].
Qed.

(** X14. [get_top_markets] never returns more than [limit] entries, and
    the question of every entry is cut to at most 50 characters, counted as
    Python counts them: by code point, not by byte. *)
Theorem selection_respects_its_limits (rt : Runtime) (resp : option value)
    (limit : nat) :
  (List.length (get_top_markets rt resp limit) <= limit)%nat /\
  Forall question_is_short (get_top_markets rt resp limit).
Proof.
  unfold get_top_markets.
  destruct resp as [markets |]; [| simpl; split; [lia | constructor]].
  destruct (iter markets) as [ms |]; [| simpl; split; [lia | constructor]].
  destruct (select rt limit ms []) as [result |] eqn:S;
    [| simpl; split; [lia | constructor]].
  apply (select_bounds rt limit ms [] result S); [simpl; lia | constructor].
Qed.

(** A question of 49 letters, an accented one and three more: the cut
    keeps 50 characters, which are 51 bytes of UTF-8. *)
Definition accented_question : string :=
  string_of_list_ascii (repeat "A"%char 49)
  ++ String "195"%char (String "169"%char "xyz").

Example cut_counts_characters :
  slice_to 50 (PStr accented_question)
  = Some (PStr (string_of_list_ascii (repeat "A"%char 49)
                ++ String "195"%char (String "169"%char ""))) /\
  str_len accented_question = 53%nat /\
  str_len (str_prefix 50 accented_question) = 50%nat /\
  String.length (str_prefix 50 accented_question) = 51%nat.
Proof. vm_compute. repeat split; reflexivity. Qed.

Lemma select_raises (rt : Runtime) (limit : nat) (m : value) (ms2 : list value) :
  (forall kv, m <> PDict kv) ->
  forall ms1 tokens,
    (List.length tokens + List.length ms1 < limit)%nat ->
    select rt limit (ms1 ++ m :: ms2) tokens = None.
Proof.
  intros N. induction ms1 as [| x ms1 IH]; intros tokens B; simpl in *.
  - assert (L : (limit <=? List.length tokens)%nat = false)
      by (apply Nat.leb_gt; lia).
    rewrite L.
    assert (G : forall k d, get m k d = None)
      by (intros k d; destruct m; try reflexivity; now destruct (N kv)).
    unfold skipped, mid_price. now rewrite !G.
  - assert (L : (limit <=? List.length tokens)%nat = false)
      by (apply Nat.leb_gt; lia).
    rewrite L.
    destruct (skipped rt x); [apply IH; lia |].
    destruct (get x "clobTokenIds" PNone) as [token_ids |]; [| reflexivity].
    apply IH.
    destruct (if truthy token_ids then entry rt x token_ids else None);
      [rewrite length_app; simpl |]; lia.
Qed.

(** X15. A market of the answer that is not an object, met before the
    limit is reached, costs the whole selection: [get_top_markets] returns
    the empty list, as it does when the request fails. *)
Theorem one_malformed_market_empties_selection (rt : Runtime)
    (ms1 ms2 : list value) (m : value) (limit : nat) :
  (forall kv, m <> PDict kv) ->
  (List.length ms1 < limit)%nat ->
  get_top_markets rt (Some (PList (ms1 ++ m :: ms2))) limit = [] /\
  get_top_markets rt None limit = [].
Proof.
  intros N B. split; [| reflexivity]. unfold get_top_markets. simpl.
  now rewrite (select_raises rt limit m ms2 N ms1 []).
Qed.

Lemma one_malformed_market_empties_selection_witness :
  get_top_markets Reference.runtime
    (Some (PList ([PollerSpec.boundary_market] ++ PNone :: [PollerSpec.boundary_market])))
    100 = [].
Proof.
  refine (proj1 (one_malformed_market_empties_selection Reference.runtime
                   [PollerSpec.boundary_market] [PollerSpec.boundary_market]
                   PNone 100 _ _)).
  - intros kv. discriminate.
  - simpl. lia.
Defined.

End PollerMore.

(** ** The bulk extractor over any source *)
Module ExtractorMore.
Import Extractor.

(** *** The order of ids *)

Lemma compare_lt_trans (a : string) :
  forall b c, (a ?= b)%string = Lt -> (b ?= c)%string = Lt -> (a ?= c)%string = Lt.
Proof.
  induction a as [| x a IH]; intros [| y b] [| z c]; simpl; try discriminate; auto.
  unfold Ascii.compare.
  destruct (N.compare_spec (N_of_ascii x) (N_of_ascii y)) as [E1 | L1 | G1];
    try discriminate;
    destruct (N.compare_spec (N_of_ascii y) (N_of_ascii z)) as [E2 | L2 | G2];
    try discriminate; intros H1 H2.
  - rewrite E1, E2, N.compare_refl. eauto.
  - assert (L : (N_of_ascii x < N_of_ascii z)%N) by lia.
    apply N.compare_lt_iff in L. now rewrite L.
  - assert (L : (N_of_ascii x < N_of_ascii z)%N) by lia.
    apply N.compare_lt_iff in L. now rewrite L.
  - assert (L : (N_of_ascii x < N_of_ascii z)%N) by lia.
    apply N.compare_lt_iff in L. now rewrite L.
Qed.

Lemma ltb_trans (a b c : string) :
  (a <? b)%string = true -> (b <? c)%string = true -> (a <? c)%string = true.
Proof.
  unfold String.ltb. intros H1 H2.
  destruct (a ?= b)%string eqn:E1; try discriminate.
  destruct (b ?= c)%string eqn:E2; try discriminate.
  now rewrite (compare_lt_trans a b c E1 E2).
Qed.

Lemma above_is_not_empty (a b : string) : (a <? b)%string = true -> b <> "".
Proof. intros H ->. unfold String.ltb in H. now destruct a. Qed.

(** *** What a query can return *)

Lemma in_firstn {A : Type} (n : nat) (l : list A) (x : A) :
  In x (firstn n l) -> In x l.
Proof.
  intros I. rewrite <- (firstn_skipn n l). apply in_or_app. now left.
Qed.

(** A query ends without data or with what the source serves for it; the
    events of the source are not touched. *)
Lemma query_answer (w : subgraph) (q : query) :
  events (fst (query_subgraph w q)) = events w /\
  (snd (query_subgraph w q) = None
   \/ snd (query_subgraph w q) = Some (serve (events w) q)).
Proof.
  destruct w as [evs script ps sl]. unfold query_subgraph.
  destruct script as [| [| |] [| [| |] [| [| |] s3]]]; cbn; auto.
Qed.

(** Every record of a page lies above the cursor it was asked with. *)
Lemma page_is_above_cursor (w : subgraph) (last_id : string) :
  events (fst (extract_trades_batch w last_id)) = events w /\
  forall e, In e (snd (extract_trades_batch w last_id)) ->
    In e (events w) /\ after (ExtractorSpec.where_of last_id) e = true.
Proof.
  unfold extract_trades_batch. fold (ExtractorSpec.where_of last_id).
  set (q := PageQuery BATCH_SIZE (ExtractorSpec.where_of last_id)).
  destruct (query_answer w q) as [E A].
  destruct (query_subgraph w q) as [w1 d]. cbn [fst snd] in *.
  destruct A as [-> | ->]; cbn [fst snd]; (split; [exact E |]).
  - intros e [].
  - unfold q, serve. cbn [fst snd]. intros e I.
    apply in_firstn in I. apply filter_In in I. exact I.
Qed.

(** *** The count query *)

(** X16. When the count query ends without data, be it after three POSTs
    that raised or on an answer that carries errors, [main] takes the total
    for 0 and reports the database up to date: it posts no page request and
    leaves the connection as it is, whatever the table holds.  It reports
    the same when the source answers and counts no more events than the
    table has rows. *)
Theorem failed_count_reads_as_up_to_date (rt : Runtime) (fuel : nat)
    (w : subgraph) (c : connection) (script : list post_result) :
  (coming w = Raises :: Raises :: Raises :: script ->
   main rt fuel w c = Some (ExtractorSpec.exhausted w TotalQuery script, c, UpToDate)) /\
  (coming w = WithErrors :: script ->
   main rt fuel w c
   = Some ({| events := events w; coming := script;
              posted := posted w ++ [TotalQuery]; slept := slept w |}, c, UpToDate)) /\
  (coming w = [] -> (List.length (events w) <= get_trade_count c)%nat ->
   main rt fuel w c = Some (ExtractorSpec.asked w TotalQuery, c, UpToDate)).
Proof.
  split; [| split]; intros C.
  - unfold main, get_total_trades. rewrite (ExtractorSpec.query_exhausts _ _ _ C).
    now destruct (get_trade_count c).
  - unfold main, get_total_trades. rewrite (ExtractorSpec.query_with_errors _ _ _ C).
    now destruct (get_trade_count c).
  - intros L. unfold main, get_total_trades.
    rewrite (ExtractorSpec.query_reliable _ _ C). cbn [serve].
    destruct (Z.of_nat (List.length (events w)) <=? Z.of_nat (get_trade_count c)) eqn:Q;
      [reflexivity |].
    apply Z.leb_gt in Q. lia.
Qed.

Lemma failed_count_reads_as_up_to_date_witness :
  main Reference.runtime 5
    (source (ExtractorSpec.feed 3) [Raises; Raises; Raises]) (holding [])
  = Some (ExtractorSpec.exhausted
            (source (ExtractorSpec.feed 3) [Raises; Raises; Raises]) TotalQuery [],
          holding [], UpToDate).
Proof.
  exact (proj1 (failed_count_reads_as_up_to_date Reference.runtime 5
                  (source (ExtractorSpec.feed 3) [Raises; Raises; Raises])
                  (holding []) []) eq_refl).
Defined.

(** *** Inserting a page again *)

Lemma insert_known (values : list trade) :
  forall tbl,
    (forall r, In r values -> In (id r) (map id tbl)) ->
    fold_left insert_ignore values tbl = tbl.
Proof.
  induction values as [| v values IH]; intros tbl K; simpl; [reflexivity |].
  unfold insert_ignore at 2.
  rewrite (proj2 (ExtractorSpec.known_id tbl v) (K v (or_introl eq_refl))).
  apply IH. intros r I. apply K. now right.
Qed.

(** X17. Inserting a page a second time changes nothing in the table:
    every record meets its own id and is ignored.  The call still returns
    the size of the page, not the number of rows added. *)
Theorem inserting_a_page_again_adds_nothing (rt : Runtime) (c c1 : connection)
    (trades : list fill) (n : nat) :
  insert_trades rt c trades = Some (c1, n) ->
  exists c2,
    insert_trades rt c1 trades = Some (c2, n) /\
    working c2 = working c1 /\ committed c2 = committed c1 /\
    n = List.length trades.
Proof.
  unfold insert_trades. destruct trades as [| t trades].
  - intros [= <- <-]. exists c. auto.
  - destruct (values_of rt (t :: trades)) as [values |] eqn:V; [| discriminate].
    intros [= <- <-].
    destruct (ExtractorSpec.insert_ignoring values (working c)) as (fresh & E & _ & K & _).
    exists (commit (execute_values (commit (execute_values c values)) values)).
    assert (W : fold_left insert_ignore values
                  (working (commit (execute_values c values)))
                = working (commit (execute_values c values))).
    { apply insert_known. intros r I. simpl. rewrite E. now apply K. }
    split; [reflexivity |]. split; [exact W |]. split; [exact W |].
    now destruct (ExtractorSpec.values_of_ids rt _ _ V).
Qed.

Lemma inserting_a_page_again_adds_nothing_witness :
  exists c2,
    insert_trades Reference.runtime
      (commit (execute_values (holding []) ExtractorSpec.rows_of_feed_3))
      (ExtractorSpec.feed 3)
    = Some (c2, 3%nat) /\
    working c2
    = working (commit (execute_values (holding []) ExtractorSpec.rows_of_feed_3)) /\
    committed c2
    = committed (commit (execute_values (holding []) ExtractorSpec.rows_of_feed_3)) /\
    3%nat = List.length (ExtractorSpec.feed 3).
Proof.
  exact (inserting_a_page_again_adds_nothing Reference.runtime (holding [])
           (commit (execute_values (holding []) ExtractorSpec.rows_of_feed_3))
           (ExtractorSpec.feed 3) 3 eq_refl).
Defined.

(** *** Ids through a run *)

(** X18. A run keeps the ids of the table unique and never changes or
    removes a stored row, whatever the source serves and however its
    requests fail: when it ends, the table is the table it started with
    followed by new rows, and no two rows share an id. *)
Theorem run_keeps_ids_unique (rt : Runtime) (fuel : nat) (w w' : subgraph)
    (c c' : connection) (o : outcome) :
  NoDup (map id (working c)) ->
  main rt fuel w c = Some (w', c', o) ->
  NoDup (map id (working c')) /\ exists more, working c' = working c ++ more.
Proof.
  intros N. unfold main. destruct (get_total_trades w) as [w1 total].
  destruct (total <=? Z.of_nat (get_trade_count c)).
  { intros [= <- <- <-]. split; [exact N |]. exists []. now rewrite app_nil_r. }
  generalize (get_last_trade_id c) as last_id. generalize 0%nat as n.
  clear w. revert w1 c N.
  induction fuel as [| fuel IH]; intros w c N n last_id; [discriminate |].
  rewrite ExtractorSpec.extract_loop_S.
  destruct (extract_trades_batch w last_id) as [w2 trades].
  destruct trades as [| t trades].
  - intros [= <- <- <-]. split; [exact N |]. exists []. now rewrite app_nil_r.
  - unfold insert_trades.
    destruct (values_of rt (t :: trades)) as [values |].
    + destruct (ExtractorSpec.insert_ignoring values (working c))
        as (fresh & E & _ & _ & U).
      intros L. apply IH in L.
      * destruct L as [N' (more & M)]. split; [exact N' |].
        exists (fresh ++ more). rewrite M. simpl. now rewrite E, app_assoc.
      * simpl. rewrite E. now apply U.
    + intros [= <- <- <-]. split; [exact N |]. exists []. now rewrite app_nil_r.
Qed.

Lemma run_keeps_ids_unique_witness :
  exists w' c' o,
    main Reference.runtime 3
      (source (ExtractorSpec.feed 3) []) (holding [ExtractorSpec.earlier_row])
    = Some (w', c', o) /\
    NoDup (map id (working c')) /\
    exists more, working c' = working (holding [ExtractorSpec.earlier_row]) ++ more.
Proof.
  eexists _, _, _. split; [vm_compute; reflexivity |].
  refine (run_keeps_ids_unique Reference.runtime 3 (source (ExtractorSpec.feed 3) [])
            _ (holding [ExtractorSpec.earlier_row]) _ _ _ _).
  - repeat constructor. simpl. tauto.
  - vm_compute. reflexivity.
Defined.

(** *** Where a run writes *)

Lemma values_of_In (rt : Runtime) (l : list fill) :
  forall vs, values_of rt l = Some vs ->
    forall r, In r vs -> exists e, In e l /\ value_of rt e = Some r.
Proof.
  induction l as [| t l IH]; simpl; intros vs.
  - intros [= <-] r [].
  - destruct (value_of rt t) as [v |] eqn:V; [| discriminate].
    destruct (values_of rt l) as [vs' |]; [| discriminate].
    intros [= <-] r [<- | I].
    + exists t. auto.
    + destruct (IH _ eq_refl r I) as (e & J & E). exists e. auto.
Qed.

(** The cursor after a page is the id of one of its records. *)
Lemma last_id_in_page (t : fill) (trades : list fill) (previous : string) :
  exists e, In e (t :: trades) /\ last_id_of (t :: trades) previous = f_id e.
Proof.
  destruct (@exists_last _ (t :: trades)) as (before & last & E); [discriminate |].
  rewrite E, ExtractorSpec.last_id_of_snoc. exists last. split; [| reflexivity].
  apply in_or_app. right. now left.
Qed.

Lemma where_of_cursor (last_id : string) :
  last_id <> "" -> ExtractorSpec.where_of last_id = Some last_id.
Proof.
  intros N. unfold ExtractorSpec.where_of.
  destruct (last_id =? "")%string eqn:E; [| reflexivity].
  apply String.eqb_eq in E. contradiction.
Qed.

Lemma extract_loop_above (rt : Runtime) (fuel : nat) :
  forall w c last_id n w' c' o,
    last_id <> "" ->
    extract_loop rt fuel w c last_id n = Some (w', c', o) ->
    exists more,
      working c' = working c ++ more /\
      forall r, In r more ->
        (last_id <? id r)%string = true /\
        exists e, In e (events w) /\ value_of rt e = Some r.
Proof.
  induction fuel as [| fuel IH]; intros w c last_id n w' c' o N; [discriminate |].
  rewrite ExtractorSpec.extract_loop_S.
  destruct (page_is_above_cursor w last_id) as [Ew A].
  rewrite (where_of_cursor _ N) in A.
  destruct (extract_trades_batch w last_id) as [w2 trades]. cbn [fst snd] in Ew, A.
  destruct trades as [| t trades].
  { intros [= <- <- <-]. exists []. rewrite app_nil_r. split; [reflexivity |].
    intros r []. }
  destruct (last_id_in_page t trades last_id) as (el & Il & ->).
  destruct (A el Il) as [_ Al]. cbn [after] in Al.
  unfold insert_trades.
  destruct (values_of rt (t :: trades)) as [values |] eqn:V.
  2:{ intros [= <- <- <-]. exists []. rewrite app_nil_r. split; [reflexivity |].
      intros r []. }
  destruct (ExtractorSpec.insert_ignoring values (working c)) as (fresh & E & F & _ & _).
  intros L. apply IH in L; [| exact (above_is_not_empty _ _ Al)].
  destruct L as (more & M & B). exists (fresh ++ more). split.
  - rewrite M. cbn [commit execute_values working]. now rewrite E, app_assoc.
  - intros r I. apply in_app_or in I. destruct I as [I | I].
    + destruct (F r I) as [J _].
      destruct (values_of_In rt _ _ V r J) as (e & Ie & Ve).
      destruct (A e Ie) as [Iw Ae]. cbn [after] in Ae.
      rewrite (ExtractorSpec.value_of_id rt e r Ve). split; [exact Ae |].
      exists e. auto.
    + destruct (B r I) as [R (e & Ie & Ve)]. split.
      * exact (ltb_trans _ _ _ Al R).
      * exists e. cbn [sleep events] in Ie. rewrite Ew in Ie. auto.
Qed.

(** X19. A run that starts from a non-empty cursor, the greatest stored id,
    only appends to the table, and every row it appends is the conversion of
    an event of the source whose id is above that cursor.  This needs no
    assumption on the order in which the source serves its events nor on how
    its requests fail. *)
Theorem run_appends_only_rows_above_the_cursor (rt : Runtime) (fuel : nat)
    (w w' : subgraph) (c c' : connection) (o : outcome) :
  get_last_trade_id c <> "" ->
  main rt fuel w c = Some (w', c', o) ->
  exists more,
    working c' = working c ++ more /\
    forall r, In r more ->
      (get_last_trade_id c <? id r)%string = true /\
      exists e, In e (events w) /\ value_of rt e = Some r.
Proof.
  intros N. unfold main, get_total_trades.
  destruct (query_answer w TotalQuery) as [Ew _].
  destruct (query_subgraph w TotalQuery) as [w1 d]. cbn [fst] in Ew.
  assert (G : forall total,
             (if total <=? Z.of_nat (get_trade_count c) then Some (w1, c, UpToDate)
              else extract_loop rt fuel w1 c (get_last_trade_id c) 0)
             = Some (w', c', o) ->
             exists more,
               working c' = working c ++ more /\
               forall r, In r more ->
                 (get_last_trade_id c <? id r)%string = true /\
                 exists e, In e (events w) /\ value_of rt e = Some r).
  { intros total. destruct (total <=? Z.of_nat (get_trade_count c)).
    - intros [= <- <- <-]. exists []. rewrite app_nil_r. split; [reflexivity |].
      intros r [].
    - intros L. apply extract_loop_above in L; [| exact N].
      rewrite Ew in L. exact L. }
  destruct d as [[total | l] |]; apply G.
Qed.

(** A source that serves its events out of order. *)
Definition shuffled : list fill :=
  [ExtractorSpec.fill_no 3; ExtractorSpec.fill_no 1;
   ExtractorSpec.fill_no 4; ExtractorSpec.fill_no 2].

Lemma run_appends_only_rows_above_the_cursor_witness :
  exists w' c' o,
    main Reference.runtime 4 (source shuffled [Raises])
      (holding [ExtractorSpec.earlier_row])
    = Some (w', c', o) /\
    exists more,
      working c' = working (holding [ExtractorSpec.earlier_row]) ++ more /\
      forall r, In r more ->
        (get_last_trade_id (holding [ExtractorSpec.earlier_row]) <? id r)%string = true /\
        exists e, In e (events (source shuffled [Raises])) /\
                  value_of Reference.runtime e = Some r.
Proof.
  eexists _, _, _. split; [vm_compute; reflexivity |].
  refine (run_appends_only_rows_above_the_cursor Reference.runtime 4
            (source shuffled [Raises]) _ (holding [ExtractorSpec.earlier_row]) _ _ _ _).
  - vm_compute. discriminate.
  - vm_compute. reflexivity.
Defined.

(** *** How long a run lasts *)

Lemma filter_not_longer {A : Type} (p q : A -> bool) (l : list A) :
  (forall y, In y l -> p y = true -> q y = true) ->
  (List.length (filter p l) <= List.length (filter q l))%nat.
Proof.
  induction l as [| y l IH]; intros H; simpl; [lia |].
  assert (IH' := IH (fun z I => H z (or_intror I))).
  destruct (p y) eqn:P.
  - rewrite (H y (or_introl eq_refl) P). simpl. lia.
  - destruct (q y); simpl; lia.
Qed.

Lemma filter_shorter {A : Type} (p q : A -> bool) (l : list A) (x : A) :
  (forall y, In y l -> p y = true -> q y = true) ->
  In x l -> q x = true -> p x = false ->
  (List.length (filter p l) < List.length (filter q l))%nat.
Proof.
  induction l as [| y l IH]; intros H I Q P; [destruct I |]. simpl.
  assert (H' : forall z, In z l -> p z = true -> q z = true)
    by (intros z J; apply H; now right).
  destruct I as [-> | I].
  - rewrite P, Q. simpl. pose proof (filter_not_longer p q l H'). lia.
  - specialize (IH H' I Q P). destruct (p y) eqn:Py.
    + rewrite (H y (or_introl eq_refl) Py). simpl. lia.
    + destruct (q y); simpl; lia.
Qed.

Lemma extract_loop_ends (rt : Runtime) (fuel : nat) :
  forall w c last_id n,
    Forall (fun e => f_id e <> "") (events w) ->
    (List.length (filter (after (ExtractorSpec.where_of last_id)) (events w)) < fuel)%nat ->
    exists w' c' o, extract_loop rt fuel w c last_id n = Some (w', c', o).
Proof.
  induction fuel as [| fuel IH]; intros w c last_id n N F; [lia |].
  rewrite ExtractorSpec.extract_loop_S.
  destruct (page_is_above_cursor w last_id) as [Ew A].
  destruct (extract_trades_batch w last_id) as [w2 trades]. cbn [fst snd] in Ew, A.
  destruct trades as [| t trades]; [eauto |].
  destruct (last_id_in_page t trades last_id) as (el & Il & ->).
  destruct (A el Il) as [Iw Al].
  destruct (insert_trades rt c (t :: trades)) as [[c1 inserted] |]; [| eauto].
  apply IH; cbn [sleep events]; rewrite Ew; [exact N |].
  assert (Nl : f_id el <> "") by (rewrite Forall_forall in N; now apply N).
  rewrite (where_of_cursor _ Nl).
  assert (S : (List.length (filter (after (Some (f_id el))) (events w))
               < List.length (filter (after (ExtractorSpec.where_of last_id)) (events w)))%nat).
  { apply (filter_shorter _ _ _ el); [| exact Iw | exact Al |].
    - intros y _ P. cbn [after] in P.
      destruct (ExtractorSpec.where_of last_id) as [k |]; [| reflexivity].
      cbn [after] in *. exact (ltb_trans _ _ _ Al P).
    - cbn [after]. apply ExtractorSpec.ltb_irrefl. }
  lia.
Qed.

(** X20. Against a source whose events all have a non-empty id, a run
    ends: its loop is left within as many iterations as the source has
    events, and one more, whatever the order of the events, whatever the
    table holds and however the requests fail. *)
Theorem run_ends_within_one_page_per_event (rt : Runtime) (fuel : nat)
    (w : subgraph) (c : connection) :
  Forall (fun e => f_id e <> "") (events w) ->
  (List.length (events w) < fuel)%nat ->
  exists w' c' o, main rt fuel w c = Some (w', c', o).
Proof.
  intros N F. unfold main, get_total_trades.
  destruct (query_answer w TotalQuery) as [Ew _].
  destruct (query_subgraph w TotalQuery) as [w1 d]. cbn [fst] in Ew.
  assert (G : forall total,
             exists w' c' o,
               (if total <=? Z.of_nat (get_trade_count c) then Some (w1, c, UpToDate)
                else extract_loop rt fuel w1 c (get_last_trade_id c) 0)
               = Some (w', c', o)).
  { intros total. destruct (total <=? Z.of_nat (get_trade_count c)); [eauto |].
    apply extract_loop_ends; rewrite Ew; [exact N |].
    pose proof (filter_length_le
                  (after (ExtractorSpec.where_of (get_last_trade_id c))) (events w)).
    lia. }
  destruct d as [[total | l] |]; apply G.
Qed.

Lemma run_ends_within_one_page_per_event_witness :
  exists w' c' o,
    main Reference.runtime 5 (source shuffled [Raises; Answers; Raises]) (holding [])
    = Some (w', c', o).
Proof.
  apply (run_ends_within_one_page_per_event Reference.runtime 5
           (source shuffled [Raises; Answers; Raises]) (holding [])).
  - repeat (constructor; [discriminate |]). constructor.
  - simpl. lia.
Defined.





(** *** The final report *)

Lemma insert_length (values : list trade) :
  forall tbl,
    (List.length (fold_left insert_ignore values tbl)
     <= List.length tbl + List.length values)%nat.
Proof.
  induction values as [| v values IH]; intros tbl; simpl; [lia |].
  specialize (IH (insert_ignore tbl v)).
  assert (S : (List.length (insert_ignore tbl v) <= List.length tbl + 1)%nat).
  { unfold insert_ignore.
    destruct (existsb (fun x => (id x =? id v)%string) tbl); [lia |].
    rewrite length_app. simpl. lia. }
  lia.
Qed.

Lemma extract_loop_report (rt : Runtime) (fuel : nat) :
  forall w c last_id n w' c' final total,
    extract_loop rt fuel w c last_id n
    = Some (w', c', ExtractionComplete final total) ->
    final = List.length (working c') /\
    (n <= total)%nat /\
    (final + n <= List.length (working c) + total)%nat.
Proof.
  induction fuel as [| fuel IH]; intros w c last_id n w' c' final total; [discriminate |].
  rewrite ExtractorSpec.extract_loop_S.
  destruct (extract_trades_batch w last_id) as [w2 trades].
  destruct trades as [| t trades].
  { intros [= <- <- <- <-]. unfold get_trade_count. lia. }
  unfold insert_trades.
  destruct (values_of rt (t :: trades)) as [values |]; [| discriminate].
  intros L. apply IH in L. destruct L as (F & T & B).
  cbn [commit execute_values working] in B.
  pose proof (insert_length values (working c)). lia.
Qed.

(** X22. The final report gives the number of rows the table holds, and
    the number of insertions it reports for the run is never below the
    growth of the table: the table holds at most the rows it started with
    plus that number. *)
Theorem reported_insertions_bound_the_growth (rt : Runtime) (fuel : nat)
    (w w' : subgraph) (c c' : connection) (final total : nat) :
  main rt fuel w c = Some (w', c', ExtractionComplete final total) ->
  final = List.length (working c') /\
  (final <= List.length (working c) + total)%nat.
Proof.
  unfold main. destruct (get_total_trades w) as [w1 t].
  destruct (t <=? Z.of_nat (get_trade_count c)); [discriminate |].
  intros L. apply extract_loop_report in L. lia.
Qed.

Lemma reported_insertions_bound_the_growth_witness :
  exists w' c',
    main Reference.runtime 3 (source (ExtractorSpec.feed 3) [])
      (holding [ExtractorSpec.earlier_row])
    = Some (w', c', ExtractionComplete 2 1) /\
    2%nat = List.length (working c') /\
    (2 <= List.length (working (holding [ExtractorSpec.earlier_row])) + 1)%nat.
Proof.
  eexists _, _. split; [vm_compute; reflexivity |].
  refine (reported_insertions_bound_the_growth Reference.runtime 3
            (source (ExtractorSpec.feed 3) []) _
            (holding [ExtractorSpec.earlier_row]) _ 2 1 _).
  vm_compute. reflexivity.
Defined.

End ExtractorMore.
